(** * Conversational strategy agent: safety gate, semantic memory,
    historical pre-check and task loop

  A shallow embedding of [modules/guardrail.py],
  [modules/conversation_indexer.py], [modules/historical_check.py],
  [core/loop.py], the memory tools of [modules/mcp_server_memory.py],
  [modules/model_manager.py] and the handling of a turn in [agent.py],
  followed by the properties proved about them.

  Python text is modelled by [string].  On ASCII text every operation
  below agrees with the Python one it is named after; a character
  outside ASCII appears as the bytes of its UTF-8 encoding, which are
  neither word, digit nor space characters. *)

From Stdlib Require Import String Ascii List Bool Arith ZArith QArith Lia.
Import ListNotations.
Local Open Scope string_scope.
Local Open Scope nat_scope.

(* ===================================================================== *)
(** * Python strings *)
(* ===================================================================== *)

Module Py.

Definition code (c : ascii) : nat := nat_of_ascii c.

Definition between (lo hi : nat) (c : ascii) : bool :=
  (lo <=? code c) && (code c <=? hi).

Definition is_upper (c : ascii) : bool := between 65 90 c.
Definition is_lower (c : ascii) : bool := between 97 122 c.
Definition is_digit (c : ascii) : bool := between 48 57 c.

(** [str.isspace] on one character: tab, newline, vertical tab, form
    feed, carriage return, the four separators 28..31 and the space. *)
Definition is_space (c : ascii) : bool :=
  between 9 13 c || between 28 31 c || (code c =? 32).

(** The class [\w]: letters, digits and the underscore. *)
Definition is_word (c : ascii) : bool :=
  is_upper c || is_lower c || is_digit c || (code c =? 95).

Definition lower_char (c : ascii) : ascii :=
  if is_upper c then ascii_of_nat (code c + 32) else c.

Definition upper_char (c : ascii) : ascii :=
  if is_lower c then ascii_of_nat (code c - 32) else c.

Fixpoint map_chars (f : ascii -> ascii) (s : string) : string :=
  match s with
  | EmptyString => EmptyString
  | String c s' => String (f c) (map_chars f s')
  end.

(** [s.lower()] and [s.upper()] *)
Definition lower (s : string) : string := map_chars lower_char s.
Definition upper (s : string) : string := map_chars upper_char s.

(** [len(s)] *)
Definition len (s : string) : Z := Z.of_nat (String.length s).

(** [s.startswith(p)] *)
Definition startswith (p s : string) : bool := String.prefix p s.

(** [sub in s] *)
Fixpoint contains (sub s : string) : bool :=
  startswith sub s ||
  match s with
  | EmptyString => false
  | String _ s' => contains sub s'
  end.

(** [s.find(sub)], with [None] for Python's [-1] *)
Fixpoint find (sub s : string) : option nat :=
  if startswith sub s then Some 0
  else match s with
       | EmptyString => None
       | String _ s' => option_map S (find sub s')
       end.

(** [s[:n]] for an integer [n >= 0] *)
Fixpoint slice_to (n : Z) (s : string) : string :=
  match s with
  | String c s' => if (n <=? 0)%Z then EmptyString else String c (slice_to (n - 1) s')
  | EmptyString => EmptyString
  end.

(** The first [n] characters of [s], and [s] without them. *)
Fixpoint take (n : nat) (s : string) : string :=
  match n, s with
  | S n', String c s' => String c (take n' s')
  | _, _ => EmptyString
  end.

Fixpoint drop (n : nat) (s : string) : string :=
  match n, s with
  | S n', String _ s' => drop n' s'
  | _, _ => s
  end.

(** [s.lstrip(chars)], [s.rstrip(chars)], [s.strip(chars)] with the
    set of characters given as a predicate *)
Fixpoint lstrip_by (p : ascii -> bool) (s : string) : string :=
  match s with
  | String c s' => if p c then lstrip_by p s' else s
  | EmptyString => EmptyString
  end.

Fixpoint rstrip_by (p : ascii -> bool) (s : string) : string :=
  match s with
  | String c s' =>
      match rstrip_by p s' with
      | EmptyString => if p c then EmptyString else String c EmptyString
      | r => String c r
      end
  | EmptyString => EmptyString
  end.

Definition strip_by (p : ascii -> bool) (s : string) : string :=
  rstrip_by p (lstrip_by p s).

(** [s.strip()] *)
Definition strip (s : string) : string := strip_by is_space s.

Fixpoint mem_char (c : ascii) (chars : string) : bool :=
  match chars with
  | EmptyString => false
  | String d chars' => Ascii.eqb c d || mem_char c chars'
  end.

(** [s.strip(chars)] *)
Definition strip_chars (chars s : string) : string :=
  strip_by (fun c => mem_char c chars) s.

(** [s.split()]: the maximal runs of non-space characters.  [cur] holds
    the run being read, in reverse. *)
Definition rev_string (cur : list ascii) : string :=
  string_of_list_ascii (rev cur).

Fixpoint split_go (cur : list ascii) (s : string) : list string :=
  match s with
  | EmptyString =>
      match cur with [] => [] | _ => [rev_string cur] end
  | String c s' =>
      if is_space c
      then match cur with
           | [] => split_go [] s'
           | _ => rev_string cur :: split_go [] s'
           end
      else split_go (c :: cur) s'
  end.

Definition split (s : string) : list string := split_go [] s.

(** [sep.join(l)] *)
Definition join (sep : string) (l : list string) : string :=
  String.concat sep l.

(** [s.replace(old, new)] for a non-empty [old]: occurrences are taken
    from the left and do not overlap.  [skip] counts the characters of
    an occurrence that are still to be passed over. *)
Fixpoint replace_go (old new : string) (skip : nat) (s : string) : string :=
  match s with
  | EmptyString => EmptyString
  | String c s' =>
      match skip with
      | S k => replace_go old new k s'
      | O =>
          if startswith old s
          then new ++ replace_go old new (String.length old - 1) s'
          else String c (replace_go old new 0 s')
      end
  end.

Definition replace (old new s : string) : string :=
  match old with
  | EmptyString => s
  | _ => replace_go old new 0 s
  end.

(** [s.split(sep)] for a non-empty [sep] *)
Fixpoint split_on_go (sep : string) (skip : nat) (cur : list ascii)
         (s : string) : list string :=
  match s with
  | EmptyString => [rev_string cur]
  | String c s' =>
      match skip with
      | S k => split_on_go sep k cur s'
      | O =>
          if startswith sep s
          then rev_string cur :: split_on_go sep (String.length sep - 1) [] s'
          else split_on_go sep 0 (c :: cur) s'
      end
  end.

Definition split_on (sep s : string) : list string :=
  split_on_go sep 0 [] s.

(** [str(n)] for an integer [n >= 0]; a number below [10 ^ fuel] is
    written out in full. *)
Definition digit_char (n : Z) : ascii := ascii_of_nat (48 + Z.to_nat n).

Fixpoint str_of_int_go (fuel : nat) (n : Z) (acc : string) : string :=
  match fuel with
  | O => acc
  | S fuel' =>
      let acc' := String (digit_char (n mod 10)) acc in
      if (n <? 10)%Z then acc' else str_of_int_go fuel' (n / 10) acc'
  end.

Definition str_of_int (n : Z) : string :=
  str_of_int_go (S (Z.to_nat (Z.log2 n))) n "".

(** The double quote, as a one-character string. *)
Definition dq : string := String (ascii_of_nat 34) EmptyString.
(** The line feed, as a one-character string. *)
Definition nl : string := String (ascii_of_nat 10) EmptyString.

(** [s.rstrip()] *)
Definition rstrip (s : string) : string := rstrip_by is_space s.

(** [s.endswith(p)] *)
Fixpoint endswith (p s : string) : bool :=
  String.eqb p s ||
  match s with
  | EmptyString => false
  | String _ s' => endswith p s'
  end.

End Py.

(* ===================================================================== *)
(** * The part of Python's [re] that the program uses *)
(* ===================================================================== *)

Module Re.

(** Members of a bracketed set. *)
Inductive item : Type :=
| IChar (c : ascii)              (* a single character *)
| IRange (lo hi : ascii)         (* lo-hi *)
| IDigit                         (* \d *)
| IWord                          (* \w *)
| ISpace.                        (* \s *)

(** What consumes one character. *)
Inductive atom : Type :=
| Dot                            (* . *)
| Chr (c : ascii)                (* a literal character *)
| Set_ (neg : bool) (items : list item).  (* [...] or [^...] *)

(** Patterns.  Every quantifier of the program's patterns but one
    applies to an atom; the exception, an optional group, is an
    alternative with the empty pattern. *)
Inductive regex : Type :=
| Emp                            (* the empty pattern *)
| One (a : atom)
| Cat (r1 r2 : regex)
| Alt (r1 r2 : regex)            (* r1|r2, r1 tried first *)
| Rep (greedy : bool) (lo : nat) (hi : option nat) (a : atom)
| WordB                          (* \b *)
| Bol.                           (* ^ under re.MULTILINE *)

Record flags : Type := mkFlags { ignorecase : bool; dotall : bool }.

Definition no_flags : flags := mkFlags false false.
Definition IGNORECASE : flags := mkFlags true false.
Definition IGNORECASE_DOTALL : flags := mkFlags true true.

Definition item_has (i : item) (c : ascii) : bool :=
  match i with
  | IChar d => Ascii.eqb c d
  | IRange lo hi => Py.between (Py.code lo) (Py.code hi) c
  | IDigit => Py.is_digit c
  | IWord => Py.is_word c
  | ISpace => Py.is_space c
  end.

Definition set_has (neg : bool) (items : list item) (c : ascii) : bool :=
  xorb neg (existsb (fun i => item_has i c) items).

Definition atom_matches (f : flags) (a : atom) (c : ascii) : bool :=
  match a with
  | Dot => dotall f || negb (Ascii.eqb c (ascii_of_nat 10))
  | Chr d =>
      if ignorecase f
      then Ascii.eqb (Py.lower_char c) (Py.lower_char d)
      else Ascii.eqb c d
  | Set_ neg items =>
      if ignorecase f
      then set_has neg items (Py.lower_char c)
           || set_has neg items (Py.upper_char c)
      else set_has neg items c
  end.

Definition word_opt (c : option ascii) : bool :=
  match c with Some c => Py.is_word c | None => false end.

Definition head (s : string) : option ascii :=
  match s with String c _ => Some c | EmptyString => None end.

(** A continuation receives the character before the current position
    and the text from the current position on. *)
Definition cont : Type := option ascii -> string -> option nat.

(** [a{lo,hi}], greedy: take a character while allowed, and give one
    back at a time when the rest of the pattern fails. *)
Fixpoint rep_greedy (f : flags) (a : atom) (lo : nat) (hi : option nat)
         (prev : option ascii) (s : string) (k : cont) : option nat :=
  let stop := match lo with O => k prev s | S _ => None end in
  let full := match hi with Some O => true | _ => false end in
  match s with
  | String c s' =>
      if negb full && atom_matches f a c
      then match rep_greedy f a (pred lo) (option_map pred hi) (Some c) s' k with
           | Some n => Some n
           | None => stop
           end
      else stop
  | EmptyString => stop
  end.

(** [a{lo,hi}?], lazy: stop as soon as the rest of the pattern
    matches. *)
Fixpoint rep_lazy (f : flags) (a : atom) (lo : nat) (hi : option nat)
         (prev : option ascii) (s : string) (k : cont) : option nat :=
  let more :=
    let full := match hi with Some O => true | _ => false end in
    match s with
    | String c s' =>
        if negb full && atom_matches f a c
        then rep_lazy f a (pred lo) (option_map pred hi) (Some c) s' k
        else None
    | EmptyString => None
    end in
  match lo with
  | O => match k prev s with Some n => Some n | None => more end
  | S _ => more
  end.

(** Backtracking matcher: the first way, in Python's order of
    preference, in which [r] followed by [k] matches at the current
    position. *)
Fixpoint run (f : flags) (r : regex) (prev : option ascii) (s : string)
         (k : cont) : option nat :=
  match r with
  | Emp => k prev s
  | One a =>
      match s with
      | String c s' => if atom_matches f a c then k (Some c) s' else None
      | EmptyString => None
      end
  | Cat r1 r2 => run f r1 prev s (fun p t => run f r2 p t k)
  | Alt r1 r2 =>
      match run f r1 prev s k with
      | Some n => Some n
      | None => run f r2 prev s k
      end
  | Rep true lo hi a => rep_greedy f a lo hi prev s k
  | Rep false lo hi a => rep_lazy f a lo hi prev s k
  | WordB => if xorb (word_opt prev) (word_opt (head s)) then k prev s else None
  | Bol =>
      match prev with
      | None => k prev s
      | Some c => if Ascii.eqb c (ascii_of_nat 10) then k prev s else None
      end
  end.

(** The length of the match of [r] that starts at the current position,
    if there is one; with [nonempty] an empty match is refused. *)
Definition match_here (f : flags) (r : regex) (nonempty : bool)
           (prev : option ascii) (s : string) : option nat :=
  run f r prev s
      (fun _ t =>
         let n := String.length s - String.length t in
         if nonempty && (n =? 0) then None else Some n).

(** [re.search(r, s, f)]: offset and length of the leftmost match. *)
Fixpoint search_from (f : flags) (r : regex) (prev : option ascii)
         (s : string) : option (nat * nat) :=
  match match_here f r false prev s with
  | Some n => Some (0, n)
  | None =>
      match s with
      | EmptyString => None
      | String c s' =>
          option_map (fun '(i, n) => (S i, n)) (search_from f r (Some c) s')
      end
  end.

Definition search (f : flags) (r : regex) (s : string) : bool :=
  match search_from f r None s with Some _ => true | None => false end.

(** The matches that [re.sub], [re.findall] and [re.finditer] visit:
    leftmost first, not overlapping, an empty match never directly
    followed by another match at the same place.  The text is cut into
    pieces that are either a match or a character between matches. *)
Inductive piece : Type :=
| Matched (m : string)
| Kept (c : ascii).

Fixpoint pieces_go (f : flags) (r : regex) (skip : nat)
         (prev : option ascii) (s : string) : list piece :=
  match skip with
  | S k =>
      match s with
      | EmptyString => []
      | String c s' => pieces_go f r k (Some c) s'
      end
  | O =>
      match s with
      | EmptyString =>
          match match_here f r false prev s with
          | Some _ => [Matched ""]
          | None => []
          end
      | String c s' =>
          match match_here f r false prev s with
          | Some (S n) => Matched (Py.take (S n) s) :: pieces_go f r n (Some c) s'
          | Some O =>
              Matched "" ::
              match match_here f r true prev s with
              | Some (S n) => Matched (Py.take (S n) s) :: pieces_go f r n (Some c) s'
              | _ => Kept c :: pieces_go f r 0 (Some c) s'
              end
          | None => Kept c :: pieces_go f r 0 (Some c) s'
          end
      end
  end.

Definition pieces (f : flags) (r : regex) (s : string) : list piece :=
  pieces_go f r 0 None s.

Fixpoint render (repl : string -> string) (ps : list piece) : string :=
  match ps with
  | [] => ""
  | Matched m :: ps' => repl m ++ render repl ps'
  | Kept c :: ps' => String c (render repl ps')
  end.

(** [re.sub(r, repl, s, flags=f)] with a function for [repl] *)
Definition sub_with (f : flags) (r : regex) (repl : string -> string)
           (s : string) : string :=
  render repl (pieces f r s).

(** [re.sub(r, repl, s, flags=f)] with a fixed replacement *)
Definition sub (f : flags) (r : regex) (repl : string) (s : string) : string :=
  sub_with f r (fun _ => repl) s.

(** [re.findall(r, s)] for a pattern without groups *)
Fixpoint matched_texts (ps : list piece) : list string :=
  match ps with
  | [] => []
  | Matched m :: ps' => m :: matched_texts ps'
  | Kept _ :: ps' => matched_texts ps'
  end.

Definition findall (f : flags) (r : regex) (s : string) : list string :=
  matched_texts (pieces f r s).

(** ** Notation for writing patterns *)

Fixpoint lit (s : string) : regex :=
  match s with
  | EmptyString => Emp
  | String c EmptyString => One (Chr c)
  | String c s' => Cat (One (Chr c)) (lit s')
  end.

Fixpoint alts (rs : list regex) : regex :=
  match rs with
  | [] => Emp
  | [r] => r
  | r :: rs' => Alt r (alts rs')
  end.

Fixpoint cats (rs : list regex) : regex :=
  match rs with
  | [] => Emp
  | [r] => r
  | r :: rs' => Cat r (cats rs')
  end.

Definition star (a : atom) : regex := Rep true 0 None a.
Definition plus (a : atom) : regex := Rep true 1 None a.
Definition opt (a : atom) : regex := Rep true 0 (Some 1) a.
Definition times (n : nat) (a : atom) : regex := Rep true n (Some n) a.
Definition at_least (n : nat) (a : atom) : regex := Rep true n None a.
Definition lazy_star (a : atom) : regex := Rep false 0 None a.

Definition digit : atom := Set_ false [IDigit].
Definition space : atom := Set_ false [ISpace].
Definition wordc : atom := Set_ false [IWord].

Fixpoint chars (s : string) : list item :=
  match s with
  | EmptyString => []
  | String c s' => IChar c :: chars s'
  end.

Definition ch (s : string) : ascii :=
  match s with String c _ => c | EmptyString => zero end.

End Re.

(* ===================================================================== *)
(** * modules/guardrail.py *)
(* ===================================================================== *)

Module Guardrail.

Import Re.

(** [GuardrailResult] *)
Record GuardrailResult : Type := mkResult {
  passed : bool;
  sanitized_content : string;
  warnings : list string;
  blocked : bool;
  reason : option string
}.

(** A pattern is kept with the text it has in the source. *)
Record pattern : Type := mkPattern { source : string; rx : regex }.

Definition bs : string := String (ascii_of_nat 92) EmptyString.

(** Heuristic 1: [self.banned_words] *)
Definition banned_words : list string :=
  ["hack"; "exploit"; "bypass"; "crack"; "illegal";
   "malware"; "virus"; "phishing"; "scam"; "fraud"].

Definition word_group (ws : list string) : regex :=
  cats [WordB; alts (map lit ws); WordB].

(** Heuristic 2: [self.profanity_patterns] *)
Definition profanity_patterns : list pattern :=
  [ mkPattern "\b(f\*\*k|fuck|f\*\*king|fucking)\b"
      (word_group ["f**k"; "fuck"; "f**king"; "fucking"]);
    mkPattern "\b(sh\*t|shit|sh\*\*ing|shitting)\b"
      (word_group ["sh*t"; "shit"; "sh**ing"; "shitting"]);
    mkPattern "\b(a\*\*hole|asshole|a\*\*)\b"
      (word_group ["a**hole"; "asshole"; "a**"]);
    mkPattern "\b(b\*\*ch|bitch|b\*\*\*\*)\b"
      (word_group ["b**ch"; "bitch"; "b****"]);
    mkPattern "\b(damn|hell|bastard|piss|pissed)\b"
      (word_group ["damn"; "hell"; "bastard"; "piss"; "pissed"]);
    mkPattern "\b(crap|c\*\*p|d\*\*n)\b"
      (word_group ["crap"; "c**p"; "d**n"]) ].

(** Heuristic 3: [self.pii_patterns], a dict, in insertion order *)
Definition sep_space_dash : atom := Set_ false [ISpace; IChar (ch "-")].
Definition sep_dash_dot : atom := Set_ false (chars "-.").

Definition ssn_pattern : pattern :=
  mkPattern "\b\d{3}-\d{2}-\d{4}\b"
    (cats [WordB; times 3 digit; lit "-"; times 2 digit; lit "-";
           times 4 digit; WordB]).

Definition credit_card_pattern : pattern :=
  mkPattern "\b\d{4}[\s-]?\d{4}[\s-]?\d{4}[\s-]?\d{4}\b"
    (cats [WordB; times 4 digit; opt sep_space_dash; times 4 digit;
           opt sep_space_dash; times 4 digit; opt sep_space_dash;
           times 4 digit; WordB]).

Definition alnum : list item :=
  [IRange (ch "A") (ch "Z"); IRange (ch "a") (ch "z"); IRange (ch "0") (ch "9")].

Definition email_pattern : pattern :=
  mkPattern "\b[A-Za-z0-9._%+-]+@[A-Za-z0-9.-]+\.[A-Z|a-z]{2,}\b"
    (cats [WordB; plus (Set_ false (alnum ++ chars "._%+-")); lit "@";
           plus (Set_ false (alnum ++ chars ".-")); lit ".";
           at_least 2 (Set_ false [IRange (ch "A") (ch "Z"); IChar (ch "|");
                                   IRange (ch "a") (ch "z")]);
           WordB]).

Definition phone_pattern : pattern :=
  mkPattern "\b\d{3}[-.]?\d{3}[-.]?\d{4}\b"
    (cats [WordB; times 3 digit; opt sep_dash_dot; times 3 digit;
           opt sep_dash_dot; times 4 digit; WordB]).

Definition pii_patterns : list (string * pattern) :=
  [ ("ssn", ssn_pattern); ("credit_card", credit_card_pattern);
    ("email", email_pattern); ("phone", phone_pattern) ].

(** Heuristic 4: [self.sql_injection_patterns] *)
Definition bword (w : string) : regex := cats [WordB; lit w; WordB].

Definition sql_keywords : regex :=
  alts (map lit ["OR"; "AND"; "UNION"; "SELECT"; "INSERT"; "DELETE"; "DROP";
                 "EXEC"; "EXECUTE"]).

Definition sql_injection_patterns : list pattern :=
  [ mkPattern "(\bOR\b|\bAND\b).*=.*"
      (cats [Alt (bword "OR") (bword "AND"); star Dot; lit "="; star Dot]);
    mkPattern "(\bUNION\b|\bSELECT\b|\bINSERT\b|\bDELETE\b|\bDROP\b)"
      (alts (map bword ["UNION"; "SELECT"; "INSERT"; "DELETE"; "DROP"]));
    mkPattern "\'\s*(OR|AND|UNION|SELECT|INSERT|DELETE|DROP|EXEC|EXECUTE)"
      (cats [lit "'"; star space; sql_keywords]);
    mkPattern "(OR|AND|UNION|SELECT|INSERT|DELETE|DROP|EXEC|EXECUTE)\s*\'"
      (cats [sql_keywords; star space; lit "'"]);
    mkPattern "\'\s*=\s*\'"
      (cats [lit "'"; star space; lit "="; star space; lit "'"]);
    mkPattern "\'\s*OR\s*\'"
      (cats [lit "'"; star space; lit "OR"; star space; lit "'"]);
    mkPattern "\'\s*AND\s*\'"
      (cats [lit "'"; star space; lit "AND"; star space; lit "'"]);
    mkPattern ";\s*(--|\/\*)"
      (cats [lit ";"; star space; Alt (lit "--") (lit "/*")]);
    mkPattern "[=]\s*--"
      (cats [One (Set_ false (chars "=")); star space; lit "--"]);
    mkPattern "\/\*.*\*\/"
      (cats [lit "/*"; star Dot; lit "*/"]);
    mkPattern "(\bEXEC\b|\bEXECUTE\b)"
      (Alt (bword "EXEC") (bword "EXECUTE")) ].

(** Heuristic 5: [self.command_injection_patterns] *)
Definition shell_commands : list string :=
  ["cat"; "ls"; "rm"; "mv"; "cp"; "chmod"; "sudo"].

Definition cmd_meta : pattern :=
  mkPattern "[;&|`]\s*\w+"
    (cats [One (Set_ false (chars ";&|`")); star space; plus wordc]).

Definition cmd_shell : pattern :=
  mkPattern "\b(cat|ls|rm|mv|cp|chmod|sudo)\s+"
    (cats [WordB; alts (map lit shell_commands); plus space]).

Definition cmd_chain : pattern :=
  mkPattern "(\|\||&&)" (Alt (lit "||") (lit "&&")).

Definition cmd_backtick : pattern :=
  mkPattern "`[^`]+`"
    (cats [lit "`"; plus (Set_ true (chars "`")); lit "`"]).

Definition cmd_subst : pattern :=
  mkPattern "\$\([^)]+\)"
    (cats [lit "$("; plus (Set_ true (chars ")")); lit ")"]).

Definition cmd_semicolon : pattern :=
  mkPattern ";\s*(cat|ls|rm|mv|cp|chmod|sudo|wget|curl)"
    (cats [lit ";"; star space;
           alts (map lit (shell_commands ++ ["wget"; "curl"]))]).

Definition command_injection_patterns : list pattern :=
  [cmd_meta; cmd_shell; cmd_chain; cmd_backtick; cmd_subst; cmd_semicolon].

(** Heuristic 6: [self.url_pattern], compiled with [re.IGNORECASE] *)
Definition url_pattern : pattern :=
  mkPattern ("https?://[^\s<>" ++ Py.dq ++ "{}|\\^`\[\]]+")
    (cats [lit "http"; opt (Chr (ch "s")); lit "://";
           plus (Set_ true (ISpace :: chars ("<>" ++ Py.dq ++ "{}|" ++ bs ++ "^`[]")))]).

(** Heuristic 7: [self.sensitive_paths] *)
Definition sensitive_paths : list pattern :=
  [ mkPattern "/etc/passwd" (lit "/etc/passwd");
    mkPattern "/etc/shadow" (lit "/etc/shadow");
    mkPattern "C:\\Windows\\System32"
      (lit ("C:" ++ bs ++ "Windows" ++ bs ++ "System32"));
    mkPattern "\.\.\/\.\.\/" (lit "../../") ].

(** Heuristic 8 *)
Definition max_query_length : Z := 10000.
Definition max_result_length : Z := 50000.

(** Heuristic 9: [self.encoding_patterns] *)
Definition hex : atom :=
  Set_ false [IRange (ch "0") (ch "9"); IRange (ch "A") (ch "F");
              IRange (ch "a") (ch "f")].

Definition encoding_patterns : list pattern :=
  [ mkPattern "%[0-9A-Fa-f]{2}" (cats [lit "%"; times 2 hex]);
    mkPattern "\\x[0-9A-Fa-f]{2}" (cats [lit (bs ++ "x"); times 2 hex]);
    mkPattern "\\u[0-9A-Fa-f]{4}" (cats [lit (bs ++ "u"); times 4 hex]) ].

(** Heuristic 10: [self.script_patterns] *)
Definition script_patterns : list pattern :=
  [ mkPattern "<script[^>]*>.*?</script>"
      (cats [lit "<script"; star (Set_ true (chars ">")); lit ">";
             lazy_star Dot; lit "</script>"]);
    mkPattern "javascript:" (lit "javascript:");
    mkPattern "onerror\s*=" (cats [lit "onerror"; star space; lit "="]);
    mkPattern "onclick\s*=" (cats [lit "onclick"; star space; lit "="]) ].

(** ** Helper methods *)

Definition punctuation : string := ".,!?;:()[]{}" ++ Py.dq ++ "'".

Definition is_banned (word : string) : bool :=
  let word_lower := Py.strip_chars punctuation (Py.lower word) in
  existsb (String.eqb word_lower) banned_words.

(** Heuristic 1: [_remove_banned_words] *)
Definition _remove_banned_words (text : string) : string * bool :=
  let words := Py.split text in
  let found := existsb is_banned words in
  let sanitized_words :=
    map (fun word => if is_banned word then "[REDACTED]" else word) words in
  (Py.join " " sanitized_words, found).

(** [for pattern in patterns: if re.search(pattern, text, flags): return True]
    and [return False] after the loop *)
Definition any_search (f : flags) (patterns : list pattern) (text : string) : bool :=
  existsb (fun p => search f (rx p) text) patterns.

(** [for pattern in patterns: text = re.sub(pattern, repl, text, flags=...)] *)
Definition sub_all (f : flags) (patterns : list pattern) (repl : string)
           (text : string) : string :=
  fold_left (fun t p => sub f (rx p) repl t) patterns text.

(** Heuristic 2: [_contains_profanity], [_sanitize_profanity] *)
Definition _contains_profanity (text : string) : bool :=
  any_search IGNORECASE profanity_patterns text.

Definition _sanitize_profanity (text : string) : string :=
  sub_all IGNORECASE profanity_patterns "[REDACTED]" text.

(** Heuristic 3: [_detect_pii] *)
Definition _detect_pii (text : string) : list string :=
  map (fun '(pii_type, _) => Py.upper pii_type)
      (filter (fun '(_, p) => search no_flags (rx p) text) pii_patterns).

(** [lambda m: f'[EMAIL: {m.group().split("@")[1]}]']; a match of the
    email pattern holds exactly one [@], so the index is in range. *)
Definition email_replacement (m : string) : string :=
  "[EMAIL: " ++ nth 1 (Py.split_on "@" m) "" ++ "]".

(** [_sanitize_pii] *)
Definition _sanitize_pii (text : string) : string :=
  let text := sub no_flags (rx ssn_pattern) "[SSN REDACTED]" text in
  let text := sub no_flags (rx credit_card_pattern) "[CARD REDACTED]" text in
  let text := sub_with no_flags (rx email_pattern) email_replacement text in
  let text := sub no_flags (rx phone_pattern) "[PHONE REDACTED]" text in
  text.

(** Heuristic 4: [_contains_sql_injection], [_sanitize_sql_injection] *)
Definition _contains_sql_injection (text : string) : bool :=
  any_search IGNORECASE sql_injection_patterns text.

Definition _sanitize_sql_injection (text : string) : string :=
  sub_all IGNORECASE sql_injection_patterns "[SQL PATTERN REMOVED]" text.

(** Heuristic 5: [_contains_command_injection].  The loop over the
    patterns returns at the first pattern that is found in the text,
    unless the text holds a URL and the pattern is the first of the list,
    which is then passed over. *)
Definition pattern_eqb (p q : pattern) : bool := String.eqb (source p) (source q).

Fixpoint command_loop (has_urls : bool) (patterns : list pattern)
         (text : string) : bool :=
  match patterns with
  | [] => false
  | p :: rest =>
      if search IGNORECASE (rx p) text
      then if has_urls
           then if existsb (pattern_eqb p)
                     [cmd_shell; cmd_chain; cmd_backtick; cmd_subst; cmd_semicolon]
                then true
                else if pattern_eqb p cmd_meta
                     then command_loop has_urls rest text
                     else true
           else true
      else command_loop has_urls rest text
  end.

Definition _contains_command_injection (text : string) : bool :=
  let has_urls := search IGNORECASE (rx url_pattern) text in
  command_loop has_urls command_injection_patterns text.

(** [_sanitize_command_injection]: [re.sub] is called without flags
    here. *)
Definition _sanitize_command_injection (text : string) : string :=
  sub_all no_flags command_injection_patterns "[COMMAND PATTERN REMOVED]" text.

(** Heuristic 6: [_extract_urls], [_is_safe_url] *)
Definition _extract_urls (text : string) : list string :=
  findall IGNORECASE (rx url_pattern) text.

Definition unsafe_domains : list string := ["malware.com"; "phishing.com"].

Definition _is_safe_url (url : string) : bool :=
  let url_lower := Py.lower url in
  negb (existsb (fun domain => Py.contains domain url_lower) unsafe_domains).

(** Heuristic 7: [_contains_sensitive_paths], [_sanitize_paths] *)
Definition _contains_sensitive_paths (text : string) : bool :=
  any_search IGNORECASE sensitive_paths text.

Definition _sanitize_paths (text : string) : string :=
  sub_all IGNORECASE sensitive_paths "[PATH REDACTED]" text.

(** Heuristic 9: [_contains_suspicious_encoding],
    [_decode_suspicious_encoding] *)
Definition _contains_suspicious_encoding (text : string) : bool :=
  existsb (fun p => 5 <? List.length (findall no_flags (rx p) text))
          encoding_patterns.

Definition _decode_suspicious_encoding (text : string) : string := text.

(** Heuristic 10: [_contains_script_injection], [_sanitize_scripts] *)
Definition _contains_script_injection (text : string) : bool :=
  any_search IGNORECASE_DOTALL script_patterns text.

Definition _sanitize_scripts (text : string) : string :=
  sub_all IGNORECASE_DOTALL script_patterns "[SCRIPT REMOVED]" text.

(** ** The two checks

    The local variables of a check are kept in a record, and every
    heuristic is a step from one such record to the next, in the order
    of the source. *)
Record locals : Type := mkLocals {
  l_warnings : list string;
  l_sanitized : string;
  l_blocked : bool;
  l_reason : option string
}.

Definition start (text : string) : locals := mkLocals [] text false None.

Definition warn (w : string) (l : locals) : locals :=
  mkLocals (l_warnings l ++ [w]) (l_sanitized l) (l_blocked l) (l_reason l).

Definition rewrite (s : string) (l : locals) : locals :=
  mkLocals (l_warnings l) s (l_blocked l) (l_reason l).

Definition block (r : string) (l : locals) : locals :=
  mkLocals (l_warnings l) (l_sanitized l) true (Some r).

Definition finish (l : locals) : GuardrailResult :=
  mkResult (negb (l_blocked l)) (l_sanitized l) (l_warnings l)
           (l_blocked l) (l_reason l).

(** *** [check_query] *)

Definition q_banned (l : locals) : locals :=
  let '(sanitized, banned_found) := _remove_banned_words (l_sanitized l) in
  let l := rewrite sanitized l in
  if banned_found then warn "Banned words detected and removed from query" l else l.

Definition q_profanity (l : locals) : locals :=
  if _contains_profanity (l_sanitized l)
  then let l := warn "Profanity detected in query" l in
       rewrite (_sanitize_profanity (l_sanitized l)) l
  else l.

Definition q_pii (l : locals) : locals :=
  let pii_found := _detect_pii (l_sanitized l) in
  match pii_found with
  | [] => l
  | _ => let l := warn ("Potential PII detected in query: " ++ Py.join ", " pii_found) l in
         rewrite (_sanitize_pii (l_sanitized l)) l
  end.

Definition q_sql (l : locals) : locals :=
  if _contains_sql_injection (l_sanitized l)
  then let l := block "SQL injection pattern detected in query" l in
       rewrite (_sanitize_sql_injection (l_sanitized l)) l
  else l.

Definition q_command (l : locals) : locals :=
  if _contains_command_injection (l_sanitized l)
  then let l := block "Command injection pattern detected in query" l in
       rewrite (_sanitize_command_injection (l_sanitized l)) l
  else l.

Definition q_urls (l : locals) : locals :=
  let urls := _extract_urls (l_sanitized l) in
  fold_left
    (fun l url =>
       if negb (_is_safe_url url)
       then warn ("Potentially unsafe URL detected: " ++ Py.slice_to 50 url ++ "...") l
       else l)
    urls l.

Definition q_paths (l : locals) : locals :=
  if _contains_sensitive_paths (l_sanitized l)
  then let l := block "Sensitive file path detected in query" l in
       rewrite (_sanitize_paths (l_sanitized l)) l
  else l.

Definition q_length (query : string) (l : locals) : locals :=
  if (max_query_length <? Py.len query)%Z
  then let l := warn ("Query exceeds maximum length ("
                      ++ Py.str_of_int max_query_length ++ " chars)") l in
       rewrite (Py.slice_to max_query_length (l_sanitized l) ++ "... [truncated]") l
  else l.

Definition q_encoding (l : locals) : locals :=
  if _contains_suspicious_encoding (l_sanitized l)
  then let l := warn "Suspicious encoding patterns detected" l in
       rewrite (_decode_suspicious_encoding (l_sanitized l)) l
  else l.

Definition q_script (l : locals) : locals :=
  if _contains_script_injection (l_sanitized l)
  then let l := block "Script injection pattern detected in query" l in
       rewrite (_sanitize_scripts (l_sanitized l)) l
  else l.

Definition check_query (query : string) : GuardrailResult :=
  let l := start query in
  let l := q_banned l in
  let l := q_profanity l in
  let l := q_pii l in
  let l := q_sql l in
  let l := q_command l in
  let l := q_urls l in
  let l := q_paths l in
  let l := q_length query l in
  let l := q_encoding l in
  let l := q_script l in
  finish l.

(** *** [check_result] *)

Definition r_banned (l : locals) : locals :=
  let '(sanitized, banned_found) := _remove_banned_words (l_sanitized l) in
  let l := rewrite sanitized l in
  if banned_found then warn "Banned words detected and removed from result" l else l.

Definition r_profanity (l : locals) : locals :=
  if _contains_profanity (l_sanitized l)
  then let l := warn "Profanity detected in result" l in
       rewrite (_sanitize_profanity (l_sanitized l)) l
  else l.

Definition r_pii (l : locals) : locals :=
  let pii_found := _detect_pii (l_sanitized l) in
  match pii_found with
  | [] => l
  | _ => let l := warn ("PII detected in result: " ++ Py.join ", " pii_found) l in
         rewrite (_sanitize_pii (l_sanitized l)) l
  end.

Definition r_sql (l : locals) : locals :=
  if _contains_sql_injection (l_sanitized l)
  then warn "SQL injection pattern detected in result (may be false positive)" l
  else l.

Definition r_command (l : locals) : locals :=
  if _contains_command_injection (l_sanitized l)
  then warn "Command injection pattern detected in result (may be false positive in document content)" l
  else l.

Definition r_urls (l : locals) : locals :=
  let urls := _extract_urls (l_sanitized l) in
  fold_left
    (fun l url =>
       if negb (_is_safe_url url)
       then let l := warn ("Potentially unsafe URL in result: "
                           ++ Py.slice_to 50 url ++ "...") l in
            rewrite (Py.replace url "[URL REMOVED]" (l_sanitized l)) l
       else l)
    urls l.

Definition r_paths (l : locals) : locals :=
  if _contains_sensitive_paths (l_sanitized l)
  then let l := warn "Sensitive file path detected in result" l in
       rewrite (_sanitize_paths (l_sanitized l)) l
  else l.

Definition r_length (result : string) (l : locals) : locals :=
  if (max_result_length <? Py.len result)%Z
  then let l := warn ("Result exceeds maximum length ("
                      ++ Py.str_of_int max_result_length ++ " chars)") l in
       rewrite (Py.slice_to max_result_length (l_sanitized l) ++ "... [truncated]") l
  else l.

Definition r_encoding (l : locals) : locals :=
  if _contains_suspicious_encoding (l_sanitized l)
  then let l := warn "Suspicious encoding patterns detected in result" l in
       rewrite (_decode_suspicious_encoding (l_sanitized l)) l
  else l.

Definition r_script (l : locals) : locals :=
  if _contains_script_injection (l_sanitized l)
  then warn "Script injection pattern detected in result (may be false positive in document content)" l
  else l.

Definition check_result (result : string) : GuardrailResult :=
  let l := start result in
  let l := r_banned l in
  let l := r_profanity l in
  let l := r_pii l in
  let l := r_sql l in
  let l := r_command l in
  let l := r_urls l in
  let l := r_paths l in
  let l := r_length result l in
  let l := r_encoding l in
  let l := r_script l in
  finish l.

End Guardrail.

(* ===================================================================== *)
(** * modules/conversation_indexer.py *)
(* ===================================================================== *)

Module ConversationIndexer.

(** An embedding.  Its components are rationals: the rounding of
    [float32] is not modelled, and nothing below depends on it. *)
Definition vector : Type := list Q.

(** What the call to the embedding service can come to:
    [requests.post] raises, [raise_for_status] raises, the body holds no
    usable ["embedding"], or the body holds one. *)
Inductive embed_response : Type :=
| PostRaises
| HttpError
| NoEmbedding
| Embedding (v : vector).

(** [np.zeros(n, dtype=np.float32)] *)
Definition zeros (n : nat) : vector := repeat 0%Q n.

(** [get_embedding] *)
Definition get_embedding (service : string -> embed_response) (text : string) : vector :=
  match service text with
  | Embedding v => v
  | PostRaises | HttpError | NoEmbedding => zeros 768
  end.

(** ** The vector index

    [faiss.IndexFlatL2] is not code of the program; it is modelled by
    the list of the vectors it stores.  [add] and [search] raise when
    the dimension of their argument is not the index's, and [search]
    raises when [k] is not positive. *)
Record Index : Type := mkIndex { d : nat; xb : list vector }.

Definition IndexFlatL2 (dim : nat) : Index := mkIndex dim [].

Definition ntotal (i : Index) : Z := Z.of_nat (List.length (xb i)).

Definition index_add (i : Index) (x : vector) : option Index :=
  if List.length x =? d i then Some (mkIndex (d i) (xb i ++ [x])) else None.

Fixpoint l2 (x y : vector) : Q :=
  match x, y with
  | a :: x', b :: y' => ((a - b) * (a - b) + l2 x' y')%Q
  | _, _ => 0%Q
  end.

Fixpoint insert_by_distance (p : Z * Q) (l : list (Z * Q)) : list (Z * Q) :=
  match l with
  | [] => [p]
  | q :: l' =>
      if Qle_bool (snd p) (snd q) then p :: q :: l' else q :: insert_by_distance p l'
  end.

Fixpoint number_from (n : Z) (l : list vector) (x : vector) : list (Z * Q) :=
  match l with
  | [] => []
  | v :: l' => (n, l2 x v) :: number_from (n + 1) l' x
  end.

(** The [k] stored vectors nearest to [x], nearest first, each with its
    position and its distance; a position of [-1] fills the list when
    the index stores fewer than [k] vectors. *)
Definition nearest (i : Index) (x : vector) (k : nat) : list (Z * Q) :=
  let ranked := fold_right insert_by_distance [] (number_from 0 (xb i) x) in
  firstn k (ranked ++ repeat ((-1)%Z, 0%Q) k).

Definition index_search (i : Index) (x : vector) (k : Z) : option (list (Z * Q)) :=
  if (List.length x =? d i) && (0 <? k)%Z
  then Some (nearest i x (Z.to_nat k))
  else None.

(** ** Stored conversations *)
Record tool_call : Type := mkToolCall {
  tool_name : string;
  tool_args : string;
  success : bool
}.

Record metadata_entry : Type := mkEntry {
  session_id : string;
  user_query : string;
  final_answer : string;
  tool_calls : list tool_call;
  timestamp : Q;
  index_position : nat
}.

Record search_result : Type := mkSearchResult {
  conversation : metadata_entry;
  similarity_distance : Q
}.

(** The object: [self.index] and [self.metadata]. *)
Record ConversationIndexer : Type := mkIndexer {
  index : option Index;
  metadata : list metadata_entry
}.

(** ** The two files

    A file is absent, holds what was last written to it, or holds
    something that cannot be read back. *)
Inductive file (A : Type) : Type :=
| Absent
| Stored (a : A)
| Damaged.
Arguments Absent {A}.
Arguments Stored {A} a.
Arguments Damaged {A}.

Record disk : Type := mkDisk {
  INDEX_FILE : file Index;
  METADATA_FILE : file (list metadata_entry)
}.

(** A write succeeds, or raises and leaves the file either as it was or
    damaged.  A read of a stored file succeeds or raises. *)
Inductive write_outcome : Type :=
| Written
| WriteRaises (damages : bool).

Record save_io : Type := mkSaveIo {
  index_write : write_outcome;
  metadata_write : write_outcome
}.

Record load_io : Type := mkLoadIo {
  index_read_ok : bool;
  metadata_read_ok : bool
}.

(** Reading a file that exists: [None] stands for an exception. *)
Definition read {A : Type} (ok : bool) (f : file A) : option (option A) :=
  match f with
  | Absent => Some None
  | Stored a => if ok then Some (Some a) else None
  | Damaged => None
  end.

(** [load_index]: an exception anywhere in the [try] block leaves the
    object empty. *)
Definition load_index (io : load_io) (dk : disk) : ConversationIndexer :=
  match read (index_read_ok io) (INDEX_FILE dk) with
  | None => mkIndexer None []
  | Some loaded_index =>
      match read (metadata_read_ok io) (METADATA_FILE dk) with
      | None => mkIndexer None []
      | Some None => mkIndexer loaded_index []
      | Some (Some loaded_metadata) => mkIndexer loaded_index loaded_metadata
      end
  end.

(** [__init__] *)
Definition init (io : load_io) (dk : disk) : ConversationIndexer := load_index io dk.

Definition write {A : Type} (w : write_outcome) (a : A) (old : file A) : file A :=
  match w with
  | Written => Stored a
  | WriteRaises true => Damaged
  | WriteRaises false => old
  end.

Definition raised (w : write_outcome) : bool :=
  match w with Written => false | WriteRaises _ => true end.

(** [save_index]: the index file is written first, when there is an
    index; an exception there skips the metadata file. *)
Definition save_index (io : save_io) (self : ConversationIndexer) (dk : disk) : disk :=
  match index self with
  | Some i =>
      let index_file := write (index_write io) i (INDEX_FILE dk) in
      if raised (index_write io)
      then mkDisk index_file (METADATA_FILE dk)
      else mkDisk index_file (write (metadata_write io) (metadata self) (METADATA_FILE dk))
  | None =>
      mkDisk (INDEX_FILE dk) (write (metadata_write io) (metadata self) (METADATA_FILE dk))
  end.

(** The text that is embedded. *)
Definition searchable_text (user_query final_answer : string)
           (tool_calls : option (list tool_call)) : string :=
  let text := user_query ++ Py.nl ++ final_answer in
  match tool_calls with
  | Some (tc :: tcs) =>
      text ++ Py.nl ++ "Tools used: " ++ Py.join ", " (map tool_name (tc :: tcs))
  | Some [] | None => text
  end.

(** [index_conversation].  [now] is the clock read when no timestamp is
    given.  Inside the [try] block the index is created first when there
    is none, and stays created if a later statement raises:
    [embedding.reshape(1, -1)] raises on an empty embedding and
    [index.add] on one of the wrong dimension. *)
Definition index_conversation
           (service : string -> embed_response) (now : Q) (io : save_io)
           (session_id user_query final_answer : string)
           (tool_calls : option (list tool_call)) (timestamp : option Q)
           (self : ConversationIndexer) (dk : disk) : ConversationIndexer * disk :=
  let timestamp := match timestamp with Some t => t | None => now end in
  let embedding :=
    get_embedding service (searchable_text user_query final_answer tool_calls) in
  let the_index :=
    match index self with
    | Some i => i
    | None => IndexFlatL2 (List.length embedding)
    end in
  match embedding with
  | [] => (mkIndexer (Some the_index) (metadata self), dk)
  | _ =>
      match index_add the_index embedding with
      | None => (mkIndexer (Some the_index) (metadata self), dk)
      | Some added =>
          let metadata_entry :=
            mkEntry session_id user_query final_answer
                    (match tool_calls with Some tcs => tcs | None => [] end)
                    timestamp (List.length (metadata self)) in
          let self' := mkIndexer (Some added) (metadata self ++ [metadata_entry]) in
          (self', save_index io self' dk)
      end
  end.

(** [metadata[idx]] for an integer index: a negative index counts from
    the end, an index out of range raises. *)
Definition getitem {A : Type} (l : list A) (idx : Z) : option A :=
  if (0 <=? idx)%Z then nth_error l (Z.to_nat idx)
  else if (- Z.of_nat (List.length l) <=? idx)%Z
       then nth_error l (Z.to_nat (Z.of_nat (List.length l) + idx))
       else None.

(** The loop over [indices[0]]; [None] stands for an exception. *)
Fixpoint collect (metadata : list metadata_entry) (found : list (Z * Q))
  : option (list search_result) :=
  match found with
  | [] => Some []
  | (idx, distance) :: found' =>
      if (idx <? Z.of_nat (List.length metadata))%Z
      then match getitem metadata idx with
           | None => None
           | Some m =>
               option_map (cons (mkSearchResult m distance)) (collect metadata found')
           end
      else collect metadata found'
  end.

(** The [try] block of [search]; [None] stands for an exception. *)
Definition search_try (service : string -> embed_response)
           (self : ConversationIndexer) (i : Index) (query : string) (top_k : Z)
  : option (list search_result) :=
  match get_embedding service query with
  | [] => None
  | query_embedding =>
      match index_search i query_embedding (Z.min top_k (ntotal i)) with
      | None => None
      | Some found => collect (metadata self) found
      end
  end.

(** [search] *)
Definition search (service : string -> embed_response)
           (self : ConversationIndexer) (query : string) (top_k : Z)
  : list search_result :=
  match index self with
  | None => []
  | Some i =>
      if (ntotal i =? 0)%Z then []
      else match search_try service self i query top_k with
           | Some results => results
           | None => []
           end
  end.

(** [get_conversation_count] *)
Definition get_conversation_count (self : ConversationIndexer) : Z :=
  match index self with
  | None => 0%Z
  | Some i => ntotal i
  end.


(** ** The global instance

    [_conversation_indexer] is [None] until the first call of
    [get_indexer], which builds the object from the files; afterwards
    the same object is used and the files are not read again. *)
Definition get_indexer (io : load_io) (dk : disk) (global : option ConversationIndexer)
  : ConversationIndexer :=
  match global with
  | Some indexer => indexer
  | None => init io dk
  end.

(** The two convenience functions of the module.  Each one gives back
    the global instance as it leaves it. *)
Module Convenience.

Definition index_conversation
           (service : string -> embed_response) (now : Q) (lio : load_io) (sio : save_io)
           (session_id user_query final_answer : string)
           (tool_calls : option (list tool_call)) (timestamp : option Q)
           (global : option ConversationIndexer) (dk : disk)
  : option ConversationIndexer * disk :=
  let indexer := get_indexer lio dk global in
  let '(indexer, dk) :=
    ConversationIndexer.index_conversation service now sio session_id user_query
      final_answer tool_calls timestamp indexer dk in
  (Some indexer, dk).

Definition search_conversations
           (service : string -> embed_response) (lio : load_io) (dk : disk)
           (global : option ConversationIndexer) (query : string) (top_k : Z)
  : list search_result * option ConversationIndexer :=
  let indexer := get_indexer lio dk global in
  (search service indexer query top_k, Some indexer).

End Convenience.

End ConversationIndexer.

(* ===================================================================== *)
(** * Replies of the tool dispatcher and of the language model *)
(* ===================================================================== *)

Module Backend.

(** One element of the ["result"] list that the tool
    [search_historical_conversations] sends back; a key may be missing. *)
Record conversation : Type := mkConversation {
  user_query : option string;
  final_answer : option string
}.

(** [conv.get(key, "")] *)
Definition get (field : option string) : string :=
  match field with Some s => s | None => "" end.

(** What [await dispatcher.call_tool(...)] followed by
    [json.loads(result.content[0].text).get("result", [])] comes to: the
    call raises, the reply is empty or has no [content], the text cannot
    be parsed, or the list is obtained. *)
Inductive tool_reply : Type :=
| CallRaises
| NoContent
| Unparsable
| Parsed (historical_data : list conversation).

(** A Python value used as a condition: [None] and the empty string are
    false. *)
Definition truthy (o : option string) : bool :=
  match o with
  | Some EmptyString | None => false
  | Some _ => true
  end.

(** [a if a else b], and [a or b], for an optional text [a] *)
Definition or_else (a : option string) (b : string) : string :=
  match a with
  | Some EmptyString | None => b
  | Some s => s
  end.

(** Text between double quotes. *)
Definition quoted (s : string) : string := Py.dq ++ s ++ Py.dq.

(** The lines of a text, joined by line feeds. *)
Definition lines (l : list string) : string := Py.join Py.nl l.

(** [if not answer.startswith("FINAL_ANSWER:"): answer = "FINAL_ANSWER: " + answer] *)
Definition ensure_final (answer : string) : string :=
  if Py.startswith "FINAL_ANSWER:" answer then answer
  else "FINAL_ANSWER: " ++ answer.

(** A call that can raise: the message of the exception, or the value. *)
Inductive attempt (A : Type) : Type :=
| Raises (message : string)
| Gives (a : A).
Arguments Raises {A} message.
Arguments Gives {A} a.

End Backend.

(* ===================================================================== *)
(** * modules/historical_check.py *)
(* ===================================================================== *)

Module HistoricalCheck.

Import Backend.

(** The dictionaries that the check returns. *)
Inductive value : Type :=
| VBool (b : bool)
| VStr (s : string).

Definition dict : Type := list (string * value).

(** [d.get(key, False)] for a key that holds a boolean *)
Fixpoint get_bool (key : string) (d : dict) : bool :=
  match d with
  | [] => false
  | (k, v) :: d' =>
      if String.eqb k key
      then match v with VBool b => b | VStr _ => false end
      else get_bool key d'
  end.

Definition error_markers : list string :=
  ["[max steps reached]"; "[result blocked"; "[error"].

(** [any(err in final_answer.lower() for err in [...])] *)
Definition is_error_answer (final_answer : string) : bool :=
  existsb (fun err => Py.contains err (Py.lower final_answer)) error_markers.

Definition format_item (conv : conversation) : string :=
  "Previous Q: " ++ get (user_query conv) ++ Py.nl ++
  "Previous A: " ++ get (final_answer conv).

(** Step 2: the loop over [historical_data[:5]] *)
Definition context_items (historical_data : list conversation) : list string :=
  map format_item
      (filter (fun conv => negb (is_error_answer (get (final_answer conv))))
              (firstn 5 historical_data)).

(** Step 3: [decision_prompt] *)
Definition decision_prompt (user_input historical_context : string) : string :=
  lines [
    "You are analyzing whether a user's question can be answered directly from previous conversation history, without needing any tools.";
    "";
    "User's current question: " ++ quoted user_input;
    "";
    "Previous conversations:";
    historical_context;
    "";
    "Your task:";
    "1. Determine if the user's question can be answered COMPLETELY and ACCURATELY from the previous conversations above.";
    "2. The answer must be:";
    "   - Directly available in the previous conversations";
    "   - Complete (not partial)";
    "   - Accurate (not requiring additional information)";
    "   - Relevant to the current question";
    "";
    "3. For comparison queries (e.g., " ++ quoted "compare X and Y" ++ "), if information about both X and Y exists in the historical context, you can synthesize a comparison even if not explicitly stated.";
    "";
    "Respond with ONE of these options:";
    "";
    "1. If answer is COMPLETE and available:";
    "   FINAL_ANSWER: [your complete answer based on the previous conversations]";
    "";
    "2. If previous conversations have RELEVANT CONTEXT but answer is incomplete/needs tools:";
    "   HAS_CONTEXT: [brief summary of relevant context from previous conversations]";
    "";
    "3. If previous conversations are NOT RELEVANT or completely unrelated:";
    "   NO_CONTEXT";
    "";
    "Examples:";
    "- User asks " ++ quoted "what is my name?" ++ " and previous says " ++ quoted "my name is John" ++ " → FINAL_ANSWER: Based on our previous conversation, your name is John.";
    "- User asks " ++ quoted "compare Dhoni and Sachin" ++ " and previous has info about both → FINAL_ANSWER: [synthesize comparison from available info]";
    "- User asks " ++ quoted "how much did Anmol pay?" ++ " and previous mentions " ++ quoted "Anmol" ++ " and " ++ quoted "DLF" ++ " but no payment amount → HAS_CONTEXT: Previous conversations mention Anmol Singh and DLF apartment, but payment amount not found.";
    "- User asks " ++ quoted "what is the weather?" ++ " and previous conversations don't mention weather → NO_CONTEXT";
    "";
    "Now analyze the question and respond:" ].

Definition negative_indicators : list string :=
  [ "do not provide"; "does not provide"; "does not contain"; "not provide";
    "not contain"; "no information"; "no relevant"; "completely unrelated";
    "unrelated"; "not relevant" ].

(** The three dictionaries without an answer or a context. *)
Definition cannot_answer : dict := [("can_answer", VBool false)].
Definition no_context : dict :=
  [("can_answer", VBool false); ("has_context", VBool false)].

(** Step 4: what is made of the model's response *)
Definition classify (historical_context llm_response : string) : dict :=
  if Py.startswith "FINAL_ANSWER:" llm_response
  then [("can_answer", VBool true); ("answer", VStr llm_response)]
  else if Py.startswith "HAS_CONTEXT:" llm_response
  then
    let context_summary := Py.strip (Py.replace "HAS_CONTEXT:" "" llm_response) in
    let context_lower := Py.lower context_summary in
    if existsb (fun indicator => Py.contains indicator context_lower)
               negative_indicators
    then no_context
    else [("can_answer", VBool false); ("has_context", VBool true);
          ("context", VStr historical_context);
          ("context_summary", VStr context_summary)]
  else no_context.

(** [check_historical_conversations].  The dispatcher answers the one
    tool call, and [generate_text] answers a prompt with a text or raises
    ([None]).  The value is the returned dictionary together with the
    prompts that were sent to the model, in order. *)
Definition check_historical_conversations
           (call_tool : string -> string -> tool_reply)
           (generate_text : string -> option string)
           (user_input : string) : dict * list string :=
  match call_tool "search_historical_conversations" user_input with
  | CallRaises => (no_context, [])
  | NoContent => (cannot_answer, [])
  | Unparsable => (cannot_answer, [])
  | Parsed [] => (cannot_answer, [])
  | Parsed historical_data =>
      match context_items historical_data with
      | [] => (cannot_answer, [])
      | items =>
          let historical_context := Py.join (Py.nl ++ Py.nl) items in
          let decision_prompt := decision_prompt user_input historical_context in
          match generate_text decision_prompt with
          | None => (no_context, [decision_prompt])
          | Some llm_response =>
              (classify historical_context (Py.strip llm_response), [decision_prompt])
          end
      end
  end.

(** ** [_wrap_text] *)

(** One pass through the body of the loop of [_wrap_text], on the finished
    lines and the line being filled. *)
Definition wrap_step (max_width : Z) (st : list string * string) (word : string)
  : list string * string :=
  let '(lines, current_line) := st in
  if (Py.len current_line + Py.len word + 1 <=? max_width)%Z
  then (lines,
        current_line ++ match current_line with
                        | EmptyString => word
                        | String _ _ => word ++ " "
                        end)
  else (match current_line with
        | EmptyString => lines
        | String _ _ => (lines ++ [Py.rstrip current_line])%list
        end,
        word ++ " ").

(** [_wrap_text] *)
Definition _wrap_text (text : string) (max_width : Z) : list string :=
  let words := Py.split text in
  let '(lines, current_line) := fold_left (wrap_step max_width) words ([], "") in
  let lines :=
    match current_line with
    | EmptyString => lines
    | String _ _ => (lines ++ [Py.rstrip current_line])%list
    end in
  match lines with
  | [] => [""]
  | _ :: _ => lines
  end.

End HistoricalCheck.

(* ===================================================================== *)
(** * core/loop.py *)
(* ===================================================================== *)

Module Loop.

Import Backend.

(** The fields of [PerceptionResult] that the loop reads. *)
Record PerceptionResult : Type := mkPerception {
  intent : string;
  selected_servers : list string
}.

(** What [run_python_sandbox] gives back: a text, a value that is not a
    text (given by its [str()]), or an exception. *)
Inductive sandbox_reply : Type :=
| SandboxText (result : string)
| SandboxOther (shown : string)
| SandboxRaises.

(** The calls that [run] makes to its collaborators, with the arguments
    that matter. *)
Inductive event : Type :=
| RunPerception (user_input : string) (historical_context : option string)
| CallTool (name query : string)
| GenerateText (prompt : string)
| GeneratePlan (user_input : string) (step_num max_steps : Z)
| RunSandbox (code : string)
| LogSubtask (tool_name status : string)
| UpdateSubtask (tool_name status : string)
| AddToolOutput (tool_name : string) (tool_args : string * string)
                (tool_result : string) (success : bool) (tags : list string).

(** The collaborators.  Each one answers from the calls made so far in
    the turn, the one being answered last; [None] stands for an
    exception.  [run_perception] catches the exceptions of its own model
    call, and the methods of the context and of its memory only record
    their arguments. *)
Record environment : Type := mkEnv {
  run_perception : list event -> PerceptionResult;
  get_tools_from_servers : list string -> list string;
  call_tool : list event -> tool_reply;
  generate_text : list event -> option string;
  generate_plan : list event -> option string;
  extract_python_code_block : string -> string;
  run_python_sandbox : list event -> sandbox_reply
}.

(** [self.context], the local [further_processing_count], and the calls
    made so far. *)
Record state : Type := mkState {
  user_input : string;
  user_input_override : option string;
  historical_context : option string;
  final_answer : option string;
  step : Z;
  further_processing_count : Z;
  history : list event
}.

Definition emit (e : event) (st : state) : state :=
  mkState (user_input st) (user_input_override st) (historical_context st)
          (final_answer st) (step st) (further_processing_count st)
          (history st ++ [e]).

Definition set_final_answer (a : string) (st : state) : state :=
  mkState (user_input st) (user_input_override st) (historical_context st)
          (Some a) (step st) (further_processing_count st) (history st).

Definition set_user_input_override (o : string) (st : state) : state :=
  mkState (user_input st) (Some o) (historical_context st)
          (final_answer st) (step st) (further_processing_count st) (history st).

Definition set_step (n : Z) (st : state) : state :=
  mkState (user_input st) (user_input_override st) (historical_context st)
          (final_answer st) n (further_processing_count st) (history st).

Definition set_further_processing_count (n : Z) (st : state) : state :=
  mkState (user_input st) (user_input_override st) (historical_context st)
          (final_answer st) (step st) n (history st).

(** How one pass through the body of the [while] loop ends. *)
Inductive flow : Type :=
| Return_ (status result : string)     (* return {"status": ..., "result": ...} *)
| Break                                (* break *)
| Retry                                (* lifelines_left -= 1; continue *)
| Raise.                               (* an exception leaves [run] *)

(** ** Texts *)

Definition result_marker : string := "Your last tool produced this result:".
Definition critical_marker : string := "❗CRITICAL:".
Definition task_marker : string := "Original user task:".
Definition FINAL_ANSWER : string := "FINAL_ANSWER:".
Definition FURTHER_PROCESSING_REQUIRED : string := "FURTHER_PROCESSING_REQUIRED:".

Definition fallback_prompt (current_user_input historical_context : string) : string :=
  match historical_context with
  | EmptyString =>
      lines [
        "You are a helpful AI assistant. The user asked: " ++ quoted current_user_input;
        "";
        "This query doesn't require any tools - it's a simple question or greeting that you can answer directly.";
        "";
        "Please provide a helpful, concise response. If it's a greeting, respond warmly. If it's a question, answer it directly based on your knowledge.";
        "";
        "Your response:" ]
  | _ =>
      lines [
        "You are a helpful AI assistant. The user asked: " ++ quoted current_user_input;
        "";
        "This query doesn't require any tools - it's a simple question or greeting that you can answer directly.";
        "";
        "Here are some relevant previous conversations for context:";
        historical_context;
        "";
        "Please provide a helpful, concise response. If it's a greeting, respond warmly. If it's a question, answer it directly based on your knowledge and the context from previous conversations if relevant.";
        "";
        "Your response:" ]
  end.

Definition analysis_prompt (original_task content_to_analyze : string) : string :=
  lines [
    "You are a helpful AI assistant. Analyze the following content and provide a clear, comprehensive answer to the user's question.";
    "";
    "Original user task: " ++ original_task;
    "";
    "Content to analyze:";
    content_to_analyze;
    "";
    "Your task: Analyze this content and provide a clear, well-structured answer. If the user asked to summarize or explain, provide a comprehensive summary. If they asked a specific question, answer it based on the content.";
    "";
    "Respond with FINAL_ANSWER: [your analysis and answer]" ].

(** [content[:50000]], with a note when the content is longer *)
Definition content_to_analyze (content : string) : string :=
  if (50000 <? Py.len content)%Z
  then Py.slice_to 50000 content ++ Py.nl ++ Py.nl
       ++ "[Content truncated - showing first 50000 characters of "
       ++ Py.str_of_int (Py.len content) ++ " total]"
  else content.

Definition override_message (user_input content : string) : string :=
  "Original user task: " ++ user_input ++ Py.nl ++ Py.nl ++
  "Your last tool produced this result:" ++ Py.nl ++ Py.nl ++
  content ++ Py.nl ++ Py.nl ++
  "❗CRITICAL: Analyze the content above and return FINAL_ANSWER. DO NOT call any tools - the content is already provided!" ++ Py.nl ++ Py.nl ++
  "Return: FINAL_ANSWER: [your analysis]".

Definition with_historical_context (current_user_input : string)
           (historical_context : option string) : string :=
  if truthy historical_context
  then lines [
         current_user_input;
         "";
         "Relevant context from previous conversations:";
         get historical_context;
         "";
         "Use this context to inform your tool selection and search strategy." ]
  else current_user_input.

(** [r"^\s*(async\s+)?def\s+solve\s*\("], searched with [re.MULTILINE] *)
Definition solve_pattern : Re.regex :=
  Re.cats [Re.Bol; Re.star Re.space;
           Re.Alt (Re.cats [Re.lit "async"; Re.plus Re.space]) Re.Emp;
           Re.lit "def"; Re.plus Re.space; Re.lit "solve"; Re.star Re.space;
           Re.lit "("].

Definition has_solve (text : string) : bool :=
  Re.search Re.no_flags solve_pattern text.

(** [s.find(sub, start)], with [None] for [-1] *)
Definition find_from (sub : string) (start : nat) (s : string) : option nat :=
  option_map (Nat.add start) (Py.find sub (Py.drop start s)).

(** [s.find(sub) + len(sub)] for a [sub] that occurs in [s] *)
Definition after (sub s : string) : nat :=
  match Py.find sub s with
  | Some i => i + String.length sub
  | None => String.length sub - 1
  end.

(** ** No tools selected: lines 53 to 136 *)

Definition previous_conversation (conv : conversation) : string :=
  "Previous conversation:" ++ Py.nl ++
  "  User: " ++ get (Backend.user_query conv) ++ Py.nl ++
  "  Assistant: " ++ get (Backend.final_answer conv).

Definition no_tools (env : environment) (perception : PerceptionResult)
           (st : state) : flow * state :=
  let st := emit (CallTool "search_historical_conversations" (user_input st)) st in
  let historical_context :=
    match call_tool env (history st) with
    | Parsed historical_data =>
        Py.join (Py.nl ++ Py.nl) (map previous_conversation (firstn 3 historical_data))
    | CallRaises | NoContent | Unparsable => ""
    end in
  let current_user_input := or_else (user_input_override st) (user_input st) in
  let st := emit (GenerateText (fallback_prompt current_user_input historical_context)) st in
  match generate_text env (history st) with
  | Some direct_answer =>
      let direct_answer := ensure_final (Py.strip direct_answer) in
      let st := set_final_answer direct_answer st in
      let st := emit (AddToolOutput "direct_llm_response"
                        ("user_input", current_user_input) direct_answer true
                        (if String.eqb (intent perception) "greeting"
                         then ["greeting"; "simple_query"] else ["simple_query"])) st in
      (Return_ "done" direct_answer, st)
  | None =>
      let apology := "FINAL_ANSWER: I apologize, but I encountered an error while processing your request." in
      (Return_ "error" apology, set_final_answer apology st)
  end.

(** ** Content already provided: lines 143 to 196 *)

Definition provided_content (current_user_input : string) : string :=
  let content := Py.strip (Py.drop (after result_marker current_user_input) current_user_input) in
  match Py.find critical_marker content with
  | Some i => Py.strip (Py.take i content)
  | None => content
  end.

Definition original_task (st : state) (current_user_input : string) : string :=
  if Py.contains task_marker current_user_input
  then let task_start := after task_marker current_user_input in
       match find_from (Py.nl ++ Py.nl) task_start current_user_input with
       | Some task_end =>
           if 0 <? task_end
           then Py.strip (Py.take (task_end - task_start) (Py.drop task_start current_user_input))
           else user_input st
       | None => user_input st
       end
  else user_input st.

(** The value is [None] when the model call raises; the planning that
    follows then sees the state that is given back. *)
Definition direct_analysis (env : environment) (current_user_input : string)
           (st : state) : option (flow * state) * state :=
  let content := provided_content current_user_input in
  let prompt := analysis_prompt (original_task st current_user_input)
                                (content_to_analyze content) in
  let st := emit (GenerateText prompt) st in
  match generate_text env (history st) with
  | Some llm_answer =>
      let llm_answer := ensure_final (Py.strip llm_answer) in
      let st := set_final_answer llm_answer st in
      let st := emit (AddToolOutput "llm_direct_analysis"
                        ("reason", "Content provided via FURTHER_PROCESSING_REQUIRED")
                        llm_answer true ["direct_analysis"; "llm"]) st in
      (Some (Return_ "done" llm_answer, st), st)
  | None => (None, st)
  end.

(** ** Execution result: lines 243 to 354 *)

(** The second and later [FURTHER_PROCESSING_REQUIRED] of a turn: lines
    264 to 301.  The value is [None] when the model call raises. *)
Definition llm_fallback (env : environment) (content : string) (st : state)
  : option (flow * state) * state :=
  let prompt := analysis_prompt (user_input st) (content_to_analyze content) in
  let st := emit (GenerateText prompt) st in
  match generate_text env (history st) with
  | Some llm_answer =>
      let llm_answer := ensure_final (Py.strip llm_answer) in
      let st := set_final_answer llm_answer st in
      let st := emit (AddToolOutput "llm_fallback_analysis"
                        ("reason", "FURTHER_PROCESSING_REQUIRED loop detected")
                        llm_answer true ["fallback"; "llm_analysis"]) st in
      (Some (Return_ "done" llm_answer, st), st)
  | None => (None, st)
  end.

(** Lines 303 to 326 *)
Definition forward (content : string) (st : state) : flow * state :=
  (Break, set_user_input_override (override_message (user_input st) content) st).

Definition further_processing (env : environment) (result : string) (st : state)
  : flow * state :=
  let content := Py.strip (nth 1 (Py.split_on FURTHER_PROCESSING_REQUIRED result) "") in
  let st := set_further_processing_count (further_processing_count st + 1) st in
  if (1 <? further_processing_count st)%Z
  then match llm_fallback env content st with
       | (Some returned, _) => returned
       | (None, st) => forward content st
       end
  else forward content st.

(** Lines 336 to 354 *)
Definition record_and_decide (plan result : string) (success contains_marker : bool)
           (st : state) : flow * state :=
  let st := emit (UpdateSubtask "solve_sandbox" (if success then "success" else "failure")) st in
  let st := emit (AddToolOutput "solve_sandbox" ("plan", plan) result success ["sandbox"]) st in
  if success && negb contains_marker
  then (Return_ "done" (get (final_answer st)), st)
  else (Retry, st).

Definition on_result (env : environment) (plan : string) (reply : sandbox_reply)
           (st : state) : flow * state :=
  match reply with
  | SandboxRaises => (Raise, st)
  | SandboxText result =>
      let result := Py.strip result in
      if Py.startswith FINAL_ANSWER result
      then
        let st := set_final_answer result st in
        let st := emit (UpdateSubtask "solve_sandbox" "success") st in
        let st := emit (AddToolOutput "solve_sandbox" ("plan", plan) result true ["sandbox"]) st in
        (Return_ "done" result, st)
      else if Py.startswith FURTHER_PROCESSING_REQUIRED result
      then further_processing env result st
      else if Py.startswith "[sandbox error:" result
      then
        let st := set_final_answer "FINAL_ANSWER: [Execution failed]" st in
        record_and_decide plan result false
                          (Py.contains FURTHER_PROCESSING_REQUIRED result) st
      else
        let st := set_final_answer ("FINAL_ANSWER: " ++ result) st in
        record_and_decide plan result true
                          (Py.contains FURTHER_PROCESSING_REQUIRED result) st
  | SandboxOther shown =>
      let st := set_final_answer ("FINAL_ANSWER: " ++ shown) st in
      record_and_decide plan shown false false st
  end.

(** ** Planning and the call of the sandbox: lines 198 to 235

    The value is on the left when the pass ends before a result of the
    sandbox is at hand, and on the right, with the plan and the result,
    otherwise. *)
Definition plan_and_run (env : environment) (max_steps : Z)
           (current_user_input : string) (st : state)
  : (flow * state) + (string * sandbox_reply * state) :=
  let current_user_input := with_historical_context current_user_input (historical_context st) in
  let st := emit (GeneratePlan current_user_input (step st + 1) max_steps) st in
  match generate_plan env (history st) with
  | None => inl (Raise, st)
  | Some plan =>
      if has_solve plan
      then
        let code := extract_python_code_block env plan in
        let code := if has_solve code then code else plan in
        let st := emit (LogSubtask "solve_sandbox" "pending") st in
        let st := emit (RunSandbox code) st in
        inr (plan, run_python_sandbox env (history st), st)
      else inl (Retry, st)
  end.

(** ** From perception to the result of the sandbox: lines 40 to 235 *)
Definition to_execution (env : environment) (max_steps : Z) (st : state)
  : (flow * state) + (string * sandbox_reply * state) :=
  let st := emit (RunPerception (or_else (user_input_override st) (user_input st))
                                (historical_context st)) st in
  let perception := run_perception env (history st) in
  match get_tools_from_servers env (selected_servers perception) with
  | [] => inl (no_tools env perception st)
  | _ :: _ =>
      let current_user_input := or_else (user_input_override st) (user_input st) in
      if Py.contains result_marker current_user_input
      then match direct_analysis env current_user_input st with
           | (Some returned, _) => inl returned
           | (None, st) => plan_and_run env max_steps current_user_input st
           end
      else plan_and_run env max_steps current_user_input st
  end.

(** ** One pass through the body of the [while] loop: lines 40 to 358 *)
Definition iteration (env : environment) (max_steps : Z) (st : state) : flow * state :=
  match to_execution env max_steps st with
  | inl ended => ended
  | inr (plan, reply, st) => on_result env plan reply st
  end.

(** ** The loops *)

(** How [run] ends: with a returned dictionary or with an exception.
    [OutOfFuel] is the model's own: it marks a [while] loop cut short,
    which does not happen. *)
Inductive outcome : Type :=
| Returned (status result : string)
| Raised
| OutOfFuel.

(** How a step ends when [run] goes on: by [break], or with the
    lifelines used up. *)
Inductive step_end : Type :=
| Ended (o : outcome)
| Broke
| Exhausted.

(** [while lifelines_left >= 0: ...] *)
Fixpoint while_loop (fuel : nat) (env : environment) (max_steps : Z)
         (lifelines_left : Z) (st : state) : step_end * state :=
  if (0 <=? lifelines_left)%Z
  then match fuel with
       | O => (Ended OutOfFuel, st)
       | S fuel' =>
           match iteration env max_steps st with
           | (Return_ status result, st) => (Ended (Returned status result), st)
           | (Raise, st) => (Ended Raised, st)
           | (Break, st) => (Broke, st)
           | (Retry, st) => while_loop fuel' env max_steps (lifelines_left - 1) st
           end
       end
  else (Exhausted, st).

(** The body of the [for] loop *)
Definition run_step (env : environment) (max_steps max_lifelines_per_step : Z)
           (step : Z) (st : state) : step_end * state :=
  let st := set_step step st in
  let lifelines_left := max_lifelines_per_step in
  while_loop (Z.to_nat (lifelines_left + 1)) env max_steps lifelines_left st.

(** Lines 360 to 362 *)
Definition max_steps_reached (st : state) : outcome * state :=
  let st := set_final_answer "FINAL_ANSWER: [Max steps reached]" st in
  (Returned "done" (get (final_answer st)), st).

(** [for step in steps: ...] and what follows the loop *)
Fixpoint for_loop (env : environment) (max_steps max_lifelines_per_step : Z)
         (steps : list Z) (st : state) : outcome * state :=
  match steps with
  | [] => max_steps_reached st
  | step :: steps' =>
      match run_step env max_steps max_lifelines_per_step step st with
      | (Ended o, st) => (o, st)
      | (Broke, st) | (Exhausted, st) =>
          for_loop env max_steps max_lifelines_per_step steps' st
      end
  end.

(** [range(n)] *)
Definition range (n : Z) : list Z := map Z.of_nat (seq 0 (Z.to_nat n)).

(** A context at the start of a turn. *)
Definition fresh (user_input : string) (historical_context : option string) : state :=
  mkState user_input None historical_context None 0 0 [].

(** [AgentLoop.run] *)
Definition run (env : environment) (max_steps max_lifelines_per_step : Z)
           (st : state) : outcome * state :=
  let st := set_further_processing_count 0 st in
  for_loop env max_steps max_lifelines_per_step (range max_steps) st.

End Loop.

(* ===================================================================== *)
(** * modules/mcp_server_memory.py *)
(* ===================================================================== *)

Module MemoryServer.

Import Backend ConversationIndexer.

(** ** [search_historical_conversations] *)

Definition error_patterns : list string :=
  [ "[max steps reached]"; "[result blocked"; "[execution failed]";
    "[sandbox error:"; "[error"; "[failed"; "[blocked" ].

Definition error_words : list string := ["error"; "failed"; "blocked"; "max"; "steps"].

(** The loop over [error_patterns]: it stops at the first pattern found
    in the lowered answer; before going to the next pattern it looks at
    an answer written between brackets. *)
Fixpoint error_loop (final_answer final_answer_lower : string) (patterns : list string)
         (is_error : bool) : bool :=
  match patterns with
  | [] => is_error
  | pattern :: rest =>
      if Py.contains pattern final_answer_lower
      then true
      else
        let is_error :=
          if Py.startswith "[" (Py.strip final_answer)
             && Py.endswith "]" (Py.strip final_answer)
          then if existsb (fun word => Py.contains word final_answer_lower) error_words
               then true
               else is_error
          else is_error in
        error_loop final_answer final_answer_lower rest is_error
  end.

Definition is_error (final_answer : string) : bool :=
  match final_answer with
  | EmptyString => false
  | String _ _ => error_loop final_answer (Py.lower final_answer) error_patterns false
  end.

(** One element of the ["result"] list. *)
Record formatted_result : Type := mkFormatted {
  f_user_query : string;
  f_final_answer : string;
  f_timestamp : Q;
  f_similarity_distance : Q
}.

Definition format_result (r : search_result) : formatted_result :=
  mkFormatted (user_query (conversation r)) (final_answer (conversation r))
              (timestamp (conversation r)) (similarity_distance r).

(** [search_historical_conversations]: the value of ["result"], and the
    global instance as the call leaves it.  Nothing raises inside the
    [try] block, since [search] catches what its own calls raise, so the
    dictionary with an ["error"] is never returned. *)
Definition search_historical_conversations
           (service : string -> embed_response) (lio : load_io) (dk : disk)
           (global : option ConversationIndexer) (query : string)
  : list formatted_result * option ConversationIndexer :=
  let '(results, global) := Convenience.search_conversations service lio dk global query 5 in
  (map format_result
       (filter (fun r => negb (is_error (final_answer (conversation r)))) results),
   global).

(** ** [answer_from_history] *)

Definition history_markers : list string :=
  ["[max steps reached]"; "[result blocked"; "[error"].

Definition skipped (final_answer : string) : bool :=
  match final_answer with
  | EmptyString => false
  | String _ _ =>
      existsb (fun err => Py.contains err (Py.lower final_answer)) history_markers
  end.

Definition context_item (r : search_result) : string :=
  "Previous Q: " ++ user_query (conversation r) ++ Py.nl ++
  "Previous A: " ++ final_answer (conversation r).

Definition context_prompt (query historical_context : string) : string :=
  lines [
    "You are a helpful AI assistant. Answer the user's question based on the provided historical conversation context.";
    "";
    "User's current question: " ++ quoted query;
    "";
    "Historical conversation context:";
    historical_context;
    "";
    "Your task:";
    "1. Analyze the historical conversations above to extract relevant information.";
    "2. If the user's question asks for a comparison, analysis, or synthesis of information from multiple conversations, create a comprehensive answer by combining information from the historical context.";
    "3. If the question can be answered (even partially) using information from the historical context, provide a clear, detailed answer.";
    "4. Only respond with " ++ quoted "I don't have that information" ++ " if the historical context contains NO relevant information at all about the topic.";
    "";
    "Important: For comparison queries (e.g., " ++ quoted "compare X and Y" ++ "), if information about both X and Y exists in the historical context, you MUST create a comparison even if a direct comparison wasn't explicitly stated in previous conversations.";
    "";
    "Respond with FINAL_ANSWER: [your comprehensive answer based on the historical context]" ].

Definition plain_prompt (query : string) : string :=
  lines [
    "You are a helpful AI assistant. The user asked: " ++ quoted query;
    "";
    "No relevant historical conversations were found. Please provide a helpful response based on your general knowledge.";
    "";
    "Respond with FINAL_ANSWER: [your answer]" ].

(** Step 1: the context given, or the one made from a search. *)
Definition history_context
           (service : string -> embed_response) (lio : load_io) (dk : disk)
           (global : option ConversationIndexer) (query : string)
           (historical_context : option string)
  : option string * option ConversationIndexer :=
  if truthy historical_context
  then (historical_context, global)
  else
    let '(results, global) :=
      Convenience.search_conversations service lio dk global query 5 in
    match results with
    | [] => (historical_context, global)
    | _ :: _ =>
        let context_items :=
          map context_item
              (filter (fun r => negb (skipped (final_answer (conversation r)))) results) in
        (Some (Py.join (Py.nl ++ Py.nl) (firstn 5 context_items)), global)
    end.

(** What [from modules.model_manager import ModelManager] comes to: it
    raises, or it gives the class, whose construction raises or gives
    the method [generate_text]. *)
Definition ModelManager : Type := attempt (string -> attempt string).

(** The [except] branch *)
Definition failure (message : string) : string :=
  "FINAL_ANSWER: I encountered an error while processing your request: " ++ message.

(** [answer_from_history]: the [result] of the returned object, and the
    global instance as the call leaves it. *)
Definition answer_from_history
           (service : string -> embed_response) (lio : load_io) (dk : disk)
           (global : option ConversationIndexer)
           (import_model : attempt ModelManager)
           (query : string) (historical_context : option string)
  : string * option ConversationIndexer :=
  match import_model with
  | Raises message => (failure message, global)
  | Gives new_model =>
      let '(historical_context, global) :=
        history_context service lio dk global query historical_context in
      match new_model with
      | Raises message => (failure message, global)
      | Gives generate_text =>
          let prompt :=
            if truthy historical_context
            then context_prompt query (get historical_context)
            else plain_prompt query in
          match generate_text prompt with
          | Raises message => (failure message, global)
          | Gives llm_response => (ensure_final (Py.strip llm_response), global)
          end
      end
  end.

End MemoryServer.

(* ===================================================================== *)
(** * modules/model_manager.py *)
(* ===================================================================== *)

Module ModelManager.

(** The classes of exception that the module names, and the others.
    [AuthenticationError] is a subclass of [APIError]; [APIError] stands
    here for the API errors that are not authentication errors. *)
Inductive exception_class : Type :=
| AuthenticationError
| APIError
| AttributeError
| IndexError
| KeyError
| ValueError
| NotImplementedError
| OtherException.

Record exception : Type := mkException {
  class : exception_class;
  message : string                     (* str(e) *)
}.

(** A computation that returns or raises. *)
Inductive result (A : Type) : Type :=
| Return (a : A)
| Raise (e : exception).
Arguments Return {A} a.
Arguments Raise {A} e.

(** [isinstance(e, cls)] for the classes of the [except] clauses *)
Definition isinstance (e : exception) (cls : exception_class) : bool :=
  match cls, class e with
  | AuthenticationError, AuthenticationError => true
  | APIError, (AuthenticationError | APIError) => true
  | AttributeError, AttributeError => true
  | IndexError, IndexError => true
  | KeyError, KeyError => true
  | ValueError, ValueError => true
  | NotImplementedError, NotImplementedError => true
  | _, _ => false
  end.

(** What the code reads in the response of a chat completion:
    [response.choices[0].message.content.strip()], and the text of the
    fallback, [str(response.choices[0])] or [str(response)]; each one can
    raise. *)
Record chat_response : Type := mkChatResponse {
  content : result string;
  shown : result string
}.

(** What the code reads in the response of Gemini: [response.text.strip()],
    [response.candidates[0].content.parts[0].text.strip()] and
    [str(response)]. *)
Record gemini_response : Type := mkGeminiResponse {
  text : result string;
  first_part : result string;
  printed : string
}.

Definition key_error : string :=
  "❌ OpenAI API Key Error: Invalid or missing API key. Please check your OPENAI_API_KEY environment variable. Get your key at: https://platform.openai.com/account/api-keys".

(** [_openai_generate] *)
Definition _openai_generate (create : string -> result chat_response) (prompt : string)
  : result string :=
  let body :=
    match create prompt with
    | Raise e => Raise e
    | Return response =>
        match content response with
        | Return text => Return text
        | Raise e =>
            if isinstance e AttributeError || isinstance e IndexError
               || isinstance e KeyError
            then match shown response with
                 | Return text => Return text
                 | Raise _ => Return ("[OpenAI Response Parse Error: " ++ message e ++ "]")
                 end
            else Raise e
        end
    end in
  match body with
  | Return text => Return text
  | Raise e =>
      if isinstance e AuthenticationError
      then
        let error_msg := message e in
        if Py.contains "api key" (Py.lower error_msg) || Py.contains "401" error_msg
        then Raise (mkException ValueError key_error)
        else Raise e
      else if isinstance e APIError
      then Raise (mkException ValueError
                    ("❌ OpenAI API Error: " ++ message e
                     ++ ". Please check your API key and account status."))
      else Raise (mkException ValueError ("❌ OpenAI Request Error: " ++ message e))
  end.

(** [_gemini_generate] *)
Definition _gemini_generate (generate_content : string -> result gemini_response)
           (prompt : string) : result string :=
  match generate_content prompt with
  | Raise e => Raise e
  | Return response =>
      match text response with
      | Return t => Return t
      | Raise e =>
          if isinstance e AttributeError
          then match first_part response with
               | Return t => Return t
               | Raise _ => Return (printed response)
               end
          else Raise e
      end
  end.

(** The object: [self.model_type] and the clients.  [ollama] stands for
    [_ollama_generate], where nothing is caught. *)
Record ModelManager : Type := mkModelManager {
  model_type : string;
  gemini : string -> result gemini_response;
  ollama : string -> result string;
  openai : string -> result chat_response
}.

(** [generate_text] *)
Definition generate_text (self : ModelManager) (prompt : string) : result string :=
  if String.eqb (model_type self) "gemini" then _gemini_generate (gemini self) prompt
  else if String.eqb (model_type self) "ollama" then ollama self prompt
  else if String.eqb (model_type self) "openai" then _openai_generate (openai self) prompt
  else Raise (mkException NotImplementedError
                ("Unsupported model type: " ++ model_type self)).

End ModelManager.

(* ===================================================================== *)
(** * agent.py *)
(* ===================================================================== *)

Module Agent.

Import Backend.

(** What [main] writes: [print(text)], and [log(stage, msg)], which
    prints the message after the time and the stage. *)
Inductive output : Type :=
| Printed (text : string)
| Logged (stage msg : string).

(** [d[key]] for a key that holds a text; [None] stands for [KeyError]. *)
Fixpoint getitem_str (key : string) (d : HistoricalCheck.dict) : option string :=
  match d with
  | [] => None
  | (k, v) :: d' =>
      if String.eqb k key
      then match v with HistoricalCheck.VStr s => Some s | HistoricalCheck.VBool _ => None end
      else getitem_str key d'
  end.

(** An item of the session memory, as [main] reads it. *)
Record MemoryItem : Type := mkItem {
  type : string;
  tool_name : option string;
  tool_args : option string;
  success : option bool
}.

(** The loop that builds [tool_calls] from the items of the memory. *)
Definition tool_calls_of (memory_items : list MemoryItem)
  : list ConversationIndexer.tool_call :=
  map (fun item =>
         ConversationIndexer.mkToolCall
           (get (tool_name item))
           (or_else (tool_args item) "{}")
           (match success item with Some b => b | None => false end))
      (filter (fun item => String.eqb (type item) "tool_output" && truthy (tool_name item))
              memory_items).

(** The collaborators of a turn.  [context_session_id] is the
    [session_id] of the [AgentContext] built for the current session;
    [get_session_items] reads the memory after the calls that the loop
    made, and can raise.  The constructors of [AgentContext] and
    [AgentLoop] are taken to return. *)
Record collaborators : Type := mkCollaborators {
  call_tool : string -> string -> tool_reply;
  generate_text : string -> option string;
  context_session_id : option string -> string;
  loop_environment : Loop.environment;
  max_steps : Z;
  max_lifelines_per_step : Z;
  get_session_items : list Loop.event -> Backend.attempt (list MemoryItem);
  embedding_service : string -> ConversationIndexer.embed_response;
  clock : Q;
  load_faults : ConversationIndexer.load_io;
  save_faults : ConversationIndexer.save_io
}.

(** What lives across the turns: [current_session], the global indexer
    of [conversation_indexer] and its two files. *)
Record world : Type := mkWorld {
  current_session : option string;
  indexer : option ConversationIndexer.ConversationIndexer;
  files : ConversationIndexer.disk
}.

(** How the handling of one input ends: the query is blocked and the
    outer loop goes on, the inner loop is left by [break], an exception
    leaves [main], or, in the model only, the inner loop is cut short. *)
Inductive turn_end : Type :=
| Rejected
| Answered
| Crashed
| CutShort.

(** [if not current_session: current_session = context.session_id] *)
Definition keep_session (current_session : option string) (session_id : string)
  : option string :=
  if truthy current_session then current_session else Some session_id.

(** The indexing of a conversation and the log that follows it. *)
Definition index_and_log (c : collaborators) (session_id original_user_input
                          original_answer : string)
           (tool_calls : Backend.attempt (list MemoryItem)) (w : world)
  : list output * world :=
  match tool_calls with
  | Backend.Raises message =>
      ([Logged "agent" ("⚠️  Failed to index conversation: " ++ message)], w)
  | Backend.Gives memory_items =>
      let tool_calls :=
        match tool_calls_of memory_items with
        | [] => None
        | tcs => Some tcs
        end in
      let '(global, dk) :=
        ConversationIndexer.Convenience.index_conversation
          (embedding_service c) (clock c) (load_faults c) (save_faults c)
          session_id original_user_input original_answer tool_calls None
          (indexer w) (files w) in
      ([Logged "agent" "✅ Conversation indexed for semantic search"],
       mkWorld (current_session w) global dk)
  end.

(** The guardrail at the final print statement. *)
Definition show (label text : string) : list output :=
  let result_check := Guardrail.check_result text in
  (match Guardrail.warnings result_check with
   | [] => []
   | ws => [Logged "guardrail" ("⚠️  Final answer warnings: " ++ Py.join ", " ws)]
   end
   ++ [Printed (Py.nl ++ label ++ Guardrail.sanitized_content result_check)])%list.

(** [answer.split(marker)[1].strip()] *)
Definition after_marker (marker answer : string) : string :=
  Py.strip (nth 1 (Py.split_on marker answer) "").

(** The inner [while True] loop: lines 59 to 231.  The branch for a
    result of [run] that is not a dictionary is left out: [run] returns
    dictionaries only. *)
Fixpoint answer_loop (fuel : nat) (c : collaborators)
         (original_user_input user_input : string) (w : world)
  : turn_end * list output * world :=
  match fuel with
  | O => (CutShort, [], w)
  | S fuel' =>
      let historical_check :=
        fst (HistoricalCheck.check_historical_conversations
               (call_tool c) (generate_text c) user_input) in
      if HistoricalCheck.get_bool "can_answer" historical_check
      then
        match getitem_str "answer" historical_check with
        | None => (Crashed, [], w)
        | Some answer =>
            let out1 := [Logged "agent" "✅ Direct answer from historical conversations - skipping tool loop"] in
            let final_answer_text :=
              if Py.contains "FINAL_ANSWER:" answer
              then after_marker "FINAL_ANSWER:" answer
              else answer in
            let session_id := context_session_id c (current_session w) in
            let w := mkWorld (keep_session (current_session w) session_id)
                             (indexer w) (files w) in
            let '(out2, w) :=
              index_and_log c session_id original_user_input final_answer_text
                            (Backend.Gives []) w in
            (Answered, (out1 ++ out2 ++ show "💡 Final Answer: " final_answer_text)%list, w)
        end
      else
        let session_id := context_session_id c (current_session w) in
        let has_context := HistoricalCheck.get_bool "has_context" historical_check in
        let historical_context :=
          if has_context
          then Some (get (getitem_str "context" historical_check))
          else None in
        let out1 :=
          if has_context
          then [Logged "agent" "📚 Proceeding to tool loop with historical context (will be sent to perception)"]
          else [Logged "agent" "🆕 Proceeding to tool loop with fresh approach (no relevant history)"] in
        let w := mkWorld (keep_session (current_session w) session_id)
                         (indexer w) (files w) in
        match Loop.run (loop_environment c) (max_steps c) (max_lifelines_per_step c)
                       (Loop.fresh user_input historical_context) with
        | (Loop.Raised, _) => (Crashed, out1, w)
        | (Loop.OutOfFuel, _) => (CutShort, out1, w)
        | (Loop.Returned _ answer, st) =>
            if Py.contains "FINAL_ANSWER:" answer
            then
              let final_answer_text := after_marker "FINAL_ANSWER:" answer in
              let '(out2, w) :=
                index_and_log c session_id original_user_input final_answer_text
                              (get_session_items c (Loop.history st)) w in
              (Answered, (out1 ++ out2 ++ show "💡 Final Answer: " final_answer_text)%list, w)
            else if Py.contains "FURTHER_PROCESSING_REQUIRED:" answer
            then
              let user_input := after_marker "FURTHER_PROCESSING_REQUIRED:" answer in
              let out2 := [Printed (Py.nl ++ "🔁 Further Processing Required: " ++ user_input)] in
              let '(ending, out3, w) := answer_loop fuel' c original_user_input user_input w in
              (ending, (out1 ++ out2 ++ out3)%list, w)
            else
              let '(out2, w) :=
                index_and_log c session_id original_user_input answer
                              (get_session_items c (Loop.history st)) w in
              (Answered, (out1 ++ out2 ++ show "💡 Final Answer (raw): " answer)%list, w)
        end
  end.

(** The handling of one input that is neither [exit] nor [new]: lines 42
    to 231. *)
Definition handle (fuel : nat) (c : collaborators) (user_input : string) (w : world)
  : turn_end * list output * world :=
  let query_check := Guardrail.check_query user_input in
  if Guardrail.blocked query_check
  then
    let reason := match Guardrail.reason query_check with
                  | Some r => r
                  | None => "None"
                  end in
    (Rejected,
     ([Logged "guardrail" ("🚫 Query blocked: " ++ reason);
       Printed (Py.nl ++ "⚠️  Your query was blocked for security reasons: " ++ reason)]
      ++ match Guardrail.warnings query_check with
         | [] => []
         | ws => [Printed ("   Warnings: " ++ Py.join ", " ws)]
         end)%list,
     w)
  else
    let original_user_input := user_input in
    match Guardrail.warnings query_check with
    | [] => answer_loop fuel c original_user_input user_input w
    | ws =>
        let '(ending, out, w) :=
          answer_loop fuel c original_user_input
                      (Guardrail.sanitized_content query_check) w in
        (ending, Logged "guardrail" ("⚠️  Query warnings: " ++ Py.join ", " ws) :: out, w)
    end.

End Agent.

(* ===================================================================== *)
(** * Properties of the safety gate *)
(* ===================================================================== *)

Module GuardrailFacts.

Import Re Guardrail.
Local Open Scope list_scope.

(** ** What a heuristic may do to the local variables *)

(** [l'] has the warnings of [l], possibly followed by others. *)
Definition keeps_warnings (l l' : locals) : Prop :=
  exists ws, l_warnings l' = l_warnings l ++ ws.

(** A step that can warn and rewrite, but never touches [blocked] and
    [reason]. *)
Definition harmless (f : locals -> locals) : Prop :=
  forall l, l_blocked (f l) = l_blocked l /\ l_reason (f l) = l_reason l
            /\ keeps_warnings l (f l).

(** A step that can only add to what an earlier step decided. *)
Definition monotone (f : locals -> locals) : Prop :=
  forall l, (l_blocked l = true -> l_blocked (f l) = true)
            /\ keeps_warnings l (f l).

Lemma keeps_refl l : keeps_warnings l l.
Proof. exists []. now rewrite app_nil_r. Qed.

Lemma keeps_trans l1 l2 l3 :
  keeps_warnings l1 l2 -> keeps_warnings l2 l3 -> keeps_warnings l1 l3.
Proof.
  intros [w1 H1] [w2 H2]. exists (w1 ++ w2).
  now rewrite H2, H1, app_assoc.
Qed.

Lemma keeps_warn w l : keeps_warnings l (warn w l).
Proof. now exists [w]. Qed.

Lemma keeps_rewrite s l : keeps_warnings l (rewrite s l).
Proof. exists []. cbn [rewrite l_warnings]. now rewrite app_nil_r. Qed.

Lemma keeps_block r l : keeps_warnings l (block r l).
Proof. exists []. cbn [block l_warnings]. now rewrite app_nil_r. Qed.

Lemma keeps_In w l l' :
  keeps_warnings l l' -> In w (l_warnings l) -> In w (l_warnings l').
Proof. intros [ws ->] H. apply in_or_app. now left. Qed.

Create HintDb gate.

#[local] Hint Resolve keeps_refl keeps_warn keeps_rewrite keeps_block : gate.

(** A loop whose body is harmless is harmless. *)
Lemma harmless_fold {A : Type} (body : locals -> A -> locals) (xs : list A) :
  (forall x, harmless (fun l => body l x)) ->
  harmless (fun l => fold_left body xs l).
Proof.
  intros Hbody. induction xs as [|x xs IH]; intros l; simpl.
  - repeat split; auto with gate.
  - destruct (Hbody x l) as (b1 & r1 & w1). destruct (IH (body l x)) as (b2 & r2 & w2).
    repeat split; [congruence | congruence | eapply keeps_trans; eauto].
Qed.

Ltac locals_simpl :=
  unfold warn, rewrite, block;
  cbn [l_warnings l_sanitized l_blocked l_reason].

Ltac keeps :=
  unfold keeps_warnings; locals_simpl;
  first [ eexists; reflexivity
        | exists []; now rewrite app_nil_r
        | eexists; rewrite <- app_assoc; reflexivity ].

Ltac stage :=
  intros l;
  repeat match goal with
         | |- context [let '(_, _) := ?p in _] => destruct p
         | |- context [if ?c then _ else _] => destruct c
         | |- context [match ?c with [] => _ | _ :: _ => _ end] => destruct c
         end;
  repeat split; locals_simpl; try reflexivity; try (intros H; exact H); try keeps.

(** ** The steps of [check_result] *)

Lemma r_banned_harmless : harmless r_banned.
Proof. unfold r_banned. stage. Qed.

Lemma r_profanity_harmless : harmless r_profanity.
Proof. unfold r_profanity. stage. Qed.

Lemma r_pii_harmless : harmless r_pii.
Proof. unfold r_pii. stage. Qed.

Lemma r_sql_harmless : harmless r_sql.
Proof. unfold r_sql. stage. Qed.

Lemma r_command_harmless : harmless r_command.
Proof. unfold r_command. stage. Qed.

Lemma r_urls_harmless : harmless r_urls.
Proof.
  intros l0. unfold r_urls. apply (harmless_fold _ (_extract_urls (l_sanitized l0))).
  intros url. stage.
Qed.

Lemma r_paths_harmless : harmless r_paths.
Proof. unfold r_paths. stage. Qed.

Lemma r_length_harmless result : harmless (r_length result).
Proof.
  unfold r_length. intros l.
  destruct (max_result_length <? Py.len result)%Z; repeat split; keeps.
Qed.

Lemma r_encoding_harmless : harmless r_encoding.
Proof. unfold r_encoding. stage. Qed.

Lemma r_script_harmless : harmless r_script.
Proof. unfold r_script. stage. Qed.

(** The steps of [check_result] that follow the two injection
    heuristics, those that follow the PII heuristic, and those that come
    before. *)
Definition r_after_command (result : string) (l : locals) : locals :=
  r_script (r_encoding (r_length result (r_paths (r_urls l)))).

Definition r_after_pii (result : string) (l : locals) : locals :=
  r_after_command result (r_command (r_sql l)).

Definition r_before_pii (result : string) : locals :=
  r_profanity (r_banned (start result)).

Definition r_before_sql (result : string) : locals := r_pii (r_before_pii result).

Lemma check_result_steps result :
  check_result result = finish (r_after_pii result (r_before_sql result)).
Proof.
  cbv beta zeta delta [check_result r_after_pii r_after_command r_before_sql r_before_pii].
  reflexivity.
Qed.

Ltac then_step H :=
  let b := fresh "b" in let r := fresh "r" in let w := fresh "w" in
  pose proof H as (b & r & w).

Ltac harmless_chain :=
  repeat split;
  [ congruence | congruence
  | repeat (eapply keeps_trans; [eassumption|]); apply keeps_refl ].

Lemma r_after_command_harmless result : harmless (r_after_command result).
Proof.
  intros l. unfold r_after_command.
  then_step (r_urls_harmless l).
  then_step (r_paths_harmless (r_urls l)).
  then_step (r_length_harmless result (r_paths (r_urls l))).
  then_step (r_encoding_harmless (r_length result (r_paths (r_urls l)))).
  then_step (r_script_harmless (r_encoding (r_length result (r_paths (r_urls l))))).
  harmless_chain.
Qed.

Lemma r_after_pii_harmless result : harmless (r_after_pii result).
Proof.
  intros l. unfold r_after_pii.
  then_step (r_sql_harmless l).
  then_step (r_command_harmless (r_sql l)).
  then_step (r_after_command_harmless result (r_command (r_sql l))).
  harmless_chain.
Qed.

Lemma r_before_sql_harmless result :
  l_blocked (r_before_sql result) = false /\ l_reason (r_before_sql result) = None.
Proof.
  unfold r_before_sql, r_before_pii.
  then_step (r_banned_harmless (start result)).
  then_step (r_profanity_harmless (r_banned (start result))).
  then_step (r_pii_harmless (r_profanity (r_banned (start result)))).
  cbn [start l_blocked l_reason] in *. split; congruence.
Qed.

(** ** The steps of [check_query] *)

Lemma q_banned_harmless : harmless q_banned.
Proof. unfold q_banned. stage. Qed.

Lemma q_profanity_harmless : harmless q_profanity.
Proof. unfold q_profanity. stage. Qed.

Lemma q_pii_harmless : harmless q_pii.
Proof. unfold q_pii. stage. Qed.

Lemma q_urls_harmless : harmless q_urls.
Proof.
  intros l0. unfold q_urls. apply (harmless_fold _ (_extract_urls (l_sanitized l0))).
  intros url. stage.
Qed.

Lemma q_length_harmless query : harmless (q_length query).
Proof.
  unfold q_length. intros l.
  destruct (max_query_length <? Py.len query)%Z; repeat split; keeps.
Qed.

Lemma q_encoding_harmless : harmless q_encoding.
Proof. unfold q_encoding. stage. Qed.

Lemma q_paths_monotone : monotone q_paths.
Proof. unfold q_paths. stage. Qed.

Lemma q_script_monotone : monotone q_script.
Proof. unfold q_script. stage. Qed.

Definition q_before_sql (query : string) : locals :=
  q_pii (q_profanity (q_banned (start query))).

Definition q_before_paths (query : string) : locals :=
  q_urls (q_command (q_sql (q_before_sql query))).

Definition q_before_script (query : string) : locals :=
  q_encoding (q_length query (q_paths (q_before_paths query))).

Lemma check_query_steps query :
  check_query query = finish (q_script (q_before_script query)).
Proof.
  cbv beta zeta delta [check_query q_before_script q_before_paths q_before_sql].
  reflexivity.
Qed.

(** ** The text on which the injection heuristics work

    The first three heuristics rewrite the text in the same way in both
    checks. *)
Definition text_before_pii (text : string) : string :=
  let sanitized := fst (_remove_banned_words text) in
  if _contains_profanity sanitized then _sanitize_profanity sanitized else sanitized.

Definition text_before_sql (text : string) : string :=
  let sanitized := text_before_pii text in
  match _detect_pii sanitized with
  | [] => sanitized
  | _ :: _ => _sanitize_pii sanitized
  end.

Lemma r_before_pii_text result :
  l_sanitized (r_before_pii result) = text_before_pii result.
Proof.
  unfold r_before_pii, text_before_pii, r_profanity, r_banned.
  cbn [start l_sanitized]. destruct (_remove_banned_words result) as [s b].
  cbn [fst]. destruct b; locals_simpl; destruct (_contains_profanity s); reflexivity.
Qed.

Lemma r_before_sql_text result :
  l_sanitized (r_before_sql result) = text_before_sql result.
Proof.
  unfold r_before_sql, text_before_sql, r_pii. rewrite r_before_pii_text.
  destruct (_detect_pii (text_before_pii result)); locals_simpl;
    now rewrite ?r_before_pii_text.
Qed.

Lemma q_before_sql_text query :
  l_sanitized (q_before_sql query) = text_before_sql query.
Proof.
  assert (H : l_sanitized (q_profanity (q_banned (start query))) = text_before_pii query).
  { unfold text_before_pii, q_profanity, q_banned.
    cbn [start l_sanitized]. destruct (_remove_banned_words query) as [s b].
    cbn [fst]. destruct b; locals_simpl; destruct (_contains_profanity s); reflexivity. }
  unfold q_before_sql, text_before_sql, q_pii. rewrite H.
  destruct (_detect_pii (text_before_pii query)); locals_simpl;
    now rewrite ?H.
Qed.

Lemma q_before_sql_clear query :
  l_blocked (q_before_sql query) = false /\ l_reason (q_before_sql query) = None.
Proof.
  unfold q_before_sql.
  then_step (q_banned_harmless (start query)).
  then_step (q_profanity_harmless (q_banned (start query))).
  then_step (q_pii_harmless (q_profanity (q_banned (start query)))).
  cbn [start l_blocked l_reason] in *. split; congruence.
Qed.

(** ** Injection patterns: blocked inbound, flagged outbound *)

Definition sql_detected (text : string) : bool :=
  _contains_sql_injection (text_before_sql text).

(** Inbound, the command heuristic works on the text that the SQL
    heuristic leaves; outbound, the SQL heuristic leaves the text as it
    is. *)
Definition text_before_command_inbound (text : string) : string :=
  if sql_detected text
  then _sanitize_sql_injection (text_before_sql text)
  else text_before_sql text.

Definition command_detected_inbound (text : string) : bool :=
  _contains_command_injection (text_before_command_inbound text).

Definition command_detected_outbound (text : string) : bool :=
  _contains_command_injection (text_before_sql text).

Definition injection_detected (text : string) : bool :=
  sql_detected text || command_detected_inbound text.

(** The two heuristics of [check_query] that block after the injection
    heuristics. *)
Definition path_detected (query : string) : bool :=
  _contains_sensitive_paths (l_sanitized (q_before_paths query)).

Definition script_detected (query : string) : bool :=
  _contains_script_injection (l_sanitized (q_before_script query)).

Definition sql_reason : string := "SQL injection pattern detected in query".
Definition command_reason : string := "Command injection pattern detected in query".
Definition sql_warning : string :=
  "SQL injection pattern detected in result (may be false positive)".
Definition command_warning : string :=
  "Command injection pattern detected in result (may be false positive in document content)".

Lemma q_sql_spec l :
  q_sql l = if _contains_sql_injection (l_sanitized l)
            then mkLocals (l_warnings l) (_sanitize_sql_injection (l_sanitized l))
                          true (Some sql_reason)
            else l.
Proof. unfold q_sql. now destruct (_contains_sql_injection (l_sanitized l)). Qed.

Lemma q_command_spec l :
  q_command l = if _contains_command_injection (l_sanitized l)
                then mkLocals (l_warnings l)
                              (_sanitize_command_injection (l_sanitized l))
                              true (Some command_reason)
                else l.
Proof. unfold q_command. now destruct (_contains_command_injection (l_sanitized l)). Qed.

Lemma q_paths_idle l :
  _contains_sensitive_paths (l_sanitized l) = false -> q_paths l = l.
Proof. unfold q_paths. now intros ->. Qed.

Lemma q_script_idle l :
  _contains_script_injection (l_sanitized l) = false -> q_script l = l.
Proof. unfold q_script. now intros ->. Qed.

Lemma r_sql_spec l :
  r_sql l = if _contains_sql_injection (l_sanitized l) then warn sql_warning l else l.
Proof. reflexivity. Qed.

Lemma r_command_spec l :
  r_command l = if _contains_command_injection (l_sanitized l)
                then warn command_warning l else l.
Proof. reflexivity. Qed.

Lemma q_sql_effect query :
  l_sanitized (q_sql (q_before_sql query)) = text_before_command_inbound query
  /\ l_blocked (q_sql (q_before_sql query)) = sql_detected query
  /\ l_reason (q_sql (q_before_sql query))
     = if sql_detected query then Some sql_reason else None.
Proof.
  destruct (q_before_sql_clear query) as [Hb Hr].
  pose proof (q_before_sql_text query) as Ht.
  unfold text_before_command_inbound, sql_detected.
  generalize dependent (q_before_sql query). intros l Hb Hr Ht.
  rewrite q_sql_spec, Ht.
  destruct (_contains_sql_injection (text_before_sql query));
    cbn [l_sanitized l_blocked l_reason]; auto.
Qed.

Lemma q_command_effect query :
  l_blocked (q_before_paths query) = injection_detected query
  /\ l_reason (q_before_paths query)
     = if command_detected_inbound query then Some command_reason
       else if sql_detected query then Some sql_reason else None.
Proof.
  destruct (q_sql_effect query) as (Ht & Hb & Hr).
  unfold q_before_paths.
  then_step (q_urls_harmless (q_command (q_sql (q_before_sql query)))).
  rewrite b, r. unfold injection_detected, command_detected_inbound.
  generalize dependent (q_sql (q_before_sql query)). intros l Ht Hb Hr _ _ _.
  rewrite q_command_spec, Ht.
  destruct (_contains_command_injection (text_before_command_inbound query));
    cbn [l_blocked l_reason]; rewrite ?Hb, ?Hr, ?orb_true_r, ?orb_false_r; auto.
Qed.

Lemma q_tail_blocked query :
  l_blocked (q_before_paths query) = true -> blocked (check_query query) = true.
Proof.
  intros H. rewrite check_query_steps. unfold finish. cbn [blocked].
  apply q_script_monotone. unfold q_before_script.
  then_step (q_encoding_harmless (q_length query (q_paths (q_before_paths query)))).
  then_step (q_length_harmless query (q_paths (q_before_paths query))).
  rewrite b, b0. now apply q_paths_monotone.
Qed.

Lemma q_tail_reason query :
  path_detected query = false -> script_detected query = false ->
  reason (check_query query) = l_reason (q_before_paths query).
Proof.
  unfold path_detected, script_detected. intros Hp Hs.
  rewrite check_query_steps. unfold finish. cbn [reason].
  rewrite (q_script_idle _ Hs). unfold q_before_script.
  then_step (q_encoding_harmless (q_length query (q_paths (q_before_paths query)))).
  then_step (q_length_harmless query (q_paths (q_before_paths query))).
  rewrite r, r0. now rewrite (q_paths_idle _ Hp).
Qed.

Lemma r_injection_effect result :
  l_sanitized (r_command (r_sql (r_before_sql result))) = text_before_sql result
  /\ (sql_detected result = true ->
      In sql_warning (l_warnings (r_command (r_sql (r_before_sql result)))))
  /\ (command_detected_outbound result = true ->
      In command_warning (l_warnings (r_command (r_sql (r_before_sql result))))).
Proof.
  pose proof (r_before_sql_text result) as Ht.
  unfold sql_detected, command_detected_outbound.
  generalize dependent (r_before_sql result). intros l Ht.
  rewrite r_sql_spec, Ht.
  destruct (_contains_sql_injection (text_before_sql result));
    rewrite r_command_spec; cbn [warn l_sanitized]; rewrite Ht;
    destruct (_contains_command_injection (text_before_sql result));
    cbn [warn l_sanitized l_warnings];
    (split; [first [reflexivity | exact Ht]|]); split; intros H;
    try discriminate H; rewrite ?in_app_iff; cbn [In]; auto.
Qed.

Lemma check_result_keeps result w :
  In w (l_warnings (r_command (r_sql (r_before_sql result)))) ->
  In w (warnings (check_result result)).
Proof.
  rewrite check_result_steps. unfold finish, r_after_pii. cbn [warnings].
  apply keeps_In, r_after_command_harmless.
Qed.

Lemma check_result_clear result :
  blocked (check_result result) = false
  /\ passed (check_result result) = true
  /\ reason (check_result result) = None.
Proof.
  rewrite check_result_steps. unfold finish. cbn [blocked passed reason].
  then_step (r_after_pii_harmless result (r_before_sql result)).
  destruct (r_before_sql_harmless result) as [Hb Hr].
  rewrite b, r, Hb. auto.
Qed.

Lemma passed_not_blocked query :
  blocked (check_query query) = true -> passed (check_query query) = false.
Proof.
  rewrite check_query_steps. unfold finish. cbn [blocked passed]. now intros ->.
Qed.

Lemma inbound_detection_cases text :
  injection_detected text = true ->
  sql_detected text = true \/ command_detected_inbound text = true.
Proof. unfold injection_detected. apply orb_true_iff. Qed.

(** A pattern detected inbound is detected outbound. *)
Lemma outbound_detection text :
  injection_detected text = true ->
  sql_detected text || command_detected_outbound text = true.
Proof.
  unfold injection_detected, command_detected_inbound, command_detected_outbound,
    text_before_command_inbound.
  now destruct (sql_detected text).
Qed.

(** C10.  Whatever the text, the outbound check does not block: its
    verdict has [blocked = False] and [passed = True], and no reason. *)
Theorem check_result_never_blocks (result : string) :
  blocked (check_result result) = false
  /\ passed (check_result result) = true
  /\ reason (check_result result) = None.
Proof.
  rewrite check_result_steps. unfold finish. cbn [blocked passed reason].
  (* the first three heuristics *)
  destruct (r_before_sql_harmless result) as [Hblocked Hreason].
  (* the two injection heuristics *)
  then_step (r_sql_harmless (r_before_sql result)).
  then_step (r_command_harmless (r_sql (r_before_sql result))).
  (* the five heuristics that remain *)
  then_step (r_after_command_harmless result (r_command (r_sql (r_before_sql result)))).
  unfold r_after_pii.
  assert (Hfinal : l_blocked (r_after_command result
                                (r_command (r_sql (r_before_sql result)))) = false)
    by congruence.
  rewrite Hfinal. repeat split. congruence.
Qed.

(** C2, as amended.  When the inbound check detects an SQL or a command
    injection pattern (in the text as the first three heuristics leave
    it), its verdict is blocked and not passed, and its reason names the
    injection pattern, the command one when both are detected, provided
    that neither the sensitive-path nor the script heuristic, which run
    later, overwrites it.  The outbound check of the same text detects a
    pattern too, does not block, gives no reason, adds the matching
    warning, and its two injection heuristics leave the text untouched. *)
Theorem injection_blocked_inbound_flagged_outbound (text : string) :
  injection_detected text = true ->
  blocked (check_query text) = true
  /\ passed (check_query text) = false
  /\ (path_detected text = false -> script_detected text = false ->
      reason (check_query text)
      = Some (if command_detected_inbound text then command_reason else sql_reason))
  /\ blocked (check_result text) = false
  /\ reason (check_result text) = None
  /\ sql_detected text || command_detected_outbound text = true
  /\ (sql_detected text = true -> In sql_warning (warnings (check_result text)))
  /\ (command_detected_outbound text = true ->
      In command_warning (warnings (check_result text)))
  /\ l_sanitized (r_command (r_sql (r_before_sql text)))
     = l_sanitized (r_before_sql text).
Proof.
  intros Hdet.
  destruct (q_command_effect text) as [Hb Hr].
  destruct (check_result_clear text) as (Rb & _ & Rr).
  destruct (r_injection_effect text) as (Rt & Rs & Rc).
  assert (Hblocked : blocked (check_query text) = true).
  { apply q_tail_blocked. now rewrite Hb. }
  repeat split.
  - exact Hblocked.
  - apply passed_not_blocked, Hblocked.
  - intros Hp Hs. rewrite (q_tail_reason _ Hp Hs), Hr.
    apply inbound_detection_cases in Hdet.
    destruct (command_detected_inbound text); [reflexivity|].
    destruct Hdet as [-> | H]; [reflexivity | discriminate H].
  - exact Rb.
  - exact Rr.
  - now apply outbound_detection.
  - intros H. apply check_result_keeps. auto.
  - intros H. apply check_result_keeps. auto.
  - now rewrite Rt, r_before_sql_text.
Qed.

(** The example of the specification. *)
Lemma injection_blocked_inbound_flagged_outbound_witness :
  injection_detected "SELECT * FROM users WHERE id=1 OR 1=1" = true
  /\ blocked (check_query "SELECT * FROM users WHERE id=1 OR 1=1") = true
  /\ reason (check_query "SELECT * FROM users WHERE id=1 OR 1=1") = Some sql_reason
  /\ blocked (check_result "SELECT * FROM users WHERE id=1 OR 1=1") = false
  /\ In sql_warning (warnings (check_result "SELECT * FROM users WHERE id=1 OR 1=1")).
Proof.
  assert (Hdet : injection_detected "SELECT * FROM users WHERE id=1 OR 1=1" = true)
    by (vm_compute; reflexivity).
  destruct (injection_blocked_inbound_flagged_outbound _ Hdet)
    as (Hb & _ & Hr & Rb & _ & _ & Rs & _).
  split; [exact Hdet|]. split; [exact Hb|]. split; [|split; [exact Rb|]].
  - rewrite Hr by (vm_compute; reflexivity).
    assert (Hc : command_detected_inbound "SELECT * FROM users WHERE id=1 OR 1=1" = false)
      by (vm_compute; reflexivity).
    now rewrite Hc.
  - apply Rs. vm_compute. reflexivity.
Defined.

(** C2, as stated, fails: an SQL pattern is detected in this query, and
    the reason of the verdict names the sensitive path found after it,
    not the injection pattern. *)
Lemma injection_reason_overwritten :
  let query := "SELECT /etc/passwd"%string in
  injection_detected query = true
  /\ blocked (check_query query) = true
  /\ reason (check_query query) = Some "Sensitive file path detected in query"%string
  /\ reason (check_query query) <> Some sql_reason
  /\ reason (check_query query) <> Some command_reason.
Proof.
  cbv zeta.
  assert (Hr : reason (check_query "SELECT /etc/passwd")
               = Some "Sensitive file path detected in query"%string)
    by (vm_compute; reflexivity).
  split; [vm_compute; reflexivity|]. split; [vm_compute; reflexivity|].
  split; [exact Hr|]. rewrite Hr. split; intros H; discriminate H.
Qed.

(** Detection is about the text as the first three heuristics leave
    it: this query matches the first SQL pattern as it stands, the PII
    heuristic rewrites its address, nothing is detected afterwards and
    the query is not blocked. *)
Example pattern_lost_to_pii_redaction :
  _contains_sql_injection "and@b.com=" = true
  /\ injection_detected "and@b.com=" = false
  /\ blocked (check_query "and@b.com=") = false
  /\ sanitized_content (check_query "and@b.com=") = "[EMAIL: b.com]="%string.
Proof. vm_compute. repeat split. Qed.

End GuardrailFacts.

(* ===================================================================== *)
(** * Facts about texts *)
(* ===================================================================== *)

Module PyFacts.

Import Py.

Lemma app_assoc (a b c : string) : ((a ++ b) ++ c = a ++ (b ++ c))%string.
Proof. induction a as [|x a IH]; simpl; [reflexivity | now rewrite IH]. Qed.

Lemma app_nil_r (a : string) : (a ++ "" = a)%string.
Proof. induction a as [|x a IH]; simpl; [reflexivity | now rewrite IH]. Qed.

Lemma length_append (a b : string) :
  String.length (a ++ b) = String.length a + String.length b.
Proof. induction a as [|x a IH]; simpl; [reflexivity | now rewrite IH]. Qed.

Lemma startswith_nil (s : string) : startswith "" s = true.
Proof. now destruct s. Qed.

Lemma startswith_cons (c d : ascii) (p s : string) :
  startswith (String c p) (String d s) = true <-> c = d /\ startswith p s = true.
Proof.
  unfold startswith. simpl. destruct (ascii_dec c d) as [->|Hne].
  - tauto.
  - split; [discriminate | intros [H _]; contradiction].
Qed.

Lemma startswith_app (p s : string) : startswith p (p ++ s) = true.
Proof.
  induction p as [|c p IH]; simpl.
  - apply startswith_nil.
  - apply startswith_cons. auto.
Qed.

Lemma startswith_split (p s : string) :
  startswith p s = true -> exists t, (s = p ++ t)%string.
Proof.
  revert s. induction p as [|c p IH]; intros s H.
  - now exists s.
  - destruct s as [|d s]; [discriminate H|].
    apply startswith_cons in H. destruct H as [-> H].
    destruct (IH s H) as [t ->]. now exists t.
Qed.

Lemma contains_here (p s : string) : startswith p s = true -> contains p s = true.
Proof. intros H. destruct s; cbn [contains]; now rewrite H. Qed.

Lemma contains_later (p : string) (c : ascii) (s : string) :
  contains p s = true -> contains p (String c s) = true.
Proof. intros H. cbn [contains]. rewrite H. apply orb_true_r. Qed.

(** A text that has [p] somewhere inside contains it. *)
Lemma contains_intro (a p b : string) : contains p (a ++ p ++ b) = true.
Proof.
  induction a as [|x a IH]; simpl append.
  - apply contains_here, startswith_app.
  - now apply contains_later.
Qed.

Lemma contains_elim (p s : string) :
  contains p s = true -> exists a b, (s = a ++ p ++ b)%string.
Proof.
  induction s as [|c s IH]; cbn [contains]; intros H.
  - rewrite orb_false_r in H. apply startswith_split in H.
    destruct H as [t ->]. now exists ""%string, t.
  - apply orb_true_iff in H. destruct H as [H|H].
    + apply startswith_split in H. destruct H as [t ->]. now exists ""%string, t.
    + destruct (IH H) as (a & b & ->). now exists (String c a), b.
Qed.

Lemma map_chars_app (f : ascii -> ascii) (a b : string) :
  (map_chars f (a ++ b) = map_chars f a ++ map_chars f b)%string.
Proof. induction a as [|x a IH]; simpl; [reflexivity | now rewrite IH]. Qed.

(** ** Texts that keep a phrase *)

(** [p] occurs in [s]. *)
Definition occurs (p s : string) : Prop := exists a b, (s = a ++ p ++ b)%string.

Lemma occurs_contains (p s : string) : occurs p s <-> contains p s = true.
Proof.
  split.
  - intros (a & b & ->). apply contains_intro.
  - apply contains_elim.
Qed.

Lemma occurs_map (f : ascii -> ascii) (p s : string) :
  occurs p s -> occurs (map_chars f p) (map_chars f s).
Proof.
  intros (a & b & ->). exists (map_chars f a), (map_chars f b).
  now rewrite !map_chars_app.
Qed.

Lemma occurs_prepend (u p s : string) : occurs p s -> occurs p (u ++ s).
Proof.
  intros (a & b & ->). exists (u ++ a)%string, b. now rewrite app_assoc.
Qed.

Lemma occurs_cons (c : ascii) (p s : string) : occurs p s -> occurs p (String c s).
Proof. apply (occurs_prepend (String c "")). Qed.

(** Every character of [s] satisfies [P]. *)
Fixpoint all_chars (P : ascii -> bool) (s : string) : bool :=
  match s with
  | EmptyString => true
  | String c s' => P c && all_chars P s'
  end.

Definition first_char (P : ascii -> bool) (s : string) : bool :=
  match s with
  | EmptyString => false
  | String c _ => P c
  end.

Fixpoint last_char (P : ascii -> bool) (s : string) : bool :=
  match s with
  | EmptyString => false
  | String c EmptyString => P c
  | String _ s' => last_char P s'
  end.

Lemma last_char_split (P : ascii -> bool) (s : string) :
  last_char P s = true -> exists s0 z, (s = s0 ++ String z "")%string /\ P z = true.
Proof.
  induction s as [|c s IH]; [discriminate|].
  destruct s as [|d s].
  - intros H. now exists ""%string, c.
  - intros H. destruct (IH H) as (s0 & z & -> & Hz).
    now exists (String c s0), z.
Qed.

(** Stripping on the left keeps a phrase that does not begin with a
    stripped character. *)
Lemma lstrip_keeps (P : ascii -> bool) (p s : string) :
  first_char (fun c => negb (P c)) p = true ->
  occurs p s -> occurs p (lstrip_by P s).
Proof.
  destruct p as [|c p]; [discriminate|]. cbn [first_char]. intros Hc (a & b & ->).
  induction a as [|x a IH]; simpl.
  - apply negb_true_iff in Hc. rewrite Hc. now exists ""%string, b.
  - destruct (P x); [exact IH|]. now exists (String x a), b.
Qed.

Lemma rstrip_kept_char (P : ascii -> bool) (u : string) (z : ascii) (v : string) :
  P z = false ->
  (rstrip_by P (u ++ String z v) = u ++ String z (rstrip_by P v))%string.
Proof.
  intros Hz. induction u as [|x u IH]; cbn [append rstrip_by].
  - destruct (rstrip_by P v); now rewrite ?Hz.
  - rewrite IH. now destruct u.
Qed.

(** Stripping on the right keeps a phrase that does not end with a
    stripped character. *)
Lemma rstrip_keeps (P : ascii -> bool) (p s : string) :
  last_char (fun c => negb (P c)) p = true ->
  occurs p s -> occurs p (rstrip_by P s).
Proof.
  intros Hl (a & b & ->). apply last_char_split in Hl.
  destruct Hl as (p0 & z & -> & Hz). apply negb_true_iff in Hz.
  replace (a ++ (p0 ++ String z "") ++ b)%string
    with ((a ++ p0) ++ String z b)%string
    by (now rewrite !app_assoc).
  rewrite (rstrip_kept_char P _ z b Hz).
  exists a, (rstrip_by P b). now rewrite !app_assoc.
Qed.

Lemma strip_keeps (p s : string) :
  first_char (fun c => negb (is_space c)) p = true ->
  last_char (fun c => negb (is_space c)) p = true ->
  occurs p s -> occurs p (strip s).
Proof.
  intros Hf Hl H. unfold strip, strip_by.
  now apply rstrip_keeps, lstrip_keeps.
Qed.

(** ** Replacement keeps a phrase that shares no character with what is
    replaced *)

Definition foreign (old : string) (c : ascii) : bool := negb (mem_char c old).
Definition native (old : string) (c : ascii) : bool := mem_char c old.

Lemma native_suffix (u w : string) :
  all_chars (native (u ++ w)) w = true.
Proof.
  revert u. induction w as [|c w IH]; intros u; [reflexivity|].
  cbn [all_chars]. apply andb_true_iff. split.
  - clear IH. unfold native. induction u as [|x u IHu]; simpl.
    + now rewrite Ascii.eqb_refl.
    + rewrite IHu. apply orb_true_r.
  - replace (u ++ String c w)%string with ((u ++ String c "") ++ w)%string
      by (now rewrite app_assoc).
    apply IH.
Qed.

(** The characters that remain to be passed over are passed over. *)
Lemma replace_go_skip (old new w t : string) :
  t <> ""%string ->
  replace_go old new (String.length w) (w ++ t) = replace_go old new 0 t.
Proof.
  intros Ht. induction w as [|c w IH]; simpl.
  - reflexivity.
  - exact IH.
Qed.

(** No occurrence of [old] begins inside a phrase of foreign
    characters. *)
Lemma replace_go_foreign (old new p b : string) :
  old <> ""%string ->
  all_chars (foreign old) p = true ->
  (replace_go old new 0 (p ++ b) = p ++ replace_go old new 0 b)%string.
Proof.
  intros Hold. induction p as [|c p IH]; [reflexivity|].
  cbn [all_chars append]. intros H. apply andb_true_iff in H. destruct H as [Hc Hp].
  cbn [replace_go].
  destruct (startswith old (String c (p ++ b))) eqn:E.
  - destruct old as [|o old']; [contradiction|].
    apply startswith_cons in E. destruct E as [<- _].
    unfold foreign in Hc. simpl in Hc. now rewrite Ascii.eqb_refl in Hc.
  - now rewrite (IH Hp).
Qed.

(** A run of native characters at the head of [a ++ c :: r], where [c]
    is foreign, lies inside [a]. *)
Lemma native_run_inside (old w t a : string) (c : ascii) (r : string) :
  all_chars (native old) w = true -> foreign old c = true ->
  (w ++ t = a ++ String c r)%string ->
  exists a2, (a = w ++ a2)%string.
Proof.
  revert a. induction w as [|x w IH]; intros a Hw Hc E.
  - now exists a.
  - cbn [all_chars] in Hw. apply andb_true_iff in Hw. destruct Hw as [Hx Hw].
    destruct a as [|y a]; simpl in E.
    + injection E as -> _. unfold foreign, native in *. now rewrite Hx in Hc.
    + injection E as -> E. destruct (IH a Hw Hc E) as [a2 ->]. now exists a2.
Qed.

Lemma replace_go_keeps (old new : string) (n : nat) (c : ascii) (p' b a : string) :
  old <> ""%string ->
  all_chars (foreign old) (String c p') = true ->
  String.length a <= n ->
  occurs (String c p') (replace_go old new 0 (a ++ String c p' ++ b)).
Proof.
  intros Hold Hp. revert a.
  assert (Hc : foreign old c = true).
  { cbn [all_chars] in Hp. now apply andb_true_iff in Hp. }
  remember (String c p' ++ b)%string as q eqn:Hq.
  induction n as [|n IH]; intros a Ha.
  - destruct a; [|simpl in Ha; lia]. change (""  ++ q)%string with q. subst q.
    rewrite (replace_go_foreign old new (String c p') b Hold Hp).
    now exists ""%string, (replace_go old new 0 b).
  - destruct a as [|x a]; [apply IH; simpl; lia|].
    change (String x a ++ q)%string with (String x (a ++ q)). cbn [replace_go].
    destruct (startswith old (String x (a ++ q))) eqn:E.
    + destruct old as [|o old']; [contradiction|].
      apply startswith_cons in E.
      destruct E as [-> E]. apply startswith_split in E. destruct E as [t E].
      assert (Hn : all_chars (native (String x old')) old' = true)
        by apply (native_suffix (String x "") old').
      symmetry in E. rewrite Hq in E.
      change (String c p' ++ b)%string with (String c (p' ++ b)) in E.
      destruct (native_run_inside _ _ _ _ _ _ Hn Hc E) as [a2 ->].
      apply occurs_prepend.
      replace (String.length (String x old') - 1) with (String.length old')
        by (simpl; lia).
      rewrite app_assoc, replace_go_skip.
      * apply IH. simpl in Ha. rewrite length_append in Ha. lia.
      * rewrite Hq. destruct a2; discriminate.
    + apply occurs_cons. apply IH. simpl in Ha. lia.
Qed.

Lemma replace_keeps (old new p s : string) :
  first_char (fun _ => true) p = true ->
  all_chars (foreign old) p = true ->
  occurs p s -> occurs p (replace old new s).
Proof.
  intros Hf Hp (a & b & ->). unfold replace.
  destruct old as [|o old'] eqn:Eo; [now exists a, b|]. rewrite <- Eo in *.
  destruct p as [|c p']; [discriminate Hf|].
  apply (replace_go_keeps old new (String.length a) c p' b a); auto.
  now rewrite Eo.
Qed.

End PyFacts.

(* ===================================================================== *)
(** * Facts about the matcher *)
(* ===================================================================== *)

Module ReFacts.

Import Re.

(** When [re.search] finds the pattern, [re.sub] puts the replacement of
    a match into the text. *)
Lemma search_sub_with (f : flags) (r : regex) (repl : string -> string)
      (prev : option ascii) (s : string) :
  search_from f r prev s <> None ->
  exists a m b, (render repl (pieces_go f r 0 prev s) = a ++ repl m ++ b)%string.
Proof.
  revert prev. induction s as [|c s IH]; intros prev H; simpl in *.
  - destruct (match_here f r false prev ""); [|contradiction].
    exists ""%string, ""%string, ""%string. reflexivity.
  - destruct (match_here f r false prev (String c s)) as [[|n]|].
    + eexists ""%string, ""%string, _. reflexivity.
    + eexists ""%string, _, _. reflexivity.
    + destruct (search_from f r (Some c) s) as [found|] eqn:E; [|contradiction].
      destruct (IH (Some c)) as (a & m & b & Hr); [now rewrite E|].
      exists (String c a), m, b. simpl. now rewrite Hr.
Qed.

Lemma search_sub (f : flags) (r : regex) (repl s : string) :
  search f r s = true -> Py.contains repl (sub f r repl s) = true.
Proof.
  unfold search, sub, sub_with, pieces. intros H.
  destruct (search_sub_with f r (fun _ => repl) None s) as (a & m & b & ->).
  - destruct (search_from f r None s); [discriminate | discriminate H].
  - apply PyFacts.contains_intro.
Qed.

End ReFacts.

(* ===================================================================== *)
(** * The pass over the SSN pattern leaves no SSN *)
(* ===================================================================== *)

Module SsnFacts.

Import Re Guardrail.

(** ** Where the pattern matches

    A match of [\b\d{3}-\d{2}-\d{4}\b] begins at a digit that no word
    character precedes, goes on with ten characters of the shape
    [dd-dd-dddd], and is followed by no word character. *)
Definition dash (c : ascii) : bool := Ascii.eqb c "-".

(** The ten characters that follow the first digit. *)
Definition shape10 (u : string) : bool :=
  match u with
  | String d2 (String d3 (String h1 (String d4 (String d5 (String h2
      (String d6 (String d7 (String d8 (String d9 EmptyString))))))))) =>
      Py.is_digit d2 && (Py.is_digit d3 && (dash h1 && (Py.is_digit d4 && (Py.is_digit d5
      && (dash h2 && (Py.is_digit d6 && (Py.is_digit d7 && (Py.is_digit d8 && Py.is_digit d9))))))))
  | _ => false
  end.

(** A match begins at [s], the character before being [prev]. *)
Definition ssn_at (prev : option ascii) (s : string) : bool :=
  match s with
  | EmptyString => false
  | String c t =>
      negb (word_opt prev)
      && (Py.is_digit c && (shape10 (Py.take 10 t) && negb (word_opt (head (Py.drop 10 t)))))
  end.

Lemma digit_word c : Py.is_digit c = true -> Py.is_word c = true.
Proof. unfold Py.is_word. intros ->. now rewrite !orb_true_r. Qed.

Lemma atom_digit c : atom_matches no_flags digit c = Py.is_digit c.
Proof. unfold atom_matches, digit, set_has. cbn [ignorecase no_flags existsb item_has xorb]. apply orb_false_r. Qed.

Lemma atom_dash c : atom_matches no_flags (Chr "-") c = dash c.
Proof. reflexivity. Qed.

Lemma rep_zero f a prev s k : rep_greedy f a 0 (Some 0) prev s k = k prev s.
Proof. now destruct s. Qed.

Lemma eleven_more (n : nat) : S (S (S (S (S (S (S (S (S (S (S n)))))))))) - n = 11.
Proof. lia. Qed.

Lemma if_none (b : bool) : (if b then @None nat else None) = None.
Proof. now destruct b. Qed.

Ltac lhs_none :=
  repeat (rewrite ?if_none; 
          match goal with
          | |- context [if ?b then _ else _] => destruct b; cbn beta iota
          end);
  rewrite ?if_none; try reflexivity.

Ltac short :=
  cbn [run rep_greedy Py.take Py.drop shape10 head word_opt andb negb String.length pred option_map];
  rewrite ?andb_false_r; cbn [andb]; lhs_none.

Ltac digit c :=
  rewrite ?atom_digit;
  destruct (Py.is_digit c) eqn:?; cbn [andb negb]; rewrite ?if_none; try reflexivity.
Ltac hyphen c :=
  change (atom_matches no_flags (Chr "-") c) with (dash c);
  destruct (dash c) eqn:?; cbn [andb negb]; rewrite ?if_none; try reflexivity.

(** The matcher, run on the pattern, finds exactly these places, and a
    match has eleven characters. *)
Lemma match_here_ssn ne prev s :
  match_here no_flags (rx ssn_pattern) ne prev s = if ssn_at prev s then Some 11 else None.
Proof.
  unfold match_here, ssn_pattern, rx, ssn_at.
  cbn [cats times lit run rep_greedy pred option_map negb andb].
  destruct s as [|c1 s]; [short|].
  destruct s as [|c2 s]; [short|].
  destruct s as [|c3 s]; [short|].
  destruct s as [|c4 s]; [short|].
  destruct s as [|c5 s]; [short|].
  destruct s as [|c6 s]; [short|].
  destruct s as [|c7 s]; [short|].
  destruct s as [|c8 s]; [short|].
  destruct s as [|c9 s]; [short|].
  destruct s as [|c10 s]; [short|].
  destruct s as [|c11 s]; [short|].
  cbn [run rep_greedy Py.take Py.drop shape10 head word_opt pred option_map].
  rewrite !atom_digit, !atom_dash.
  destruct (word_opt prev) eqn:Wp; destruct (Py.is_digit c1) eqn:D1;
    try rewrite (digit_word _ D1); cbn [xorb negb andb]; rewrite ?if_none; try reflexivity.
  digit c2. digit c3. hyphen c4. digit c5. digit c6. hyphen c7. digit c8. digit c9. digit c10.
  digit c11.
  rewrite rep_zero. cbn [word_opt String.length].
  rewrite (digit_word c11) by assumption. rewrite eleven_more.
  rewrite andb_false_r.
  destruct (word_opt (head s)); reflexivity.
Qed.


(** ** What the pass writes *)

Definition ssn_marker : string := "[SSN REDACTED]".

(** The output of the pass from a place of the text on. *)
Definition redacted (prev : option ascii) (s : string) : string :=
  render (fun _ => ssn_marker) (pieces_go no_flags (rx ssn_pattern) 0 prev s).

(** The character before the place reached after [k] characters. *)
Fixpoint prev_after (k : nat) (prev : option ascii) (s : string) : option ascii :=
  match k, s with
  | S k', String c s' => prev_after k' (Some c) s'
  | _, _ => prev
  end.

Lemma pieces_nil prev k : pieces_go no_flags (rx ssn_pattern) k prev "" = [].
Proof. destruct k; cbn [pieces_go]; [|reflexivity]. now rewrite match_here_ssn. Qed.

Lemma pieces_skip k prev s :
  pieces_go no_flags (rx ssn_pattern) k prev s
  = pieces_go no_flags (rx ssn_pattern) 0 (prev_after k prev s) (Py.drop k s).
Proof.
  revert prev s. induction k as [|k IH]; intros prev s.
  - now destruct s.
  - destruct s as [|c s]; [now rewrite !pieces_nil|].
    cbn [pieces_go prev_after Py.drop]. apply IH.
Qed.

Lemma redacted_nil prev : redacted prev "" = "".
Proof. unfold redacted. now rewrite pieces_nil. Qed.

(** A match is replaced by the marker and the pass goes on after its
    eleven characters; any other character is kept. *)
Lemma redacted_cons prev c t :
  redacted prev (String c t)
  = if ssn_at prev (String c t)
    then ssn_marker ++ redacted (prev_after 10 (Some c) t) (Py.drop 10 t)
    else String c (redacted (Some c) t).
Proof.
  unfold redacted. cbn [pieces_go]. rewrite match_here_ssn.
  destruct (ssn_at prev (String c t)).
  - cbn [render]. now rewrite pieces_skip.
  - reflexivity.
Qed.

(** ** No match is left

    No match of the pattern begins at any place of [s]. *)
Fixpoint clean (prev : option ascii) (s : string) : bool :=
  negb (ssn_at prev s) &&
  match s with
  | EmptyString => true
  | String c t => clean (Some c) t
  end.

Lemma clean_search prev s :
  clean prev s = true -> search_from no_flags (rx ssn_pattern) prev s = None.
Proof.
  revert prev. induction s as [|c s IH]; intros prev H; cbn [clean search_from] in *;
    apply andb_true_iff in H; destruct H as [Hn Hc]; apply negb_true_iff in Hn;
    rewrite match_here_ssn, Hn.
  - reflexivity.
  - now rewrite (IH _ Hc).
Qed.

Lemma ssn_at_nondigit prev c t : Py.is_digit c = false -> ssn_at prev (String c t) = false.
Proof. intros H. cbn [ssn_at]. rewrite H. apply andb_false_r. Qed.

Lemma clean_nondigit prev c t :
  Py.is_digit c = false -> clean prev (String c t) = clean (Some c) t.
Proof. intros H. cbn [clean]. now rewrite (ssn_at_nondigit _ _ _ H). Qed.

(** No match begins inside the marker, which holds no digit. *)
Lemma clean_mark prev x : clean (Some "]"%char) x = true -> clean prev (ssn_marker ++ x) = true.
Proof.
  intros H. unfold ssn_marker. cbn [append].
  repeat (rewrite clean_nondigit by reflexivity). exact H.
Qed.

Definition no_bracket (u : string) : bool :=
  PyFacts.all_chars (fun c => negb (Ascii.eqb c "[")) u.

Lemma digit_no_bracket c : Py.is_digit c = true -> negb (Ascii.eqb c "[") = true.
Proof.
  intros H. destruct (Ascii.eqb c "[") eqn:E; [|reflexivity].
  apply Ascii.eqb_eq in E. subst c. discriminate H.
Qed.

Lemma dash_no_bracket c : dash c = true -> negb (Ascii.eqb c "[") = true.
Proof.
  unfold dash. intros H. apply Ascii.eqb_eq in H. now subst c.
Qed.

(** As long as the output shows no bracket, it is the input. *)
Lemma redacted_agrees n prev t :
  no_bracket (Py.take n (redacted prev t)) = true ->
  Py.take n (redacted prev t) = Py.take n t
  /\ Py.drop n (redacted prev t) = redacted (prev_after n prev t) (Py.drop n t).
Proof.
  revert prev t. induction n as [|n IH]; intros prev t H.
  - split; reflexivity.
  - destruct t as [|c t]; [cbn [prev_after Py.drop]; rewrite !redacted_nil; now split|].
    rewrite redacted_cons in *. destruct (ssn_at prev (String c t)).
    + discriminate H.
    + cbn [Py.take Py.drop prev_after no_bracket PyFacts.all_chars] in *.
      apply andb_true_iff in H. destruct H as [_ H].
      destruct (IH (Some c) t H) as [E1 E2]. now rewrite E1, E2.
Qed.

(** After a word character the output begins as the input does. *)
Lemma redacted_head prev t :
  word_opt prev = true -> head (redacted prev t) = head t.
Proof.
  intros H. destruct t as [|c t]; [now rewrite redacted_nil|].
  rewrite redacted_cons. cbn [ssn_at]. now rewrite H.
Qed.

Ltac next_char t c H :=
  destruct t as [|c t]; [discriminate H|].

Lemma shape10_facts prev t :
  shape10 (Py.take 10 t) = true ->
  no_bracket (Py.take 10 t) = true /\ word_opt (prev_after 10 prev t) = true.
Proof.
  intros H.
  next_char t c1 H. next_char t c2 H. next_char t c3 H. next_char t c4 H.
  next_char t c5 H. next_char t c6 H. next_char t c7 H. next_char t c8 H.
  next_char t c9 H. next_char t c10 H.
  cbn [Py.take shape10 prev_after word_opt no_bracket PyFacts.all_chars] in *.
  do 9 (apply andb_true_iff in H; destruct H as [? H]).
  split.
  - repeat (apply andb_true_iff; split);
      first [ apply digit_no_bracket; assumption
            | apply dash_no_bracket; assumption
            | reflexivity ].
  - now apply digit_word.
Qed.

(** A place of the input where no match begins is a place of the output
    where no match begins. *)
Lemma kept_place_clean prev prev_out c t :
  ssn_at prev (String c t) = false ->
  word_opt prev_out = word_opt prev ->
  ssn_at prev_out (String c (redacted (Some c) t)) = false.
Proof.
  intros Hin Hprev.
  destruct (ssn_at prev_out (String c (redacted (Some c) t))) eqn:Hout; [|reflexivity].
  rewrite <- Hin. cbn [ssn_at] in *. rewrite Hprev in Hout.
  apply andb_true_iff in Hout. destruct Hout as [Hp Hout].
  apply andb_true_iff in Hout. destruct Hout as [Hd Hout].
  apply andb_true_iff in Hout. destruct Hout as [Hs Hw].
  assert (Hb : no_bracket (Py.take 10 (redacted (Some c) t)) = true).
  { destruct (shape10_facts None (redacted (Some c) t) Hs) as [Hb _]. exact Hb. }
  destruct (redacted_agrees 10 (Some c) t Hb) as [Etake Edrop].
  rewrite Etake in Hs.
  destruct (shape10_facts (Some c) t Hs) as [_ Hword].
  rewrite Edrop, (redacted_head _ _ Hword) in Hw.
  now rewrite Hp, Hd, Hs, Hw.
Qed.

Lemma drop_length k s : String.length (Py.drop k s) <= String.length s.
Proof.
  revert s. induction k as [|k IH]; intros s; [now destruct s|].
  destruct s as [|c s]; [reflexivity|]. cbn [Py.drop String.length].
  specialize (IH s). lia.
Qed.

Lemma not_word_not_digit c : Py.is_word c = false -> Py.is_digit c = false.
Proof.
  intros H. destruct (Py.is_digit c) eqn:D; [|reflexivity].
  now rewrite (digit_word _ D) in H.
Qed.

(** The output holds no match, from any place on; [prev_out] is the
    character before that place in the output, which is the one of the
    input or the bracket that closes a marker. *)
Lemma redacted_clean n :
  forall s, String.length s <= n ->
  forall prev prev_out,
    word_opt prev_out = word_opt prev \/ word_opt (head s) = false ->
    clean prev_out (redacted prev s) = true.
Proof.
  induction n as [|n IH]; intros s Hlen prev prev_out Hrel.
  - destruct s; [|cbn in Hlen; lia]. now rewrite redacted_nil.
  - destruct s as [|c t]; [now rewrite redacted_nil|].
    cbn [String.length] in Hlen. rewrite redacted_cons.
    destruct (ssn_at prev (String c t)) eqn:Hat.
    + apply clean_mark. apply IH.
      * pose proof (drop_length 10 t). lia.
      * right. cbn [ssn_at] in Hat.
        do 3 (apply andb_true_iff in Hat; destruct Hat as [? Hat]).
        now apply negb_true_iff.
    + cbn [clean]. apply andb_true_iff. split.
      * apply negb_true_iff. destruct Hrel as [Hrel|Hrel].
        -- now apply (kept_place_clean prev).
        -- apply ssn_at_nondigit, not_word_not_digit, Hrel.
      * apply IH; [lia | now left].
Qed.

(** [re.search] finds no SSN in what [re.sub] makes of a text. *)
Lemma no_ssn_after_ssn_pass text :
  search no_flags (rx ssn_pattern)
         (sub no_flags (rx ssn_pattern) "[SSN REDACTED]" text) = false.
Proof.
  unfold search, sub, sub_with, pieces.
  change (render (fun _ => "[SSN REDACTED]") (pieces_go no_flags (rx ssn_pattern) 0 None text))
    with (redacted None text).
  rewrite (clean_search None (redacted None text)); [reflexivity|].
  apply (redacted_clean (String.length text)); [lia | now left].
Qed.

End SsnFacts.

(* ===================================================================== *)
(** * Personal data in the outbound text *)
(* ===================================================================== *)

Module PiiFacts.

Import Re Guardrail GuardrailFacts.
Local Open Scope list_scope.

(** The four passes of [_sanitize_pii]. *)
Definition after_ssn (text : string) : string :=
  sub no_flags (rx ssn_pattern) "[SSN REDACTED]" text.

Definition after_card (text : string) : string :=
  sub no_flags (rx credit_card_pattern) "[CARD REDACTED]" (after_ssn text).

Definition after_email (text : string) : string :=
  sub_with no_flags (rx email_pattern) email_replacement (after_card text).

Definition after_phone (text : string) : string :=
  sub no_flags (rx phone_pattern) "[PHONE REDACTED]" (after_email text).

Lemma _sanitize_pii_passes text : _sanitize_pii text = after_phone text.
Proof. reflexivity. Qed.

Definition pii_warning (found : list string) : string :=
  ("PII detected in result: " ++ Py.join ", " found)%string.

Lemma detect_ssn text :
  search no_flags (rx ssn_pattern) text = true -> In "SSN"%string (_detect_pii text).
Proof.
  intros H. unfold _detect_pii, pii_patterns. cbn [filter]. rewrite H.
  left. reflexivity.
Qed.

Lemma detect_email text :
  search no_flags (rx email_pattern) text = true -> In "EMAIL"%string (_detect_pii text).
Proof.
  intros H. unfold _detect_pii, pii_patterns. cbn [filter]. rewrite H.
  destruct (search no_flags (rx ssn_pattern) text),
           (search no_flags (rx credit_card_pattern) text);
    cbn [map In]; auto 6.
Qed.

Lemma r_pii_found l :
  _detect_pii (l_sanitized l) <> [] ->
  r_pii l = rewrite (_sanitize_pii (l_sanitized l))
                    (warn (pii_warning (_detect_pii (l_sanitized l))) l).
Proof.
  unfold r_pii. destruct (_detect_pii (l_sanitized l)); [contradiction | reflexivity].
Qed.

(** A match that [re.sub] visits is replaced. *)
Lemma render_matched (repl : string -> string) (ps : list piece) (m : string) :
  In m (matched_texts ps) -> PyFacts.occurs (repl m) (render repl ps).
Proof.
  induction ps as [|[m'|c] ps IH]; cbn [matched_texts render In].
  - contradiction.
  - intros [->|H].
    + exists ""%string, (render repl ps). reflexivity.
    + now apply PyFacts.occurs_prepend, IH.
  - intros H. now apply PyFacts.occurs_cons, IH.
Qed.




End PiiFacts.

(* ===================================================================== *)
(** * Properties of the semantic memory *)
(* ===================================================================== *)

Module IndexerFacts.

Import ConversationIndexer.
Local Open Scope list_scope.
Local Open Scope Z_scope.

(** The metadata has as many entries as the index has vectors. *)
Definition consistent (self : ConversationIndexer) : Prop :=
  Z.of_nat (List.length (metadata self)) = get_conversation_count self.

(** The save wrote both files. *)
Definition saved (io : save_io) : Prop :=
  index_write io = Written /\ metadata_write io = Written.

(** The call added a record. *)
Definition inserted (before after : ConversationIndexer) : Prop :=
  List.length (metadata after) = S (List.length (metadata before)).

Lemma ntotal_add (i added : Index) (x : vector) :
  index_add i x = Some added -> ntotal added = ntotal i + 1.
Proof.
  unfold index_add. destruct (Nat.eqb (List.length x) (d i)); [|discriminate].
  intros [= <-]. unfold ntotal. cbn [xb]. rewrite length_app. simpl. lia.
Qed.

(** What [index_conversation] leaves in memory: the object as it was,
    but for an index created empty, or the object with one more vector
    and one more entry. *)
Lemma index_conversation_cases service now io session_id user_query final_answer
      tool_calls timestamp self dk :
  let self' := fst (index_conversation service now io session_id user_query
                      final_answer tool_calls timestamp self dk) in
  let dk' := snd (index_conversation service now io session_id user_query
                    final_answer tool_calls timestamp self dk) in
  (metadata self' = metadata self
   /\ get_conversation_count self' = get_conversation_count self
   /\ dk' = dk)
  \/ (exists added entry,
        self' = mkIndexer (Some added) (metadata self ++ [entry])
        /\ ntotal added = get_conversation_count self + 1
        /\ dk' = save_index io self' dk).
Proof.
  unfold index_conversation.
  set (embedding := get_embedding service _).
  set (the_index := match index self with Some i => i | None => _ end).
  assert (Hc : ntotal the_index = get_conversation_count self).
  { unfold the_index, get_conversation_count. now destruct (index self). }
  destruct embedding as [|x xs] eqn:E.
  - left. cbn [fst snd metadata get_conversation_count index]. auto.
  - destruct (index_add the_index (x :: xs)) as [added|] eqn:A.
    + right. cbn [fst snd]. eexists added, _. repeat split.
      rewrite (ntotal_add _ _ _ A). lia.
    + left. cbn [fst snd metadata get_conversation_count index]. auto.
Qed.

Lemma index_conversation_consistent service now io session_id user_query final_answer
      tool_calls timestamp self dk :
  consistent self ->
  consistent (fst (index_conversation service now io session_id user_query
                     final_answer tool_calls timestamp self dk)).
Proof.
  intros H.
  destruct (index_conversation_cases service now io session_id user_query
              final_answer tool_calls timestamp self dk)
    as [(Hm & Hn & _) | (added & entry & -> & Hn & _)]; unfold consistent in *.
  - now rewrite Hm, Hn.
  - cbn [metadata get_conversation_count index]. rewrite length_app, Hn. simpl. lia.
Qed.

(** Reloading two files that hold a consistent object gives a consistent
    object, whether the reads succeed or not. *)
Lemma load_saved (rio : load_io) (self : ConversationIndexer) (i : Index) :
  index self = Some i -> consistent self ->
  consistent (load_index rio (mkDisk (Stored i) (Stored (metadata self)))).
Proof.
  intros Hi H. unfold load_index, read. cbn [INDEX_FILE METADATA_FILE].
  destruct (index_read_ok rio), (metadata_read_ok rio); try reflexivity.
  unfold consistent, get_conversation_count in *. cbn [metadata index].
  now rewrite Hi in H.
Qed.

Lemma save_index_saved (io : save_io) (self : ConversationIndexer) (dk : disk)
      (i : Index) :
  index self = Some i -> saved io ->
  save_index io self dk = mkDisk (Stored i) (Stored (metadata self)).
Proof.
  intros Hi [Hw Hm]. unfold save_index. now rewrite Hi, Hw, Hm.
Qed.

(** C3, as amended.  An insertion into a memory whose metadata has as
    many entries as its index has vectors leaves it so when
    [index_conversation] returns; and when the call added a record and
    its save wrote both files, the object that [load_index] rebuilds
    from the files is so as well, whether its reads succeed or not. *)
Theorem insert_keeps_metadata_and_index_together
        service now io session_id user_query final_answer tool_calls timestamp self dk :
  consistent self ->
  consistent (fst (index_conversation service now io session_id user_query
                     final_answer tool_calls timestamp self dk))
  /\ (inserted self (fst (index_conversation service now io session_id user_query
                            final_answer tool_calls timestamp self dk)) ->
      saved io ->
      forall rio,
        consistent (load_index rio
                      (snd (index_conversation service now io session_id user_query
                              final_answer tool_calls timestamp self dk)))).
Proof.
  intros H. split.
  - now apply index_conversation_consistent.
  - pose proof (index_conversation_consistent service now io session_id user_query
                  final_answer tool_calls timestamp self dk H) as H'.
    destruct (index_conversation_cases service now io session_id user_query
                final_answer tool_calls timestamp self dk)
      as [(Hm & _ & _) | (added & entry & Hs & _ & Hd)].
    + unfold inserted. rewrite Hm. lia.
    + intros _ Hsaved rio. rewrite Hd. rewrite Hs in *.
      set (self' := mkIndexer (Some added) (metadata self ++ [entry])) in *.
      rewrite (save_index_saved io self' dk added eq_refl Hsaved).
      exact (load_saved rio self' added eq_refl H').
Qed.

(** A first insertion into an empty memory, saved without fault. *)
Lemma insert_keeps_metadata_and_index_together_witness :
  consistent (mkIndexer None [])
  /\ consistent (fst (index_conversation (fun _ => Embedding [1%Q; 2%Q]) 0%Q
                        (mkSaveIo Written Written) "s1" "my name is John"
                        "noted" None None (mkIndexer None []) (mkDisk Absent Absent)))
  /\ consistent (load_index (mkLoadIo true true)
                   (snd (index_conversation (fun _ => Embedding [1%Q; 2%Q]) 0%Q
                           (mkSaveIo Written Written) "s1" "my name is John"
                           "noted" None None (mkIndexer None []) (mkDisk Absent Absent)))).
Proof.
  assert (H : consistent (mkIndexer None [])) by reflexivity.
  destruct (insert_keeps_metadata_and_index_together
              (fun _ => Embedding [1%Q; 2%Q]) 0%Q (mkSaveIo Written Written)
              "s1" "my name is John" "noted" None None
              (mkIndexer None []) (mkDisk Absent Absent) H) as [Hmem Hdisk].
  split; [exact H|]. split; [exact Hmem|].
  apply Hdisk; [reflexivity | split; reflexivity].
Defined.

(** C3, as stated, fails.  The first insertion into an empty memory
    writes the index file; the write of the metadata file raises, which
    [save_index] catches, and [index_conversation] returns as usual.  In
    memory there is one entry for one vector; after a reload there is
    one vector and no entry. *)
Lemma failed_metadata_write_breaks_reload :
  consistent (mkIndexer None [])
  /\ inserted (mkIndexer None [])
       (fst (index_conversation (fun _ => Embedding [1%Q; 2%Q]) 0%Q
               (mkSaveIo Written (WriteRaises false)) "s1" "my name is John"
               "noted" None None (mkIndexer None []) (mkDisk Absent Absent)))
  /\ consistent
       (fst (index_conversation (fun _ => Embedding [1%Q; 2%Q]) 0%Q
               (mkSaveIo Written (WriteRaises false)) "s1" "my name is John"
               "noted" None None (mkIndexer None []) (mkDisk Absent Absent)))
  /\ get_conversation_count
       (load_index (mkLoadIo true true)
          (snd (index_conversation (fun _ => Embedding [1%Q; 2%Q]) 0%Q
                  (mkSaveIo Written (WriteRaises false)) "s1" "my name is John"
                  "noted" None None (mkIndexer None []) (mkDisk Absent Absent)))) = 1
  /\ metadata
       (load_index (mkLoadIo true true)
          (snd (index_conversation (fun _ => Embedding [1%Q; 2%Q]) 0%Q
                  (mkSaveIo Written (WriteRaises false)) "s1" "my name is John"
                  "noted" None None (mkIndexer None []) (mkDisk Absent Absent)))) = []
  /\ ~ consistent
       (load_index (mkLoadIo true true)
          (snd (index_conversation (fun _ => Embedding [1%Q; 2%Q]) 0%Q
                  (mkSaveIo Written (WriteRaises false)) "s1" "my name is John"
                  "noted" None None (mkIndexer None []) (mkDisk Absent Absent)))).
Proof.
  repeat split; try reflexivity. unfold consistent. vm_compute. discriminate.
Qed.

(** ** The embedding fallback *)

(** The embedding call did not produce an embedding. *)
Definition failed (r : embed_response) : Prop :=
  match r with
  | Embedding _ => False
  | PostRaises | HttpError | NoEmbedding => True
  end.

Lemma zeros_length (n : nat) : List.length (zeros n) = n.
Proof. apply repeat_length. Qed.

Lemma zeros_all_zero (n : nat) : Forall (fun x => x = 0%Q) (zeros n).
Proof. unfold zeros. induction n; simpl; constructor; auto. Qed.

Lemma get_embedding_failed service text :
  failed (service text) -> get_embedding service text = zeros 768.
Proof.
  unfold failed, get_embedding. now destruct (service text).
Qed.

(** The index takes a vector of the deployment's dimension: there is no
    index yet, or its dimension is 768. *)
Definition accepts_768 (self : ConversationIndexer) : Prop :=
  match index self with
  | None => True
  | Some i => d i = 768%nat
  end.

(** C8.  When the embedding call fails, whatever the text,
    [get_embedding] returns the vector of 768 zeros instead of raising,
    and an insertion of a conversation with that text into a memory
    whose index takes such vectors adds one entry and one vector. *)
Theorem embedding_failure_gives_zero_vector
        service now io session_id user_query final_answer tool_calls timestamp self dk :
  failed (service (searchable_text user_query final_answer tool_calls)) ->
  get_embedding service (searchable_text user_query final_answer tool_calls) = zeros 768
  /\ List.length (zeros 768) = 768%nat
  /\ Forall (fun x => x = 0%Q) (zeros 768)
  /\ (accepts_768 self ->
      inserted self (fst (index_conversation service now io session_id user_query
                            final_answer tool_calls timestamp self dk))
      /\ get_conversation_count
           (fst (index_conversation service now io session_id user_query
                   final_answer tool_calls timestamp self dk))
         = get_conversation_count self + 1).
Proof.
  intros Hf. pose proof (get_embedding_failed _ _ Hf) as He.
  split; [exact He|]. split; [apply zeros_length|]. split; [apply zeros_all_zero|].
  intros Ha. unfold index_conversation. rewrite He.
  pose proof (zeros_length 768) as Hlen.
  destruct (zeros 768) as [|x xs]; [discriminate Hlen|].
  assert (Hadd : exists added,
             index_add match index self with
                       | Some i => i
                       | None => IndexFlatL2 (List.length (x :: xs))
                       end (x :: xs) = Some added
             /\ ntotal added = get_conversation_count self + 1).
  { unfold accepts_768, get_conversation_count in *. unfold index_add.
    rewrite Hlen. destruct (index self) as [i|].
    - rewrite Ha, Nat.eqb_refl. eexists. split; [reflexivity|].
      unfold ntotal. cbn [xb]. rewrite length_app. simpl. lia.
    - cbn [IndexFlatL2 d]. rewrite Nat.eqb_refl. eexists. split; [reflexivity|].
      reflexivity. }
  destruct Hadd as (added & -> & Hn).
  cbn [fst metadata get_conversation_count index]. unfold inserted.
  cbn [metadata]. rewrite length_app. simpl. split; [lia | exact Hn].
Qed.

(** The service is down and the memory is empty. *)
Lemma embedding_failure_gives_zero_vector_witness :
  failed ((fun _ : string => PostRaises) (searchable_text "hello" "FINAL_ANSWER: hi" None))
  /\ get_embedding (fun _ => PostRaises) (searchable_text "hello" "FINAL_ANSWER: hi" None)
     = zeros 768
  /\ inserted (mkIndexer None [])
       (fst (index_conversation (fun _ => PostRaises) 0%Q (mkSaveIo Written Written)
               "s1" "hello" "FINAL_ANSWER: hi" None None
               (mkIndexer None []) (mkDisk Absent Absent))).
Proof.
  assert (Hf : failed ((fun _ : string => PostRaises)
                         (searchable_text "hello" "FINAL_ANSWER: hi" None))) by exact I.
  destruct (embedding_failure_gives_zero_vector
              (fun _ => PostRaises) 0%Q (mkSaveIo Written Written)
              "s1" "hello" "FINAL_ANSWER: hi" None None
              (mkIndexer None []) (mkDisk Absent Absent) Hf) as (He & _ & _ & Hi).
  split; [exact Hf|]. split; [exact He|]. apply Hi. exact I.
Defined.

(** ** Search *)

Lemma nearest_length (i : Index) (x : vector) (k : nat) :
  List.length (nearest i x k) = k.
Proof.
  unfold nearest. rewrite length_firstn, length_app, repeat_length. lia.
Qed.

Lemma collect_length (md : list metadata_entry) (found : list (Z * Q))
      (results : list search_result) :
  collect md found = Some results ->
  (List.length results <= List.length found)%nat.
Proof.
  revert results. induction found as [|[idx distance] found IH]; intros results; simpl.
  - intros [= <-]. simpl. lia.
  - destruct (idx <? Z.of_nat (List.length md)).
    + destruct (getitem md idx); [|discriminate].
      destruct (collect md found) as [rs|]; [|discriminate].
      intros [= <-]. simpl. specialize (IH rs eq_refl). lia.
    + intros H. specialize (IH results H). lia.
Qed.

Lemma search_try_length service self i query top_k results :
  search_try service self i query top_k = Some results ->
  (List.length results <= Z.to_nat (Z.min top_k (ntotal i)))%nat.
Proof.
  unfold search_try. destruct (get_embedding service query) as [|x xs]; [discriminate|].
  unfold index_search.
  destruct ((List.length (x :: xs) =? d i)%nat && (0 <? Z.min top_k (ntotal i)));
    [|discriminate].
  intros H. apply collect_length in H. now rewrite nearest_length in H.
Qed.

(** C9.  On a memory without index, or whose index holds no vector,
    [search] returns the empty list, whatever the query and [top_k]; on
    a memory of [n] records it returns at most [min(top_k, n)] results
    (none when that minimum is not positive); and when something raises
    inside its [try] block it returns the empty list.  [search] is a
    total function: no exception leaves it. *)
Theorem search_is_bounded_and_fails_soft service self query top_k :
  (get_conversation_count self = 0 -> search service self query top_k = [])
  /\ (List.length (search service self query top_k)
      <= Z.to_nat (Z.min top_k (get_conversation_count self)))%nat
  /\ (forall i, index self = Some i ->
                search_try service self i query top_k = None ->
                search service self query top_k = []).
Proof.
  unfold search, get_conversation_count. destruct (index self) as [i|].
  - split; [|split].
    + intros H. now rewrite H.
    + destruct (ntotal i =? 0); [simpl; lia|].
      destruct (search_try service self i query top_k) as [results|] eqn:E.
      * now apply search_try_length in E.
      * simpl. lia.
    + intros i' [= <-] H. rewrite H. now destruct (ntotal i =? 0).
  - split; [reflexivity|]. split; [simpl; lia | discriminate].
Qed.

(** A search that finds its two nearest records, nearest first. *)
Example search_two_of_three :
  let service := fun text : string =>
                   if String.eqb text "q" then Embedding [1%Q; 1%Q] else NoEmbedding in
  let entry := fun n => mkEntry "s" "question" "answer" [] 0%Q n in
  let self := mkIndexer (Some (mkIndex 2 [[5%Q; 5%Q]; [1%Q; 2%Q]; [0%Q; 1%Q]]))
                        [entry 0%nat; entry 1%nat; entry 2%nat] in
  map (fun r => index_position (conversation r)) (search service self "q" 2)
  = [1%nat; 2%nat]
  /\ search service self "q" (-1) = []
  /\ search service self "other" 2 = [].
Proof. vm_compute. repeat split. Qed.

End IndexerFacts.

(* ===================================================================== *)
(** * Properties of the historical pre-check *)
(* ===================================================================== *)

Module HistoricalCheckFacts.

Import Backend HistoricalCheck.
Local Open Scope list_scope.

(** ** Error answers are left out *)

(** The neighbours that the loop of step 2 keeps. *)
Definition survivors (historical_data : list conversation) : list conversation :=
  filter (fun conv => negb (is_error_answer (get (final_answer conv))))
         (firstn 5 historical_data).

Lemma context_items_survivors historical_data :
  context_items historical_data = map format_item (survivors historical_data).
Proof. reflexivity. Qed.

Lemma survivors_sound historical_data conv :
  In conv (survivors historical_data) ->
  In conv (firstn 5 historical_data)
  /\ is_error_answer (get (final_answer conv)) = false.
Proof.
  unfold survivors. rewrite filter_In. intros [H1 H2].
  split; [exact H1 | now apply negb_true_iff].
Qed.

Lemma no_survivor historical_data :
  (forall conv, In conv (firstn 5 historical_data) ->
                is_error_answer (get (final_answer conv)) = true) ->
  survivors historical_data = [].
Proof.
  unfold survivors. induction (firstn 5 historical_data) as [|conv l IH]; intros H.
  - reflexivity.
  - simpl. rewrite (H conv (or_introl eq_refl)). simpl.
    apply IH. intros c Hc. apply H. now right.
Qed.

(** The one prompt that the check can send. *)
Definition judgment_prompt (user_input : string)
           (historical_data : list conversation) : string :=
  decision_prompt user_input
    (Py.join (Py.nl ++ Py.nl) (map format_item (survivors historical_data))).

Lemma check_parsed call_tool generate_text user_input historical_data :
  call_tool "search_historical_conversations"%string user_input = Parsed historical_data ->
  check_historical_conversations call_tool generate_text user_input
  = match historical_data, survivors historical_data with
    | [], _ | _, [] => (cannot_answer, [])
    | _, _ =>
        match generate_text (judgment_prompt user_input historical_data) with
        | None => (no_context, [judgment_prompt user_input historical_data])
        | Some llm_response =>
            (classify (Py.join (Py.nl ++ Py.nl)
                         (map format_item (survivors historical_data)))
                      (Py.strip llm_response),
             [judgment_prompt user_input historical_data])
        end
    end.
Proof.
  intros H. unfold check_historical_conversations. rewrite H.
  destruct historical_data as [|c cs]; [reflexivity|].
  rewrite context_items_survivors. unfold judgment_prompt.
  destruct (survivors (c :: cs)) as [|s ss]; reflexivity.
Qed.

(** C7.  The context given to the judgment step is made of the
    neighbours, among the first five retrieved, whose stored answer holds
    no error marker: any prompt sent to the model is the judgment prompt
    built from these survivors alone.  When every one of the first five
    neighbours is an error answer, no prompt is sent and the check
    returns the dictionary [{"can_answer": False}], which its caller
    reads as neither an answer nor a context. *)
Theorem error_answers_are_left_out call_tool generate_text user_input historical_data :
  call_tool "search_historical_conversations"%string user_input = Parsed historical_data ->
  (forall conv, In conv (survivors historical_data) ->
                In conv (firstn 5 historical_data)
                /\ is_error_answer (get (final_answer conv)) = false)
  /\ (forall prompt,
        In prompt (snd (check_historical_conversations call_tool generate_text user_input)) ->
        prompt = judgment_prompt user_input historical_data)
  /\ ((forall conv, In conv (firstn 5 historical_data) ->
                    is_error_answer (get (final_answer conv)) = true) ->
      check_historical_conversations call_tool generate_text user_input
      = (cannot_answer, [])
      /\ get_bool "can_answer" cannot_answer = false
      /\ get_bool "has_context" cannot_answer = false).
Proof.
  intros H. rewrite (check_parsed _ generate_text _ _ H). split; [|split].
  - apply survivors_sound.
  - intros prompt. destruct historical_data as [|c cs]; [intros []|].
    destruct (survivors (c :: cs)); [intros []|].
    destruct (generate_text _); simpl; intros [<-|[]]; reflexivity.
  - intros Hall. pose proof (no_survivor _ Hall) as Hnone.
    destruct historical_data; [|rewrite Hnone]; repeat split.
Qed.

(** Two neighbours, both error answers. *)
Lemma error_answers_are_left_out_witness :
  check_historical_conversations
    (fun _ _ => Parsed [mkConversation (Some "what is x?") (Some "FINAL_ANSWER: [Max steps reached]");
                        mkConversation (Some "what is y?") (Some "[Result blocked by guardrail]")])
    (fun _ => Some "FINAL_ANSWER: never asked"%string)
    "what is x?"
  = (cannot_answer, []).
Proof.
  destruct (error_answers_are_left_out
           (fun _ _ => Parsed [mkConversation (Some "what is x?") (Some "FINAL_ANSWER: [Max steps reached]");
                               mkConversation (Some "what is y?") (Some "[Result blocked by guardrail]")])
           (fun _ => Some "FINAL_ANSWER: never asked"%string)
           "what is x?" _ eq_refl) as (_ & _ & H).
  apply H. intros conv [<-|[<-|[]]]; vm_compute; reflexivity.
Defined.

(** ** A context summary that denies the context *)

(** What makes a phrase survive the removal of the label, the
    stripping and the lowering. *)
Definition sturdy (p : string) : bool :=
  PyFacts.first_char (fun c => negb (Py.is_space c)) p
  && PyFacts.last_char (fun c => negb (Py.is_space c)) p
  && PyFacts.first_char (fun _ => true) p
  && PyFacts.all_chars (PyFacts.foreign "HAS_CONTEXT:") p
  && String.eqb (Py.lower p) p.

Lemma negative_indicators_sturdy : forallb sturdy negative_indicators = true.
Proof. vm_compute. reflexivity. Qed.

Lemma has_context_not_final (llm_response : string) :
  Py.startswith "HAS_CONTEXT:" llm_response = true ->
  Py.startswith "FINAL_ANSWER:" llm_response = false.
Proof.
  intros H. apply PyFacts.startswith_split in H. destruct H as [t ->]. reflexivity.
Qed.

Lemma classify_negated historical_context llm_response indicator :
  Py.startswith "HAS_CONTEXT:" llm_response = true ->
  In indicator negative_indicators ->
  PyFacts.occurs indicator llm_response ->
  classify historical_context llm_response = no_context.
Proof.
  intros Hh Hin Hocc. unfold classify.
  rewrite (has_context_not_final _ Hh), Hh.
  pose proof negative_indicators_sturdy as Hs.
  rewrite forallb_forall in Hs. specialize (Hs indicator Hin).
  unfold sturdy in Hs. repeat (apply andb_true_iff in Hs; destruct Hs as [Hs ?]).
  assert (Hkept : PyFacts.occurs indicator
                    (Py.lower (Py.strip (Py.replace "HAS_CONTEXT:" "" llm_response)))).
  { apply String.eqb_eq in H. rewrite <- H. apply PyFacts.occurs_map.
    apply PyFacts.strip_keeps; auto. apply PyFacts.replace_keeps; auto. }
  apply PyFacts.occurs_contains in Hkept.
  assert (He : existsb (fun i => Py.contains i
                 (Py.lower (Py.strip (Py.replace "HAS_CONTEXT:" "" llm_response))))
                 negative_indicators = true).
  { apply existsb_exists. now exists indicator. }
  now rewrite He.
Qed.

(** C6.  When the judgment is made and the model's response, once
    stripped, begins with [HAS_CONTEXT:] and holds one of the negation
    phrases, the check returns [{"can_answer": False, "has_context":
    False}], the dictionary of the no-context disposition. *)
Theorem negated_context_is_no_context
        call_tool generate_text user_input historical_data llm_response indicator :
  call_tool "search_historical_conversations"%string user_input = Parsed historical_data ->
  survivors historical_data <> [] ->
  generate_text (judgment_prompt user_input historical_data) = Some llm_response ->
  Py.startswith "HAS_CONTEXT:" (Py.strip llm_response) = true ->
  In indicator negative_indicators ->
  Py.contains indicator llm_response = true ->
  fst (check_historical_conversations call_tool generate_text user_input) = no_context
  /\ get_bool "can_answer" no_context = false
  /\ get_bool "has_context" no_context = false.
Proof.
  intros Hcall Hsurv Hllm Hh Hin Hc.
  rewrite (check_parsed _ generate_text _ _ Hcall), Hllm.
  split; [|split; reflexivity].
  destruct historical_data as [|c cs]; [now contradiction Hsurv|].
  destruct (survivors (c :: cs)) as [|s ss]; [now contradiction Hsurv|].
  cbn [fst]. apply (classify_negated _ _ indicator Hh Hin).
  pose proof negative_indicators_sturdy as Hs.
  rewrite forallb_forall in Hs. specialize (Hs indicator Hin).
  unfold sturdy in Hs. repeat (apply andb_true_iff in Hs; destruct Hs as [Hs ?]).
  apply PyFacts.strip_keeps; auto. now apply PyFacts.occurs_contains.
Qed.

(** A hedged judgment about the weather. *)
Lemma negated_context_is_no_context_witness :
  fst (check_historical_conversations
         (fun _ _ => Parsed [mkConversation (Some "my name is John") (Some "FINAL_ANSWER: noted")])
         (fun _ => Some "HAS_CONTEXT: The previous conversations do not contain the weather."%string)
         "what is the weather?")
  = no_context.
Proof.
  apply (negated_context_is_no_context
           (fun _ _ => Parsed [mkConversation (Some "my name is John") (Some "FINAL_ANSWER: noted")])
           (fun _ => Some "HAS_CONTEXT: The previous conversations do not contain the weather."%string)
           "what is the weather?"
           [mkConversation (Some "my name is John") (Some "FINAL_ANSWER: noted")]
           "HAS_CONTEXT: The previous conversations do not contain the weather."
           "not contain" eq_refl).
  - vm_compute. discriminate.
  - reflexivity.
  - vm_compute. reflexivity.
  - simpl. auto 10.
  - vm_compute. reflexivity.
Defined.

End HistoricalCheckFacts.

(* ===================================================================== *)
(** * Properties of the task loop *)
(* ===================================================================== *)

Module LoopFacts.

Import Backend Loop.
Local Open Scope list_scope.
Local Open Scope Z_scope.

(** ** The model of the [while] loop is not cut short *)

Lemma while_loop_fuel env max_steps fuel lifelines_left st :
  (Z.to_nat (lifelines_left + 1) <= fuel)%nat ->
  fst (while_loop fuel env max_steps lifelines_left st) <> Ended OutOfFuel.
Proof.
  revert lifelines_left st.
  induction fuel as [|fuel IH]; intros lifelines_left st Hfuel; simpl.
  - destruct (0 <=? lifelines_left) eqn:E; [|discriminate].
    apply Z.leb_le in E. lia.
  - destruct (0 <=? lifelines_left) eqn:E; [|discriminate].
    apply Z.leb_le in E.
    destruct (iteration env max_steps st) as [[status result| | |] st'];
      try discriminate.
    apply IH. lia.
Qed.

Lemma run_step_fuel env max_steps max_lifelines_per_step step st :
  fst (run_step env max_steps max_lifelines_per_step step st) <> Ended OutOfFuel.
Proof. unfold run_step. apply while_loop_fuel. lia. Qed.

Lemma for_loop_total env max_steps max_lifelines_per_step steps st :
  fst (for_loop env max_steps max_lifelines_per_step steps st) <> OutOfFuel.
Proof.
  revert st. induction steps as [|step steps IH]; intros st; simpl.
  - discriminate.
  - pose proof (run_step_fuel env max_steps max_lifelines_per_step step st) as H.
    destruct (run_step env max_steps max_lifelines_per_step step st) as [[o| |] st'];
      cbn [fst] in *; [congruence | apply IH | apply IH].
Qed.

(** [run] returns or raises. *)
Lemma run_total env max_steps max_lifelines_per_step st :
  fst (run env max_steps max_lifelines_per_step st) <> OutOfFuel.
Proof. apply for_loop_total. Qed.

(** ** Exhausting the steps *)

(** The steps of the list are gone through one after the other, from
    the first state to the second, and none of them ends the turn: each
    one ends by [break] or with its lifelines used up. *)
Inductive without_terminal (env : environment) (max_steps max_lifelines_per_step : Z)
  : list Z -> state -> state -> Prop :=
| wt_done st :
    without_terminal env max_steps max_lifelines_per_step [] st st
| wt_step step steps st st1 st2 how :
    run_step env max_steps max_lifelines_per_step step st = (how, st1) ->
    how = Broke \/ how = Exhausted ->
    without_terminal env max_steps max_lifelines_per_step steps st1 st2 ->
    without_terminal env max_steps max_lifelines_per_step (step :: steps) st st2.

(** C4.  When the steps [0 .. max_steps - 1] are all gone through and
    none of them ends the turn, [run] returns the dictionary with status
    ["done"] and the result ["FINAL_ANSWER: [Max steps reached]"], which
    it has also stored as the final answer: it returns, it does not
    raise. *)
Theorem exhausted_steps_give_sentinel env max_steps max_lifelines_per_step st st' :
  without_terminal env max_steps max_lifelines_per_step (range max_steps)
                   (set_further_processing_count 0 st) st' ->
  run env max_steps max_lifelines_per_step st
  = (Returned "done" "FINAL_ANSWER: [Max steps reached]",
     set_final_answer "FINAL_ANSWER: [Max steps reached]" st')
  /\ final_answer (snd (run env max_steps max_lifelines_per_step st))
     = Some "FINAL_ANSWER: [Max steps reached]"%string.
Proof.
  intros H. unfold run.
  induction H as [st0 | step steps st0 st1 st2 how Hstep Hhow _ IH].
  - split; reflexivity.
  - cbn [for_loop]. rewrite Hstep. destruct Hhow as [-> | ->]; exact IH.
Qed.

(** A planner that never writes a [solve] function: two steps of two
    passes each, and the sentinel. *)
Definition no_plan_env : environment :=
  mkEnv (fun _ => mkPerception "task" ["documents"]) (fun _ => ["search_documents"%string])
        (fun _ => NoContent) (fun _ => Some "it is 42"%string)
        (fun _ => Some "I cannot write a plan"%string) (fun plan => plan)
        (fun _ => SandboxText "FINAL_ANSWER: unused").

Lemma exhausted_steps_give_sentinel_witness :
  fst (run no_plan_env 2 1 (fresh "task" None))
  = Returned "done" "FINAL_ANSWER: [Max steps reached]".
Proof.
  eassert (H : without_terminal no_plan_env 2 1 (range 2)
                 (set_further_processing_count 0 (fresh "task" None)) _).
  { eapply wt_step; [vm_compute; reflexivity | right; reflexivity |].
    eapply wt_step; [vm_compute; reflexivity | right; reflexivity |].
    apply wt_done. }
  destruct (exhausted_steps_give_sentinel _ _ _ _ _ H) as [E _].
  rewrite E. reflexivity.
Defined.

(** ** Repeated further processing *)

(** The content that a [FURTHER_PROCESSING_REQUIRED] result carries
    over, and the prompt of the analysis that the second one asks for. *)
Definition carried_content (result : string) : string :=
  Py.strip (nth 1 (Py.split_on FURTHER_PROCESSING_REQUIRED (Py.strip result)) ""%string).

Definition escalation_prompt (st : state) (result : string) : string :=
  analysis_prompt (user_input st) (content_to_analyze (carried_content result)).

Definition escalation_record (answer : string) : event :=
  AddToolOutput "llm_fallback_analysis"
                ("reason", "FURTHER_PROCESSING_REQUIRED loop detected")%string
                answer true ["fallback"; "llm_analysis"]%string.

Lemma ensure_final_starts (answer : string) :
  Py.startswith FINAL_ANSWER (ensure_final answer) = true.
Proof.
  unfold ensure_final, FINAL_ANSWER.
  destruct (Py.startswith "FINAL_ANSWER:" answer) eqn:E; [exact E | reflexivity].
Qed.

Lemma further_not_final (result : string) :
  Py.startswith FURTHER_PROCESSING_REQUIRED result = true ->
  Py.startswith FINAL_ANSWER result = false.
Proof.
  intros H. apply PyFacts.startswith_split in H. destruct H as [t ->]. reflexivity.
Qed.

(** The second and later results: the model is asked, and when it
    answers, the pass returns. *)
Lemma further_processing_escalates env result st llm_answer :
  1 <= further_processing_count st ->
  generate_text env (history st ++ [GenerateText (escalation_prompt st (result))])
  = Some llm_answer ->
  exists st',
    further_processing env (Py.strip result) st
    = (Return_ "done" (ensure_final (Py.strip llm_answer)), st')
    /\ history st' = history st ++ [GenerateText (escalation_prompt st result);
                                    escalation_record (ensure_final (Py.strip llm_answer))]
    /\ final_answer st' = Some (ensure_final (Py.strip llm_answer)).
Proof.
  intros Hcount Hmodel. unfold further_processing.
  cbn [set_further_processing_count further_processing_count].
  assert (Hgt : (1 <? further_processing_count st + 1) = true) by (apply Z.ltb_lt; lia).
  rewrite Hgt. unfold llm_fallback.
  cbn [emit set_further_processing_count history user_input].
  unfold escalation_prompt, carried_content in Hmodel. rewrite Hmodel.
  eexists. split; [reflexivity|]. cbn [history final_answer set_final_answer emit].
  split; [|reflexivity]. rewrite <- List.app_assoc. reflexivity.
Qed.


(** A model that raises at its first call and answers afterwards: the
    analysis of the provided content fails, the planner is asked again,
    the sandbox asks for further processing a second time, and the model
    answers the escalation. *)
Fixpoint model_calls (h : list event) : nat :=
  match h with
  | [] => 0
  | GenerateText _ :: h' => S (model_calls h')
  | _ :: h' => model_calls h'
  end.

Definition flaky_model_env : environment :=
  mkEnv (fun _ => mkPerception "task" ["documents"]) (fun _ => ["search_documents"%string])
        (fun _ => NoContent)
        (fun h => if (model_calls h =? 1)%nat then None else Some "The answer is 42"%string)
        (fun _ => Some "def solve():"%string) (fun plan => plan)
        (fun _ => SandboxText "FURTHER_PROCESSING_REQUIRED: data").

Definition after_first_request : state :=
  mkState "task" (Some (override_message "task" "data")) None None 1 1 [].


(** The same model in a whole turn: the second request of the sandbox
    ends the turn in its second step. *)
Example escalation_in_a_turn :
  fst (run flaky_model_env 3 1 (fresh "task" None))
  = Returned "done" "FINAL_ANSWER: The answer is 42"
  /\ further_processing_count (snd (run flaky_model_env 3 1 (fresh "task" None))) = 2.
Proof. vm_compute. repeat split. Qed.

(** The kind of a call, to read a history at a glance. *)
Definition kind (e : event) : string :=
  match e with
  | RunPerception _ _ => "perception"
  | CallTool _ _ => "tool"
  | GenerateText _ => "model"
  | GeneratePlan _ _ _ => "plan"
  | RunSandbox _ => "sandbox"
  | LogSubtask _ _ => "log"
  | UpdateSubtask _ _ => "update"
  | AddToolOutput _ _ _ _ _ => "memory"
  end.

(** A model that raises at every call, a planner that always writes a
    plan, and a sandbox that always asks for further processing. *)
Definition failing_model_env : environment :=
  mkEnv (fun _ => mkPerception "task" ["documents"]) (fun _ => ["search_documents"%string])
        (fun _ => NoContent)
        (fun _ => None)
        (fun _ => Some "def solve():"%string) (fun plan => plan)
        (fun _ => SandboxText "FURTHER_PROCESSING_REQUIRED: data").


End LoopFacts.

(* ===================================================================== *)
(** * Searching and stripping text *)
(* ===================================================================== *)

Module FindFacts.

Import Py PyFacts.

Definition newline : ascii := ascii_of_nat 10.

Lemma nl_char : nl = String newline "".
Proof. reflexivity. Qed.

Lemma drop_app (a b : string) : drop (String.length a) (a ++ b) = b.
Proof. induction a as [|x a IH]; [now destruct b | exact IH]. Qed.

Lemma take_app (a b : string) : take (String.length a) (a ++ b) = a.
Proof. induction a as [|x a IH]; [now destruct b | simpl; now rewrite IH]. Qed.

Lemma find_here (m s : string) : startswith m s = true -> find m s = Some 0.
Proof. intros H. destruct s; cbn [find]; now rewrite H. Qed.

Lemma find_step (m : string) (c : ascii) (s : string) :
  startswith m (String c s) = false ->
  find m (String c s) = option_map S (find m s).
Proof. intros H. cbn [find]. now rewrite H. Qed.

Lemma shift_shift (n : nat) (o : option nat) :
  option_map S (option_map (Nat.add n) o) = option_map (Nat.add (S n)) o.
Proof. now destruct o. Qed.

(** A phrase that begins at a character of [x ++ c :: y] before [c] and
    does not hold [c] lies inside [x]. *)
Lemma no_straddle (m x : string) (c : ascii) (y : string) :
  startswith m (x ++ String c y) = true ->
  startswith m x = true \/ mem_char c m = true.
Proof.
  revert x. induction m as [|a m IH]; intros x H.
  - left. apply startswith_nil.
  - destruct x as [|b x]; cbn [append] in H; apply startswith_cons in H;
      destruct H as [-> H].
    + right. cbn [mem_char]. now rewrite Ascii.eqb_refl.
    + destruct (IH x H) as [H1|H1].
      * left. now apply startswith_cons.
      * right. cbn [mem_char]. rewrite H1. apply orb_true_r.
Qed.

(** The first occurrence of [m] is not in a text that holds none of the
    first character of [m]. *)
Lemma find_after_foreign (c0 : ascii) (m' p s : string) :
  mem_char c0 p = false ->
  find (String c0 m') (p ++ s)
  = option_map (Nat.add (String.length p)) (find (String c0 m') s).
Proof.
  induction p as [|x p IH]; cbn [mem_char append String.length]; intros H.
  - now destruct (find (String c0 m') s).
  - apply orb_false_iff in H. destruct H as [Hx Hp].
    rewrite find_step.
    + rewrite (IH Hp). apply shift_shift.
    + destruct (startswith (String c0 m') (String x (p ++ s))) eqn:E; [|reflexivity].
      apply startswith_cons in E. destruct E as [<- _].
      now rewrite Ascii.eqb_refl in Hx.
Qed.

(** The first occurrence of [m] is not in a text that does not contain
    [m], nor across its end when a character foreign to [m] follows. *)
Lemma find_past (m u : string) (c : ascii) (s : string) :
  m <> "" -> contains m u = false -> mem_char c m = false ->
  find m (u ++ String c s) = option_map (Nat.add (S (String.length u))) (find m s).
Proof.
  intros Hm Hu Hc. induction u as [|x u IH].
  - cbn [append String.length]. rewrite find_step; [reflexivity|].
    destruct m as [|a m]; [contradiction|].
    destruct (startswith (String a m) (String c s)) eqn:E; [|reflexivity].
    apply startswith_cons in E. destruct E as [-> _].
    cbn [mem_char] in Hc. now rewrite Ascii.eqb_refl in Hc.
  - cbn [contains] in Hu. apply orb_false_iff in Hu. destruct Hu as [Hx Hu].
    cbn [append String.length]. rewrite find_step.
    + rewrite (IH Hu). apply shift_shift.
    + destruct (startswith m (String x (u ++ String c s))) eqn:E; [|reflexivity].
      change (String x (u ++ String c s)) with (String x u ++ String c s) in E.
      destruct (no_straddle _ _ _ _ E) as [H|H]; congruence.
Qed.

(** The first occurrence of a marker that is written on a line of its
    own, after a blank line. *)
Lemma find_marker (c0 : ascii) (m' p u tail : string) :
  mem_char c0 p = false ->
  contains (String c0 m') u = false ->
  mem_char newline (String c0 m') = false ->
  find (String c0 m') (p ++ u ++ nl ++ nl ++ String c0 m' ++ tail)
  = Some (String.length p + (String.length u + 2)).
Proof.
  intros Hp Hu Hn. rewrite (find_after_foreign c0 m' p _ Hp).
  rewrite nl_char. cbn [append].
  rewrite (find_past (String c0 m') u newline) by (try discriminate; auto).
  rewrite find_step.
  - rewrite (find_here (String c0 m') (String c0 (m' ++ tail)))
      by apply (startswith_app (String c0 m') tail).
    cbn [option_map]. f_equal. lia.
  - destruct (startswith (String c0 m') (String newline (String c0 (m' ++ tail)))) eqn:E;
      [|reflexivity].
    apply startswith_cons in E. destruct E as [-> _].
    cbn [mem_char] in Hn. now rewrite Ascii.eqb_refl in Hn.
Qed.

(** The first blank line after a text without line feed. *)
Lemma find_blank_line (u s : string) :
  mem_char newline u = false ->
  find (nl ++ nl) (u ++ nl ++ nl ++ s) = Some (String.length u).
Proof.
  induction u as [|x u IH]; cbn [mem_char append String.length]; intros H.
  - apply find_here. exact (startswith_app (nl ++ nl) s).
  - apply orb_false_iff in H. destruct H as [Hx Hu].
    rewrite find_step.
    + now rewrite (IH Hu).
    + destruct (startswith (nl ++ nl) (String x (u ++ nl ++ nl ++ s))) eqn:E;
        [|reflexivity].
      change (nl ++ nl) with (String newline nl) in E.
      apply startswith_cons in E. destruct E as [<- _].
      now rewrite Ascii.eqb_refl in Hx.
Qed.

(** ** The shape of a stripped text *)

Definition nonspace (c : ascii) : bool := negb (is_space c).

(** A text is trimmed when it is empty or begins and ends with
    characters other than spaces. *)
Definition trimmed (s : string) : Prop :=
  s = "" \/ (first_char nonspace s = true /\ last_char nonspace s = true).

Lemma lstrip_shape (P : ascii -> bool) (s : string) :
  lstrip_by P s = "" \/ first_char (fun c => negb (P c)) (lstrip_by P s) = true.
Proof.
  induction s as [|c s IH]; cbn [lstrip_by]; [now left|].
  destruct (P c) eqn:E; [exact IH|]. right. cbn [first_char]. now rewrite E.
Qed.

Lemma rstrip_shape (P : ascii -> bool) (s : string) :
  rstrip_by P s = "" \/ last_char (fun c => negb (P c)) (rstrip_by P s) = true.
Proof.
  induction s as [|c s IH]; cbn [rstrip_by]; [now left|].
  destruct (rstrip_by P s) as [|d r] eqn:E.
  - destruct (P c) eqn:Ec; [now left|]. right. cbn [last_char]. now rewrite Ec.
  - right. destruct IH as [IH|IH]; [discriminate|]. exact IH.
Qed.

Lemma rstrip_first (P : ascii -> bool) (s : string) :
  first_char (fun c => negb (P c)) s = true ->
  first_char (fun c => negb (P c)) (rstrip_by P s) = true.
Proof.
  destruct s as [|c s]; [discriminate|]. cbn [first_char rstrip_by]. intros H.
  destruct (rstrip_by P s); [|exact H].
  apply negb_true_iff in H. rewrite H. cbn [first_char]. now rewrite H.
Qed.

Lemma strip_trimmed (s : string) : trimmed (strip s).
Proof.
  unfold trimmed, strip, strip_by, nonspace.
  destruct (rstrip_shape is_space (lstrip_by is_space s)) as [H|H]; [now left|].
  right. split; [|exact H].
  destruct (lstrip_shape is_space s) as [E|E].
  - rewrite E in H. discriminate H.
  - now apply rstrip_first.
Qed.

Lemma lstrip_first (P : ascii -> bool) (s : string) :
  first_char (fun c => negb (P c)) s = true -> lstrip_by P s = s.
Proof.
  destruct s as [|c s]; [discriminate|]. cbn [first_char lstrip_by]. intros H.
  apply negb_true_iff in H. now rewrite H.
Qed.

Lemma rstrip_last (P : ascii -> bool) (s : string) :
  last_char (fun c => negb (P c)) s = true -> rstrip_by P s = s.
Proof.
  intros H. apply last_char_split in H. destruct H as (s0 & z & -> & Hz).
  apply negb_true_iff in Hz. rewrite (rstrip_kept_char P s0 z "" Hz). reflexivity.
Qed.

Lemma last_char_app (P : ascii -> bool) (a b : string) :
  last_char P b = true -> last_char P (a ++ b) = true.
Proof.
  intros H. induction a as [|x a IH]; [exact H|].
  cbn [append last_char]. destruct (a ++ b) eqn:E; [|exact IH].
  destruct a; [|discriminate]. simpl in E. subst b. discriminate.
Qed.

Lemma first_char_app (P : ascii -> bool) (a b : string) :
  first_char P a = true -> first_char P (a ++ b) = true.
Proof. destruct a; [discriminate | auto]. Qed.

(** Stripped characters after a text that ends with another one. *)
Lemma rstrip_tail (P : ascii -> bool) (a t : string) :
  last_char (fun c => negb (P c)) a = true -> all_chars P t = true ->
  rstrip_by P (a ++ t) = a.
Proof.
  intros Ha Ht. apply last_char_split in Ha. destruct Ha as (a0 & z & -> & Hz).
  apply negb_true_iff in Hz. rewrite app_assoc. cbn [append].
  rewrite (rstrip_kept_char P a0 z t Hz).
  assert (E : rstrip_by P t = "").
  { induction t as [|c t IH]; [reflexivity|]. cbn [all_chars] in Ht.
    apply andb_true_iff in Ht. destruct Ht as [Hc Ht].
    cbn [rstrip_by]. now rewrite (IH Ht), Hc. }
  now rewrite E.
Qed.

Lemma lstrip_head (P : ascii -> bool) (t s : string) :
  all_chars P t = true -> lstrip_by P (t ++ s) = lstrip_by P s.
Proof.
  induction t as [|c t IH]; [reflexivity|]. cbn [all_chars append lstrip_by].
  intros H. apply andb_true_iff in H. destruct H as [Hc Ht]. now rewrite Hc, IH.
Qed.

End FindFacts.

(* ===================================================================== *)
(** * Characters kept by the operations on text *)
(* ===================================================================== *)

Module CharFacts.

Import Py PyFacts Re FindFacts.
Local Open Scope list_scope.

Section Chars.

Variable P : ascii -> bool.

Lemma all_chars_app (a b : string) :
  all_chars P (a ++ b)%string = all_chars P a && all_chars P b.
Proof.
  induction a as [|x a IH]; [reflexivity|]. cbn [append all_chars].
  now rewrite IH, andb_assoc.
Qed.

Lemma all_chars_take (n : nat) (s : string) :
  all_chars P s = true -> all_chars P (take n s) = true.
Proof.
  revert n. induction s as [|c s IH]; intros [|n] H; try reflexivity.
  cbn [all_chars take] in *. apply andb_true_iff in H. destruct H as [Hc Hs].
  now rewrite Hc, IH.
Qed.

Lemma all_chars_slice_to (n : Z) (s : string) :
  all_chars P s = true -> all_chars P (slice_to n s) = true.
Proof.
  revert n. induction s as [|c s IH]; intros n H; [reflexivity|].
  cbn [all_chars slice_to] in *. apply andb_true_iff in H. destruct H as [Hc Hs].
  destruct (n <=? 0)%Z; [reflexivity|]. cbn [all_chars]. now rewrite Hc, IH.
Qed.

Lemma all_chars_of_list (l : list ascii) :
  all_chars P (string_of_list_ascii l) = forallb P l.
Proof. induction l as [|c l IH]; [reflexivity|]. cbn. now rewrite IH. Qed.

Lemma all_chars_rev_string (cur : list ascii) :
  forallb P cur = true -> all_chars P (rev_string cur) = true.
Proof.
  intros H. unfold rev_string. rewrite all_chars_of_list.
  apply forallb_forall. intros c Hc. apply in_rev in Hc.
  rewrite forallb_forall in H. now apply H.
Qed.

Lemma all_chars_join (sep : string) (l : list string) :
  all_chars P sep = true ->
  forallb (all_chars P) l = true ->
  all_chars P (join sep l) = true.
Proof.
  intros Hsep. unfold join. induction l as [|w l IH]; [reflexivity|].
  cbn [forallb]. intros H. apply andb_true_iff in H. destruct H as [Hw Hl].
  destruct l as [|v l]; [exact Hw|].
  change (String.concat sep (w :: v :: l)) with (w ++ sep ++ String.concat sep (v :: l))%string.
  rewrite !all_chars_app, Hw, Hsep. cbn [andb]. now apply IH.
Qed.

(** The pieces into which a pattern cuts a text are made of characters
    of the text. *)
Definition piece_of (p : piece) : bool :=
  match p with
  | Matched m => all_chars P m
  | Kept c => P c
  end.

Lemma pieces_go_chars (f : flags) (r : regex) (skip : nat) (prev : option ascii)
      (s : string) :
  all_chars P s = true -> forallb piece_of (pieces_go f r skip prev s) = true.
Proof.
  revert skip prev. induction s as [|c s IH]; intros skip prev H.
  - destruct skip; cbn [pieces_go]; [|reflexivity].
    now destruct (match_here f r false prev "").
  - pose proof H as H0. cbn [all_chars] in H. apply andb_true_iff in H.
    destruct H as [Hc Hs].
    assert (Htake : forall n, all_chars P (take (S n) (String c s)) = true)
      by (intros n; now apply all_chars_take).
    destruct skip; cbn [pieces_go]; [|now apply IH].
    destruct (match_here f r false prev (String c s)) as [[|n]|].
    + cbn [forallb piece_of all_chars andb].
      destruct (match_here f r true prev (String c s)) as [[|n]|];
        cbn [forallb piece_of]; rewrite ?Htake, ?Hc; cbn [andb]; now apply IH.
    + cbn [forallb piece_of]. rewrite Htake. now apply IH.
    + cbn [forallb piece_of]. rewrite Hc. now apply IH.
Qed.

Lemma render_chars (repl : string -> string) (ps : list piece) :
  (forall m, all_chars P m = true -> all_chars P (repl m) = true) ->
  forallb piece_of ps = true -> all_chars P (render repl ps) = true.
Proof.
  intros Hrepl. induction ps as [|[m|c] ps IH]; cbn [forallb piece_of render];
    intros H; [reflexivity| |]; apply andb_true_iff in H; destruct H as [H1 H2].
  - rewrite all_chars_app, (Hrepl m H1). now apply IH.
  - cbn [all_chars]. rewrite H1. now apply IH.
Qed.

Lemma sub_with_chars (f : flags) (r : regex) (repl : string -> string) (s : string) :
  (forall m, all_chars P m = true -> all_chars P (repl m) = true) ->
  all_chars P s = true -> all_chars P (sub_with f r repl s) = true.
Proof.
  intros Hrepl Hs. unfold sub_with, pieces.
  now apply render_chars, pieces_go_chars.
Qed.

Lemma sub_chars (f : flags) (r : regex) (repl s : string) :
  all_chars P repl = true ->
  all_chars P s = true -> all_chars P (sub f r repl s) = true.
Proof. intros Hrepl Hs. unfold sub. now apply sub_with_chars. Qed.

Lemma findall_chars (f : flags) (r : regex) (s : string) :
  all_chars P s = true -> forallb (all_chars P) (findall f r s) = true.
Proof.
  intros Hs. unfold findall, pieces.
  pose proof (pieces_go_chars f r 0 None s Hs) as H.
  induction (pieces_go f r 0 None s) as [|[m|c] ps IH]; cbn [forallb piece_of matched_texts] in *;
    [reflexivity| |]; apply andb_true_iff in H; destruct H as [H1 H2].
  - rewrite H1. now apply IH.
  - now apply IH.
Qed.

Lemma replace_go_chars (old new : string) (skip : nat) (s : string) :
  all_chars P new = true ->
  all_chars P s = true -> all_chars P (replace_go old new skip s) = true.
Proof.
  intros Hnew. revert skip. induction s as [|c s IH]; intros skip H; [reflexivity|].
  cbn [all_chars] in H. apply andb_true_iff in H. destruct H as [Hc Hs].
  cbn [replace_go]. destruct skip; [|now apply IH].
  destruct (startswith old (String c s)).
  - rewrite all_chars_app, Hnew. now apply IH.
  - cbn [all_chars]. rewrite Hc. now apply IH.
Qed.

Lemma replace_chars (old new s : string) :
  all_chars P new = true ->
  all_chars P s = true -> all_chars P (replace old new s) = true.
Proof.
  intros Hnew Hs. unfold replace. destruct old; [exact Hs|].
  now apply replace_go_chars.
Qed.

Lemma split_on_go_chars (sep : string) (skip : nat) (cur : list ascii) (s : string) :
  forallb P cur = true -> all_chars P s = true ->
  forallb (all_chars P) (split_on_go sep skip cur s) = true.
Proof.
  revert skip cur. induction s as [|c s IH]; intros skip cur Hcur H.
  - cbn [split_on_go forallb]. now rewrite all_chars_rev_string.
  - cbn [all_chars] in H. apply andb_true_iff in H. destruct H as [Hc Hs].
    cbn [split_on_go]. destruct skip; [|now apply IH].
    destruct (startswith sep (String c s)).
    + cbn [forallb]. rewrite all_chars_rev_string by exact Hcur. now apply IH.
    + apply IH; [|exact Hs]. cbn [forallb]. now rewrite Hc.
Qed.

Lemma nth_chars (n : nat) (l : list string) :
  forallb (all_chars P) l = true -> all_chars P (nth n l ""%string) = true.
Proof.
  revert n. induction l as [|w l IH]; intros [|n] H; try reflexivity;
    cbn [forallb] in H; apply andb_true_iff in H; destruct H as [Hw Hl];
    [exact Hw | now apply IH].
Qed.

End Chars.

(** ** The words of a text *)

Lemma split_go_words (cur : list ascii) (s : string) :
  forallb nonspace cur = true ->
  forallb (all_chars nonspace) (split_go cur s) = true.
Proof.
  revert cur. induction s as [|c s IH]; intros cur Hcur; cbn [split_go].
  - destruct cur; [reflexivity|]. cbn [forallb].
    now rewrite all_chars_rev_string.
  - destruct (is_space c) eqn:E.
    + destruct cur; [now apply IH|]. cbn [forallb].
      rewrite all_chars_rev_string by exact Hcur. now apply IH.
    + apply IH. cbn [forallb]. unfold nonspace at 1. now rewrite E.
Qed.

Lemma split_words (s : string) : forallb (all_chars nonspace) (split s) = true.
Proof. now apply split_go_words. Qed.

End CharFacts.

(* ===================================================================== *)
(** * The layout of sanitized text *)
(* ===================================================================== *)

Module LayoutFacts.

Import Py PyFacts Re Guardrail FindFacts CharFacts.
Local Open Scope list_scope.

(** A character that is not white space, or the space itself. *)
Definition plain (c : ascii) : bool := negb (is_space c) || Ascii.eqb c " ".

(** A text whose only white space is the space: it holds no line feed,
    tabulation or carriage return. *)
Definition one_line (s : string) : Prop := all_chars plain s = true.

Lemma word_one_line (w : string) : all_chars nonspace w = true -> one_line w.
Proof.
  unfold one_line. induction w as [|c w IH]; [reflexivity|]. cbn [all_chars].
  intros H. apply andb_true_iff in H. destruct H as [Hc Hw].
  unfold plain at 1. unfold nonspace in Hc. rewrite Hc. now apply IH.
Qed.

Lemma one_line_app (a b : string) : one_line a -> one_line b -> one_line (a ++ b)%string.
Proof. unfold one_line. intros Ha Hb. now rewrite all_chars_app, Ha, Hb. Qed.

Lemma one_line_no_line_feed (s : string) : one_line s -> contains nl s = false.
Proof.
  unfold one_line. induction s as [|c s IH]; [reflexivity|]. cbn [all_chars contains].
  intros H. apply andb_true_iff in H. destruct H as [Hc Hs]. rewrite (IH Hs).
  rewrite orb_false_r.
  destruct (startswith nl (String c s)) eqn:E; [|reflexivity].
  rewrite nl_char in E. apply startswith_cons in E. destruct E as [<- _].
  discriminate Hc.
Qed.

(** ** The helpers *)

Lemma _remove_banned_words_one_line (text : string) :
  one_line (fst (_remove_banned_words text)).
Proof.
  unfold _remove_banned_words. cbn [fst]. apply all_chars_join; [reflexivity|].
  pose proof (split_words text) as H.
  induction (split text) as [|w ws IH]; [reflexivity|].
  cbn [forallb map] in *. apply andb_true_iff in H. destruct H as [Hw Hws].
  rewrite (IH Hws), andb_true_r.
  destruct (is_banned w); [reflexivity | now apply word_one_line].
Qed.

Lemma sub_all_one_line (f : flags) (patterns : list pattern) (repl text : string) :
  one_line repl -> one_line text -> one_line (sub_all f patterns repl text).
Proof.
  intros Hrepl. unfold sub_all. revert text.
  induction patterns as [|p ps IH]; intros text H; [exact H|].
  cbn [fold_left]. apply IH. now apply sub_chars.
Qed.

Lemma email_replacement_one_line (m : string) :
  one_line m -> one_line (email_replacement m).
Proof.
  intros H. unfold email_replacement.
  apply one_line_app; [reflexivity|]. apply one_line_app; [|reflexivity].
  apply nth_chars. now apply split_on_go_chars.
Qed.

Lemma _sanitize_pii_one_line (text : string) :
  one_line text -> one_line (_sanitize_pii text).
Proof.
  intros H. unfold _sanitize_pii.
  apply sub_chars; [reflexivity|].
  apply sub_with_chars; [exact email_replacement_one_line|].
  apply sub_chars; [reflexivity|].
  apply sub_chars; [reflexivity | exact H].
Qed.

(** ** The steps of the two checks *)

(** A step keeps the text on one line. *)
Definition keeps_one_line (f : locals -> locals) : Prop :=
  forall l, one_line (l_sanitized l) -> one_line (l_sanitized (f l)).

Ltac step :=
  intros l H;
  repeat match goal with
         | |- context [if ?c then _ else _] => destruct c
         | |- context [match ?c with [] => _ | _ :: _ => _ end] => destruct c
         end;
  unfold warn, rewrite, block; cbn [l_sanitized];
  try exact H.

Lemma banned_one_line (text : string) (w : string) (l : locals) :
  one_line (l_sanitized
              (let '(sanitized, banned_found) := _remove_banned_words text in
               let l := rewrite sanitized l in
               if banned_found then warn w l else l)).
Proof.
  pose proof (_remove_banned_words_one_line text) as H.
  destruct (_remove_banned_words text) as [s found]. cbn [fst] in H.
  destruct found; exact H.
Qed.

Lemma r_banned_one_line l : one_line (l_sanitized (r_banned l)).
Proof. unfold r_banned. now apply banned_one_line. Qed.

Lemma q_banned_one_line l : one_line (l_sanitized (q_banned l)).
Proof. unfold q_banned. now apply banned_one_line. Qed.

Lemma r_profanity_one_line : keeps_one_line r_profanity.
Proof. unfold r_profanity. step. now apply sub_all_one_line. Qed.

Lemma q_profanity_one_line : keeps_one_line q_profanity.
Proof. unfold q_profanity. step. now apply sub_all_one_line. Qed.

Lemma r_pii_one_line : keeps_one_line r_pii.
Proof. unfold r_pii. step. now apply _sanitize_pii_one_line. Qed.

Lemma q_pii_one_line : keeps_one_line q_pii.
Proof. unfold q_pii. step. now apply _sanitize_pii_one_line. Qed.

Lemma r_sql_one_line : keeps_one_line r_sql.
Proof. unfold r_sql. step. Qed.

Lemma q_sql_one_line : keeps_one_line q_sql.
Proof. unfold q_sql. step. now apply sub_all_one_line. Qed.

Lemma r_command_one_line : keeps_one_line r_command.
Proof. unfold r_command. step. Qed.

Lemma q_command_one_line : keeps_one_line q_command.
Proof. unfold q_command. step. now apply sub_all_one_line. Qed.

Lemma fold_one_line {A : Type} (body : locals -> A -> locals) (xs : list A) :
  (forall x, keeps_one_line (fun l => body l x)) ->
  keeps_one_line (fun l => fold_left body xs l).
Proof.
  intros Hbody. induction xs as [|x xs IH]; intros l H; [exact H|].
  cbn [fold_left]. apply IH. now apply Hbody.
Qed.

Lemma r_urls_one_line : keeps_one_line r_urls.
Proof.
  intros l0. unfold r_urls. apply (fold_one_line _ (_extract_urls (l_sanitized l0))).
  intros url. step. now apply replace_chars.
Qed.

Lemma q_urls_one_line : keeps_one_line q_urls.
Proof.
  intros l0. unfold q_urls. apply (fold_one_line _ (_extract_urls (l_sanitized l0))).
  intros url. step.
Qed.

Lemma r_paths_one_line : keeps_one_line r_paths.
Proof. unfold r_paths. step. now apply sub_all_one_line. Qed.

Lemma q_paths_one_line : keeps_one_line q_paths.
Proof. unfold q_paths. step. now apply sub_all_one_line. Qed.

Lemma r_length_one_line result : keeps_one_line (r_length result).
Proof.
  unfold r_length. intros l H. destruct (max_result_length <? Py.len result)%Z; [|exact H].
  unfold warn, rewrite. cbn [l_sanitized].
  apply one_line_app; [|reflexivity]. now apply all_chars_slice_to.
Qed.

Lemma q_length_one_line query : keeps_one_line (q_length query).
Proof.
  unfold q_length. intros l H. destruct (max_query_length <? Py.len query)%Z; [|exact H].
  unfold warn, rewrite. cbn [l_sanitized].
  apply one_line_app; [|reflexivity]. now apply all_chars_slice_to.
Qed.

Lemma r_encoding_one_line : keeps_one_line r_encoding.
Proof. unfold r_encoding. step. Qed.

Lemma q_encoding_one_line : keeps_one_line q_encoding.
Proof. unfold q_encoding. step. Qed.

Lemma r_script_one_line : keeps_one_line r_script.
Proof. unfold r_script. step. Qed.

Lemma q_script_one_line : keeps_one_line q_script.
Proof. unfold q_script. step. now apply sub_all_one_line. Qed.

Lemma check_result_one_line (result : string) :
  one_line (sanitized_content (check_result result)).
Proof.
  cbv beta zeta delta [check_result]. unfold finish. cbn [sanitized_content].
  apply r_script_one_line, r_encoding_one_line, r_length_one_line, r_paths_one_line,
    r_urls_one_line, r_command_one_line, r_sql_one_line, r_pii_one_line,
    r_profanity_one_line, r_banned_one_line.
Qed.

Lemma check_query_one_line (query : string) :
  one_line (sanitized_content (check_query query)).
Proof.
  cbv beta zeta delta [check_query]. unfold finish. cbn [sanitized_content].
  apply q_script_one_line, q_encoding_one_line, q_length_one_line, q_paths_one_line,
    q_urls_one_line, q_command_one_line, q_sql_one_line, q_pii_one_line,
    q_profanity_one_line, q_banned_one_line.
Qed.

(** X1.  The text that [check_result] and [check_query] give back is
    written on one line: its only white-space character is the space,
    so that it holds no line feed, whatever the text checked. *)
Theorem sanitized_content_is_one_line (text : string) :
  (forall c, mem_char c (sanitized_content (check_result text)) = true ->
             is_space c = true -> c = " "%char)
  /\ contains nl (sanitized_content (check_result text)) = false
  /\ (forall c, mem_char c (sanitized_content (check_query text)) = true ->
                is_space c = true -> c = " "%char)
  /\ contains nl (sanitized_content (check_query text)) = false.
Proof.
  assert (Hmem : forall s, one_line s ->
                   forall c, mem_char c s = true -> is_space c = true -> c = " "%char).
  { intros s. unfold one_line. induction s as [|d s IH]; [discriminate|].
    cbn [all_chars mem_char]. intros H c Hc Hs.
    apply andb_true_iff in H. destruct H as [Hd Hrest].
    apply orb_true_iff in Hc. destruct Hc as [Hc|Hc]; [|now apply IH].
    apply Ascii.eqb_eq in Hc. subst d. unfold plain in Hd. rewrite Hs in Hd.
    now apply Ascii.eqb_eq in Hd. }
  pose proof (check_result_one_line text) as Hr.
  pose proof (check_query_one_line text) as Hq.
  split; [now apply Hmem|]. split; [now apply one_line_no_line_feed|].
  split; [now apply Hmem | now apply one_line_no_line_feed].
Qed.

End LayoutFacts.

(* ===================================================================== *)
(** * Verdicts of the safety gate *)
(* ===================================================================== *)

Module VerdictFacts.

Import Py PyFacts Re Guardrail GuardrailFacts FindFacts CharFacts.
Local Open Scope list_scope.

(** ** A long result is cut *)

Lemma len_slice_to (n : Z) (s : string) : (0 <= n -> len (slice_to n s) <= n)%Z.
Proof.
  unfold len. revert n. induction s as [|c s IH]; intros n Hn; cbn [slice_to].
  - simpl. lia.
  - destruct (n <=? 0)%Z eqn:E; [simpl; lia|]. apply Z.leb_gt in E.
    cbn [String.length]. specialize (IH (n - 1)%Z). lia.
Qed.

Lemma len_app (a b : string) : (len (a ++ b)%string = len a + len b)%Z.
Proof. unfold len. rewrite length_append. lia. Qed.

Definition length_warning : string := "Result exceeds maximum length (50000 chars)".

Lemma r_length_cuts (result : string) (l : locals) :
  (max_result_length < len result)%Z ->
  r_length result l
  = rewrite (slice_to max_result_length (l_sanitized l) ++ "... [truncated]")%string
            (warn length_warning l).
Proof.
  intros H. unfold r_length. apply Z.ltb_lt in H. rewrite H. reflexivity.
Qed.

Lemma r_encoding_text (l : locals) : l_sanitized (r_encoding l) = l_sanitized l.
Proof. unfold r_encoding. now destruct (_contains_suspicious_encoding (l_sanitized l)). Qed.

Lemma r_script_text (l : locals) : l_sanitized (r_script l) = l_sanitized l.
Proof. unfold r_script. now destruct (_contains_script_injection (l_sanitized l)). Qed.

(** X2.  A result longer than [max_result_length] characters is cut:
    the sanitized content of [check_result] is at most
    [max_result_length] characters of text followed by the mark
    ["... [truncated]"], so at most 15 characters more than the limit,
    and the warning about the length is among the warnings. *)
Theorem long_result_is_cut (result : string) :
  (max_result_length < len result)%Z ->
  (exists kept,
      sanitized_content (check_result result) = (kept ++ "... [truncated]")%string
      /\ (len kept <= max_result_length)%Z)
  /\ (len (sanitized_content (check_result result)) <= max_result_length + 15)%Z
  /\ In length_warning (warnings (check_result result)).
Proof.
  intros H. cbv beta zeta delta [check_result].
  set (l := r_paths _). unfold finish. cbn [sanitized_content warnings].
  rewrite r_script_text, r_encoding_text, (r_length_cuts result l H).
  unfold rewrite at 1 2. cbn [l_sanitized].
  assert (Hk : (len (slice_to max_result_length (l_sanitized l)) <= max_result_length)%Z)
    by (apply len_slice_to; unfold max_result_length; lia).
  split; [eexists; split; [reflexivity | exact Hk]|].
  split; [rewrite len_app; change (len "... [truncated]") with 15%Z; lia|].
  set (l1 := rewrite _ _).
  destruct (r_encoding_harmless l1) as (_ & _ & K1).
  destruct (r_script_harmless (r_encoding l1)) as (_ & _ & K2).
  apply (keeps_In _ _ _ K2), (keeps_In _ _ _ K1).
  unfold l1, rewrite, warn. cbn [l_warnings]. apply in_or_app. right. now left.
Qed.

(** A result of 50001 characters. *)
Lemma long_result_is_cut_witness :
  (len (sanitized_content
          (check_result (String.concat "" (repeat "a"%string (Z.to_nat 50001)))))
   <= 50015)%Z.
Proof.
  destruct (long_result_is_cut (String.concat "" (repeat "a"%string (Z.to_nat 50001))))
    as (_ & H & _); [vm_compute; reflexivity|].
  exact H.
Defined.

(** ** A verdict is blocked exactly when it has a reason *)

Definition reasons : list string :=
  [ "SQL injection pattern detected in query";
    "Command injection pattern detected in query";
    "Sensitive file path detected in query";
    "Script injection pattern detected in query" ].

Definition tied (l : locals) : Prop :=
  match l_reason l with
  | Some r => l_blocked l = true /\ In r reasons
  | None => l_blocked l = false
  end.

Lemma harmless_tied (f : locals -> locals) (l : locals) :
  harmless f -> tied l -> tied (f l).
Proof.
  intros Hf. destruct (Hf l) as (Hb & Hr & _). unfold tied. now rewrite Hb, Hr.
Qed.

Ltac blocking :=
  intros l H;
  match goal with |- context [if ?c then _ else _] => destruct c end;
  [unfold tied, rewrite, block; cbn [l_reason l_blocked]; split;
   [reflexivity | unfold reasons; simpl; tauto]
  | exact H].

Lemma q_sql_tied l : tied l -> tied (q_sql l).
Proof. revert l. unfold q_sql. blocking. Qed.

Lemma q_command_tied l : tied l -> tied (q_command l).
Proof. revert l. unfold q_command. blocking. Qed.

Lemma q_paths_tied l : tied l -> tied (q_paths l).
Proof. revert l. unfold q_paths. blocking. Qed.

Lemma q_script_tied l : tied l -> tied (q_script l).
Proof. revert l. unfold q_script. blocking. Qed.

Lemma query_verdict (query : string) :
  match reason (check_query query) with
  | Some r => blocked (check_query query) = true
              /\ passed (check_query query) = false
              /\ In r reasons
  | None => blocked (check_query query) = false
            /\ passed (check_query query) = true
  end.
Proof.
  cbv beta zeta delta [check_query].
  set (l := q_encoding _).
  assert (H : tied (q_script l)).
  { apply q_script_tied. unfold l.
    apply (harmless_tied _ _ q_encoding_harmless).
    apply (harmless_tied _ _ (q_length_harmless query)).
    apply q_paths_tied.
    apply (harmless_tied _ _ q_urls_harmless).
    apply q_command_tied, q_sql_tied.
    apply (harmless_tied _ _ q_pii_harmless).
    apply (harmless_tied _ _ q_profanity_harmless).
    apply (harmless_tied _ _ q_banned_harmless).
    reflexivity. }
  unfold finish. cbn [reason blocked passed]. unfold tied in H.
  destruct (l_reason (q_script l)) as [r|].
  - destruct H as [Hb Hin]. rewrite Hb. auto.
  - rewrite H. auto.
Qed.

(** X3.  The verdict of [check_query] has a reason exactly when the
    query is blocked: with a reason the query is blocked, not passed,
    and the reason is one of the four messages of the blocking
    heuristics; without a reason the query is passed and not blocked. *)
Theorem blocked_query_has_a_reason (query : string) :
  match reason (check_query query) with
  | Some r => blocked (check_query query) = true
              /\ passed (check_query query) = false
              /\ In r reasons
  | None => blocked (check_query query) = false
            /\ passed (check_query query) = true
  end.
Proof. apply query_verdict. Qed.

(** ** [_remove_banned_words], twice *)

Definition is_a_word (w : string) : bool :=
  match w with
  | EmptyString => false
  | String _ _ => all_chars nonspace w
  end.

Lemma list_of_string_of_list (l : list ascii) :
  list_ascii_of_string (string_of_list_ascii l) = l.
Proof. induction l as [|c l IH]; [reflexivity|]. cbn. now rewrite IH. Qed.

Lemma string_of_list_of_string (s : string) :
  string_of_list_ascii (list_ascii_of_string s) = s.
Proof. induction s as [|c s IH]; [reflexivity|]. cbn. now rewrite IH. Qed.

Lemma split_go_word (w rest : string) (cur : list ascii) :
  all_chars nonspace w = true ->
  split_go cur (w ++ rest)%string = split_go (rev (list_ascii_of_string w) ++ cur) rest.
Proof.
  revert cur. induction w as [|c w IH]; intros cur H; [reflexivity|].
  cbn [all_chars] in H. apply andb_true_iff in H. destruct H as [Hc Hw].
  cbn [append split_go list_ascii_of_string rev].
  unfold nonspace in Hc. apply negb_true_iff in Hc. rewrite Hc.
  rewrite (IH _ Hw), <- List.app_assoc. reflexivity.
Qed.

Lemma rev_string_word (w : string) :
  rev_string (rev (list_ascii_of_string w) ++ []) = w.
Proof.
  unfold rev_string. rewrite List.app_nil_r, rev_involutive.
  apply string_of_list_of_string.
Qed.

Lemma rev_word_nonempty (w : string) :
  is_a_word w = true -> rev (list_ascii_of_string w) ++ [] <> [].
Proof.
  destruct w as [|c w]; [discriminate|]. intros _ E.
  cbn [list_ascii_of_string rev] in E. rewrite List.app_nil_r in E.
  now apply app_eq_nil in E.
Qed.

Lemma is_a_word_chars (w : string) : is_a_word w = true -> all_chars nonspace w = true.
Proof. now destruct w. Qed.

Lemma split_join (ws : list string) :
  forallb is_a_word ws = true -> split (join " " ws) = ws.
Proof.
  unfold split, join. induction ws as [|w ws IH]; [reflexivity|].
  cbn [forallb]. intros H. apply andb_true_iff in H. destruct H as [Hw Hws].
  pose proof (rev_word_nonempty w Hw) as Hne.
  destruct ws as [|v ws].
  - change (String.concat " " [w]) with w. rewrite <- (PyFacts.app_nil_r w) at 1.
    rewrite split_go_word by now apply is_a_word_chars.
    cbn [split_go]. destruct (rev (list_ascii_of_string w) ++ []) eqn:E; [contradiction|].
    rewrite <- E. now rewrite rev_string_word.
  - change (String.concat " " (w :: v :: ws))
      with (w ++ String " " (String.concat " " (v :: ws)))%string.
    rewrite split_go_word by now apply is_a_word_chars.
    cbn [split_go]. change (is_space " ") with true. cbv iota.
    destruct (rev (list_ascii_of_string w) ++ []) eqn:E; [contradiction|].
    rewrite <- E, rev_string_word. f_equal. now apply IH.
Qed.

Lemma rev_string_nonempty (cur : list ascii) : cur <> [] -> rev_string cur <> ""%string.
Proof.
  intros H E. apply H. unfold rev_string in E.
  apply (f_equal list_ascii_of_string) in E. rewrite list_of_string_of_list in E.
  cbn in E. destruct cur as [|c cur]; [reflexivity|]. cbn [rev] in E.
  now apply app_eq_nil in E.
Qed.

Lemma split_go_are_words (cur : list ascii) (s : string) :
  forallb nonspace cur = true ->
  forallb is_a_word (split_go cur s) = true.
Proof.
  assert (Hword : forall cur, cur <> [] -> forallb nonspace cur = true ->
                              is_a_word (rev_string cur) = true).
  { intros c0 Hne Hc. pose proof (rev_string_nonempty c0 Hne) as Hn.
    pose proof (all_chars_rev_string nonspace c0 Hc) as Ha.
    unfold is_a_word. now destruct (rev_string c0). }
  revert cur. induction s as [|c s IH]; intros cur Hcur; cbn [split_go].
  - destruct cur as [|x cur]; [reflexivity|]. cbn [forallb].
    now rewrite Hword.
  - destruct (is_space c) eqn:E.
    + destruct cur as [|x cur]; [now apply IH|]. cbn [forallb].
      rewrite Hword by (auto; discriminate). now apply IH.
    + apply IH. cbn [forallb]. unfold nonspace at 1. now rewrite E.
Qed.

Lemma split_are_words (s : string) : forallb is_a_word (split s) = true.
Proof. now apply split_go_are_words. Qed.

(** The words that [_remove_banned_words] writes. *)
Definition sanitized_words (text : string) : list string :=
  map (fun word => if is_banned word then "[REDACTED]"%string else word) (split text).

Lemma sanitized_words_clean (text : string) :
  forallb is_a_word (sanitized_words text) = true
  /\ existsb is_banned (sanitized_words text) = false.
Proof.
  unfold sanitized_words. pose proof (split_are_words text) as H.
  induction (split text) as [|w ws IH]; [split; reflexivity|].
  cbn [forallb map existsb] in *. apply andb_true_iff in H. destruct H as [Hw Hws].
  destruct (IH Hws) as [IH1 IH2]. rewrite IH1, IH2.
  destruct (is_banned w) eqn:E.
  - split; reflexivity.
  - rewrite Hw, E. split; reflexivity.
Qed.

Lemma map_unbanned (ws : list string) :
  existsb is_banned ws = false ->
  map (fun word => if is_banned word then "[REDACTED]"%string else word) ws = ws.
Proof.
  induction ws as [|w ws IH]; [reflexivity|]. cbn [existsb map]. intros H.
  apply orb_false_iff in H. destruct H as [Hw Hws]. now rewrite Hw, IH.
Qed.

(** X4.  [_remove_banned_words] is idempotent: applied to its own
    output it finds no banned word and gives the text back
    unchanged. *)
Theorem banned_words_are_removed_once (text : string) :
  _remove_banned_words (fst (_remove_banned_words text))
  = (fst (_remove_banned_words text), false).
Proof.
  unfold _remove_banned_words at 2. cbn [fst].
  fold (sanitized_words text).
  destruct (sanitized_words_clean text) as [Hw Hb].
  unfold _remove_banned_words. rewrite (split_join _ Hw), Hb.
  now rewrite (map_unbanned _ Hb).
Qed.

End VerdictFacts.

(* ===================================================================== *)
(** * Results of a search *)
(* ===================================================================== *)

Module SearchFacts.

Import ConversationIndexer IndexerFacts.
Local Open Scope list_scope.
Local Open Scope Z_scope.

(** ** Distances *)

Lemma square_nonneg (a : Q) : (0 <= a * a)%Q.
Proof. unfold Qle, Qmult. simpl. nia. Qed.

Lemma l2_nonneg (x y : vector) : (0 <= l2 x y)%Q.
Proof.
  revert y. induction x as [|a x IH]; intros [|b y]; cbn [l2]; try apply Qle_refl.
  rewrite <- (Qplus_0_r 0). apply Qplus_le_compat; [apply square_nonneg | apply IH].
Qed.

Lemma l2_same (x : vector) : (l2 x x == 0)%Q.
Proof.
  induction x as [|a x IH]; cbn [l2]; [reflexivity|]. rewrite IH. ring.
Qed.

(** ** The ranking *)

(** A list of numbers in ascending order. *)
Fixpoint ascending (l : list Q) : Prop :=
  match l with
  | [] => True
  | a :: t => Forall (Qle a) t /\ ascending t
  end.

Definition ranked (i : Index) (x : vector) : list (Z * Q) :=
  fold_right insert_by_distance [] (number_from 0 (xb i) x).

Lemma insert_In (p q : Z * Q) (l : list (Z * Q)) :
  In q (insert_by_distance p l) <-> q = p \/ In q l.
Proof.
  induction l as [|r l IH]; cbn [insert_by_distance].
  - simpl. intuition.
  - destruct (Qle_bool (snd p) (snd r)); simpl in *; intuition.
Qed.

Lemma sorted_In (l : list (Z * Q)) (q : Z * Q) :
  In q (fold_right insert_by_distance [] l) <-> In q l.
Proof.
  induction l as [|p l IH]; cbn [fold_right]; [reflexivity|].
  rewrite insert_In, IH. simpl. intuition.
Qed.

Lemma insert_length (p : Z * Q) (l : list (Z * Q)) :
  List.length (insert_by_distance p l) = S (List.length l).
Proof.
  induction l as [|r l IH]; cbn [insert_by_distance]; [reflexivity|].
  destruct (Qle_bool (snd p) (snd r)); simpl; [reflexivity | now rewrite IH].
Qed.

Lemma sorted_length (l : list (Z * Q)) :
  List.length (fold_right insert_by_distance [] l) = List.length l.
Proof.
  induction l as [|p l IH]; cbn [fold_right]; [reflexivity|].
  rewrite insert_length. simpl. now rewrite IH.
Qed.

Lemma number_from_length (n : Z) (l : list vector) (x : vector) :
  List.length (number_from n l x) = List.length l.
Proof.
  revert n. induction l as [|v l IH]; intros n; simpl; [reflexivity | now rewrite IH].
Qed.

Lemma ranked_length (i : Index) (x : vector) :
  List.length (ranked i x) = List.length (xb i).
Proof. unfold ranked. now rewrite sorted_length, number_from_length. Qed.

Lemma Forall_le_trans (a b : Q) (t : list Q) :
  (a <= b)%Q -> Forall (Qle b) t -> Forall (Qle a) t.
Proof.
  intros Hab H. induction H as [|c t Hc _ IH]; constructor; [|exact IH].
  now apply (Qle_trans _ b).
Qed.

Lemma insert_ascending (p : Z * Q) (l : list (Z * Q)) :
  ascending (map snd l) -> ascending (map snd (insert_by_distance p l)).
Proof.
  induction l as [|r l IH]; cbn [insert_by_distance map ascending].
  - auto.
  - intros [Hr Hl]. destruct (Qle_bool (snd p) (snd r)) eqn:E; cbn [map ascending].
    + apply Qle_bool_iff in E. split; [|split; assumption].
      constructor; [exact E | now apply (Forall_le_trans _ (snd r))].
    + split; [|now apply IH].
      assert (Hle : (snd r <= snd p)%Q).
      { apply Qlt_le_weak, Qnot_le_lt. intros H. apply Qle_bool_iff in H. congruence. }
      apply Forall_forall. intros c Hc. apply in_map_iff in Hc.
      destruct Hc as (q & <- & Hq). apply insert_In in Hq. destruct Hq as [->|Hq].
      * exact Hle.
      * rewrite Forall_forall in Hr. apply Hr. now apply in_map.
Qed.

Lemma ranked_ascending (i : Index) (x : vector) : ascending (map snd (ranked i x)).
Proof.
  unfold ranked. induction (number_from 0 (xb i) x) as [|p l IH]; cbn [fold_right].
  - exact I.
  - now apply insert_ascending.
Qed.

Lemma firstn_In {A : Type} (k : nat) (l : list A) (a : A) :
  In a (firstn k l) -> In a l.
Proof.
  revert k. induction l as [|b l IH]; intros [|k]; cbn [firstn]; try contradiction.
  intros [<-|H]; [now left | right; now apply (IH k)].
Qed.

Lemma firstn_ascending (k : nat) (l : list Q) : ascending l -> ascending (firstn k l).
Proof.
  revert k. induction l as [|a l IH]; intros [|k]; cbn [firstn ascending]; auto.
  intros [Ha Hl]. split; [|now apply IH].
  apply Forall_forall. intros c Hc. rewrite Forall_forall in Ha.
  apply Ha. now apply (firstn_In k).
Qed.

(** With [k] at most the number of stored vectors, nothing pads the
    list of the nearest ones. *)
Lemma nearest_ranked (i : Index) (x : vector) (k : nat) :
  (k <= List.length (xb i))%nat -> nearest i x k = firstn k (ranked i x).
Proof.
  intros H. unfold nearest. fold (ranked i x).
  rewrite firstn_app. rewrite <- (ranked_length i x) in H.
  replace (k - List.length (ranked i x))%nat with 0%nat by lia.
  cbn [firstn]. apply List.app_nil_r.
Qed.

Lemma number_from_In (n : Z) (l : list vector) (x : vector) (p : Z * Q) :
  In p (number_from n l x) ->
  n <= fst p < n + Z.of_nat (List.length l) /\ exists v, In v l /\ snd p = l2 x v.
Proof.
  revert n. induction l as [|v l IH]; intros n; cbn [number_from]; [intros []|].
  intros [<-|H].
  - cbn [fst snd List.length]. split; [lia|]. exists v. split; [now left | reflexivity].
  - destruct (IH _ H) as (Hr & w & Hw & E). cbn [List.length]. split; [lia|].
    exists w. split; [now right | exact E].
Qed.

Lemma ranked_In (i : Index) (x : vector) (p : Z * Q) :
  In p (ranked i x) ->
  0 <= fst p < ntotal i /\ exists v, In v (xb i) /\ snd p = l2 x v.
Proof.
  unfold ranked. rewrite sorted_In. intros H.
  apply number_from_In in H. unfold ntotal. destruct H as [H1 H2]. split; [lia | exact H2].
Qed.

(** ** From the positions found to the results *)

Lemma getitem_In {A : Type} (l : list A) (idx : Z) (a : A) :
  getitem l idx = Some a -> In a l.
Proof.
  unfold getitem. destruct (0 <=? idx); [apply nth_error_In|].
  destruct (- Z.of_nat (List.length l) <=? idx); [apply nth_error_In | discriminate].
Qed.

Lemma collect_stored (md : list metadata_entry) (found : list (Z * Q))
      (results : list search_result) :
  collect md found = Some results ->
  forall r, In r results -> In (conversation r) md.
Proof.
  revert results. induction found as [|[idx distance] found IH]; intros results; cbn [collect].
  - intros [= <-] r [].
  - destruct (idx <? Z.of_nat (List.length md)); [|apply IH].
    destruct (getitem md idx) as [m|] eqn:G; [|discriminate].
    destruct (collect md found) as [rs|]; [|discriminate].
    intros [= <-] r [<-|H].
    + cbn [conversation]. exact (getitem_In _ _ _ G).
    + now apply (IH rs).
Qed.

Lemma collect_ascending (md : list metadata_entry) (found : list (Z * Q))
      (results : list search_result) :
  collect md found = Some results ->
  ascending (map snd found) ->
  ascending (map similarity_distance results)
  /\ forall a, Forall (Qle a) (map snd found) ->
               Forall (Qle a) (map similarity_distance results).
Proof.
  revert results. induction found as [|[idx distance] found IH]; intros results;
    cbn [collect map ascending snd].
  - intros [= <-] _. split; [exact I | constructor].
  - intros H [Hd Hf].
    destruct (idx <? Z.of_nat (List.length md)).
    + destruct (getitem md idx) as [m|]; [|discriminate].
      destruct (collect md found) as [rs|]; [|discriminate].
      injection H as <-. destruct (IH rs eq_refl Hf) as [IH1 IH2].
      cbn [map ascending similarity_distance]. split; [split; auto|].
      intros a Ha. inversion Ha; subst. constructor; auto.
    + destruct (IH results H Hf) as [IH1 IH2]. split; [exact IH1|].
      intros a Ha. inversion Ha; subst. auto.
Qed.

Lemma search_cases service self query top_k :
  search service self query top_k = []
  \/ exists i x,
       index self = Some i
       /\ collect (metadata self)
                  (firstn (Z.to_nat (Z.min top_k (ntotal i))) (ranked i x))
          = Some (search service self query top_k).
Proof.
  unfold search. destruct (index self) as [i|]; [|now left].
  destruct (ntotal i =? 0); [now left|].
  destruct (search_try service self i query top_k) as [results|] eqn:E; [|now left].
  unfold search_try in E. destruct (get_embedding service query) as [|x xs]; [discriminate|].
  unfold index_search in E.
  destruct ((List.length (x :: xs) =? d i)%nat && (0 <? Z.min top_k (ntotal i)));
    [|discriminate].
  rewrite nearest_ranked in E by (unfold ntotal; lia).
  right. now exists i, (x :: xs).
Qed.

Lemma search_stored service self query top_k r :
  In r (search service self query top_k) -> In (conversation r) (metadata self).
Proof.
  destruct (search_cases service self query top_k) as [->|(i & x & _ & E)]; [intros []|].
  exact (collect_stored _ _ _ E r).
Qed.

Lemma search_ascending service self query top_k :
  ascending (map similarity_distance (search service self query top_k)).
Proof.
  destruct (search_cases service self query top_k) as [->|(i & x & _ & E)]; [exact I|].
  apply (collect_ascending _ _ _ E).
  rewrite <- firstn_map. apply firstn_ascending, ranked_ascending.
Qed.

(** X5.  Every result of [search] is a conversation of the metadata of
    the indexer, and the results come in ascending order of their
    [similarity_distance]. *)
Theorem search_results_are_stored_and_ranked service self query top_k :
  (forall r, In r (search service self query top_k) ->
             In (conversation r) (metadata self))
  /\ ascending (map similarity_distance (search service self query top_k)).
Proof.
  split; [intros r; apply search_stored | apply search_ascending].
Qed.

End SearchFacts.

(* ===================================================================== *)
(** * Insertion followed by search *)
(* ===================================================================== *)

Module RoundTripFacts.

Import ConversationIndexer IndexerFacts SearchFacts.
Local Open Scope list_scope.
Local Open Scope Z_scope.

(** What a call that adds a record leaves in memory. *)
Lemma index_conversation_inserted service now io session_id user_query final_answer
      tool_calls timestamp self dk :
  inserted self (fst (index_conversation service now io session_id user_query
                        final_answer tool_calls timestamp self dk)) ->
  exists the_index entry,
    get_embedding service (searchable_text user_query final_answer tool_calls) <> []
    /\ List.length (get_embedding service (searchable_text user_query final_answer tool_calls))
       = d the_index
    /\ ntotal the_index = get_conversation_count self
    /\ fst (index_conversation service now io session_id user_query
              final_answer tool_calls timestamp self dk)
       = mkIndexer
           (Some (mkIndex (d the_index)
                    (xb the_index
                     ++ [get_embedding service
                           (searchable_text user_query final_answer tool_calls)])))
           (metadata self ++ [entry])
    /\ index_position entry = List.length (metadata self)
    /\ ConversationIndexer.user_query entry = user_query
    /\ ConversationIndexer.final_answer entry = final_answer
    /\ ConversationIndexer.session_id entry = session_id.
Proof.
  unfold index_conversation, inserted.
  set (embedding := get_embedding service _).
  set (the_index := match index self with Some i => i | None => _ end).
  assert (Hc : ntotal the_index = get_conversation_count self).
  { unfold the_index, get_conversation_count. now destruct (index self). }
  destruct embedding as [|x xs] eqn:E; cbn [fst metadata]; [lia|].
  unfold index_add. destruct (Nat.eqb (List.length (x :: xs)) (d the_index)) eqn:D;
    cbn [fst metadata]; [|lia].
  intros _. apply Nat.eqb_eq in D.
  eexists the_index, _. split; [discriminate|]. split; [exact D|]. split; [exact Hc|].
  split; [reflexivity|]. cbn [index_position ConversationIndexer.user_query
                              ConversationIndexer.final_answer
                              ConversationIndexer.session_id]. auto.
Qed.

Lemma number_from_has (n : Z) (l : list vector) (x v : vector) :
  In v l -> exists m, In (m, l2 x v) (number_from n l x).
Proof.
  revert n. induction l as [|w l IH]; intros n; [intros []|].
  cbn [number_from]. intros [->|H].
  - exists n. now left.
  - destruct (IH (n + 1) H) as [m Hm]. exists m. now right.
Qed.

(** When one of the stored vectors is the query itself, the nearest one
    is at distance zero. *)
Lemma ranked_head (i : Index) (x : vector) :
  In x (xb i) ->
  exists p rest, ranked i x = p :: rest /\ (snd p == 0)%Q.
Proof.
  intros Hx. destruct (number_from_has 0 (xb i) x x Hx) as [m Hm].
  assert (Hin : In (m, l2 x x) (ranked i x)) by (unfold ranked; now apply sorted_In).
  pose proof (ranked_ascending i x) as Hasc.
  destruct (ranked i x) as [|p rest] eqn:E; [destruct Hin|].
  exists p, rest. split; [reflexivity|].
  apply Qle_antisym.
  - rewrite <- (l2_same x). destruct Hin as [->|Hin]; [apply Qle_refl|].
    cbn [map ascending] in Hasc. destruct Hasc as [Hall _].
    rewrite Forall_forall in Hall. apply Hall.
    change (l2 x x) with (snd (m, l2 x x)). now apply in_map.
  - assert (Hp : In p (ranked i x)) by (rewrite E; now left).
    apply ranked_In in Hp. destruct Hp as (_ & v & _ & ->). apply l2_nonneg.
Qed.

Lemma getitem_in_range {A : Type} (l : list A) (idx : Z) :
  0 <= idx < Z.of_nat (List.length l) -> exists a, getitem l idx = Some a.
Proof.
  intros H. unfold getitem. replace (0 <=? idx) with true by (symmetry; apply Z.leb_le; lia).
  destruct (nth_error l (Z.to_nat idx)) as [a|] eqn:E; [now exists a|].
  apply nth_error_None in E. lia.
Qed.

Lemma collect_in_range (md : list metadata_entry) (found : list (Z * Q)) :
  (forall p, In p found -> 0 <= fst p < Z.of_nat (List.length md)) ->
  exists results,
    collect md found = Some results
    /\ map similarity_distance results = map snd found.
Proof.
  induction found as [|[idx distance] found IH]; intros H; cbn [collect].
  - now exists [].
  - pose proof (H (idx, distance) (or_introl eq_refl)) as Hidx. cbn [fst] in Hidx.
    replace (idx <? Z.of_nat (List.length md)) with true by (symmetry; apply Z.ltb_lt; lia).
    destruct (getitem_in_range md idx Hidx) as [m ->].
    destruct IH as (rs & -> & Hrs); [intros p Hp; apply H; now right|].
    eexists. split; [reflexivity|]. cbn [map similarity_distance snd]. now rewrite Hrs.
Qed.



(** ** The place of an entry *)

(** Every entry records its own place in the metadata. *)
Definition placed (md : list metadata_entry) : Prop :=
  forall n entry, nth_error md n = Some entry -> index_position entry = n.

Lemma placed_app (md : list metadata_entry) (entry : metadata_entry) :
  placed md -> index_position entry = List.length md -> placed (md ++ [entry]).
Proof.
  intros Hmd He n e Hn.
  destruct (Nat.lt_ge_cases n (List.length md)) as [Hlt|Hge].
  - rewrite nth_error_app1 in Hn by exact Hlt. now apply Hmd.
  - rewrite nth_error_app2 in Hn by exact Hge.
    destruct (n - List.length md)%nat as [|m] eqn:E; cbn [nth_error] in Hn.
    + injection Hn as <-. lia.
    + now destruct m.
Qed.

(** X7.  [index_conversation] keeps the invariant that every entry of
    the metadata records its own place in [index_position]; on a
    consistent indexer the entry that an insertion adds comes last, its
    [index_position] is the count of conversations before the call, and
    the count after the call is one more. *)
Theorem index_position_is_the_place
        service now io session_id user_query final_answer tool_calls timestamp self dk :
  placed (metadata self) ->
  placed (metadata (fst (index_conversation service now io session_id user_query
                           final_answer tool_calls timestamp self dk)))
  /\ (consistent self ->
      inserted self (fst (index_conversation service now io session_id user_query
                            final_answer tool_calls timestamp self dk)) ->
      exists entry,
        metadata (fst (index_conversation service now io session_id user_query
                         final_answer tool_calls timestamp self dk))
        = metadata self ++ [entry]
        /\ Z.of_nat (index_position entry) = get_conversation_count self
        /\ get_conversation_count
             (fst (index_conversation service now io session_id user_query
                     final_answer tool_calls timestamp self dk))
           = Z.of_nat (index_position entry) + 1).
Proof.
  intros Hplaced.
  assert (Hins : inserted self (fst (index_conversation service now io session_id
                   user_query final_answer tool_calls timestamp self dk)) ->
                 exists the_index entry,
                   ntotal the_index = get_conversation_count self
                   /\ fst (index_conversation service now io session_id user_query
                             final_answer tool_calls timestamp self dk)
                      = mkIndexer
                          (Some (mkIndex (d the_index)
                             (xb the_index
                              ++ [get_embedding service
                                    (searchable_text user_query final_answer tool_calls)])))
                          (metadata self ++ [entry])
                   /\ index_position entry = List.length (metadata self)).
  { intros H. destruct (index_conversation_inserted _ _ _ _ _ _ _ _ _ _ H)
      as (the_index & entry & _ & _ & Hc & Hs & Hp & _).
    now exists the_index, entry. }
  split.
  - destruct (index_conversation_cases service now io session_id user_query
                final_answer tool_calls timestamp self dk)
      as [(Hm & _ & _) | (added & entry0 & Hs & _ & _)].
    + now rewrite Hm.
    + destruct Hins as (the_index & entry & _ & Hs' & Hp).
      { unfold inserted. rewrite Hs. cbn [metadata]. rewrite length_app. simpl. lia. }
      rewrite Hs'. cbn [metadata]. now apply placed_app.
  - intros Hcons H. destruct (Hins H) as (the_index & entry & Hc & -> & Hp).
    exists entry. cbn [metadata get_conversation_count index].
    split; [reflexivity|]. unfold consistent in Hcons. rewrite Hp.
    split; [exact Hcons|]. unfold ntotal in *. cbn [xb]. rewrite length_app. simpl. lia.
Qed.

Lemma index_position_is_the_place_witness :
  placed (metadata (fst (index_conversation (fun _ => Embedding [1%Q; 2%Q]) 0%Q
                           (mkSaveIo Written Written) "s1" "my name is John" "noted"
                           None None (mkIndexer None []) (mkDisk Absent Absent)))).
Proof.
  apply (index_position_is_the_place (fun _ => Embedding [1%Q; 2%Q]) 0%Q
           (mkSaveIo Written Written) "s1" "my name is John" "noted" None None
           (mkIndexer None []) (mkDisk Absent Absent)).
  intros [|n] entry H; discriminate H.
Defined.

End RoundTripFacts.

(* ===================================================================== *)
(** * The memory on the disk *)
(* ===================================================================== *)

Module PersistenceFacts.

Import ConversationIndexer IndexerFacts.
Local Open Scope list_scope.
Local Open Scope Z_scope.

(** Both reads succeed. *)
Definition readable (rio : load_io) : Prop :=
  index_read_ok rio = true /\ metadata_read_ok rio = true.

(** X8.  Saving followed by loading.  When both writes succeed and both
    reads succeed, [load_index] on the files that [save_index] wrote
    gives back the indexer that was saved, if it has an index; an
    indexer without index saves its metadata only and leaves the index
    file as it was. *)
Theorem saved_memory_is_read_back (io : save_io) (rio : load_io)
        (self : ConversationIndexer) (dk : disk) :
  saved io -> readable rio ->
  (forall i, index self = Some i -> load_index rio (save_index io self dk) = self)
  /\ (index self = None ->
      save_index io self dk = mkDisk (INDEX_FILE dk) (Stored (metadata self))).
Proof.
  intros Hsaved [Hi Hm]. split.
  - intros i Hindex. rewrite (save_index_saved io self dk i Hindex Hsaved).
    unfold load_index, read. cbn [INDEX_FILE METADATA_FILE]. rewrite Hi, Hm.
    destruct self as [ix md]. cbn [index metadata] in *. now subst ix.
  - intros Hnone. destruct Hsaved as [_ Hw]. unfold save_index. now rewrite Hnone, Hw.
Qed.

Lemma saved_memory_is_read_back_witness :
  load_index (mkLoadIo true true)
    (save_index (mkSaveIo Written Written)
       (mkIndexer (Some (mkIndex 2 [[1%Q; 2%Q]]))
                  [mkEntry "s1" "my name is John" "noted" [] 0%Q 0])
       (mkDisk Absent Damaged))
  = mkIndexer (Some (mkIndex 2 [[1%Q; 2%Q]]))
              [mkEntry "s1" "my name is John" "noted" [] 0%Q 0].
Proof.
  destruct (saved_memory_is_read_back (mkSaveIo Written Written) (mkLoadIo true true)
              (mkIndexer (Some (mkIndex 2 [[1%Q; 2%Q]]))
                         [mkEntry "s1" "my name is John" "noted" [] 0%Q 0])
              (mkDisk Absent Damaged)) as [H _];
    [split; reflexivity | split; reflexivity |].
  exact (H _ eq_refl).
Defined.

(** ** A first load that fails *)

(** X9.  When the files could not be loaded, so that the global
    indexer starts empty, the first conversation indexed through the
    module-level [index_conversation] is saved over both files: if the
    embedding is not empty and both writes succeed, then after the call
    the index file holds one vector and the metadata file one entry, at
    position 0, whatever the files held before. *)
Theorem insertion_after_failed_load_overwrites
        service now lio sio session_id user_query final_answer tool_calls timestamp dk :
  load_index lio dk = mkIndexer None [] ->
  get_embedding service (searchable_text user_query final_answer tool_calls) <> [] ->
  saved sio ->
  exists entry,
    Convenience.index_conversation service now lio sio session_id user_query
      final_answer tool_calls timestamp None dk
    = (Some (mkIndexer
               (Some (mkIndex
                        (List.length (get_embedding service
                                        (searchable_text user_query final_answer tool_calls)))
                        [get_embedding service
                           (searchable_text user_query final_answer tool_calls)]))
               [entry]),
       mkDisk
         (Stored (mkIndex
                    (List.length (get_embedding service
                                    (searchable_text user_query final_answer tool_calls)))
                    [get_embedding service
                       (searchable_text user_query final_answer tool_calls)]))
         (Stored [entry]))
    /\ ConversationIndexer.user_query entry = user_query
    /\ index_position entry = 0%nat.
Proof.
  intros Hload Hne [Hw Hm]. unfold Convenience.index_conversation, get_indexer, init.
  rewrite Hload. unfold index_conversation. cbn [index metadata].
  destruct (get_embedding service _) as [|x xs] eqn:E; [contradiction|].
  unfold index_add, IndexFlatL2. cbn [d xb]. rewrite Nat.eqb_refl.
  unfold save_index. cbn [index metadata List.app List.length]. rewrite Hw, Hm.
  cbn [write raised]. eexists. split; [reflexivity|]. split; reflexivity.
Qed.

(** Two conversations are on the disk; the index file cannot be read
    when the process starts, and the first insertion leaves one record
    in the files. *)
Definition unreadable : disk :=
  mkDisk (Stored (mkIndex 2 [[1%Q; 2%Q]; [3%Q; 4%Q]]))
         (Stored [mkEntry "s1" "my name is John" "noted" [] 0%Q 0;
                  mkEntry "s2" "I live in Rome" "noted" [] 1%Q 1]).

Lemma insertion_after_failed_load_overwrites_witness :
  exists entry,
    snd (Convenience.index_conversation (fun _ => Embedding [5%Q; 6%Q]) 2%Q
           (mkLoadIo false true) (mkSaveIo Written Written)
           "s3" "hello" "hi" None None None unreadable)
    = mkDisk (Stored (mkIndex 2 [[5%Q; 6%Q]])) (Stored [entry]).
Proof.
  destruct (insertion_after_failed_load_overwrites (fun _ => Embedding [5%Q; 6%Q]) 2%Q
              (mkLoadIo false true) (mkSaveIo Written Written)
              "s3" "hello" "hi" None None unreadable) as (entry & H & _);
    [reflexivity | discriminate | split; reflexivity |].
  exists entry. now rewrite H.
Defined.

End PersistenceFacts.

(* ===================================================================== *)
(** * Wrapping text *)
(* ===================================================================== *)

Module WrapFacts.

Import Py PyFacts FindFacts CharFacts VerdictFacts HistoricalCheck.
Local Open Scope list_scope.
Local Open Scope Z_scope.

(** ** Stripping on the right *)

Lemma rstrip_length (P : ascii -> bool) (s : string) :
  (String.length (rstrip_by P s) <= String.length s)%nat.
Proof.
  induction s as [|c s IH]; [apply Nat.le_refl|]. cbn [rstrip_by].
  destruct (rstrip_by P s) as [|d r].
  - destruct (P c); simpl; lia.
  - simpl in *. lia.
Qed.

Lemma rstrip_stripped (P : ascii -> bool) (t : string) :
  all_chars P t = true -> rstrip_by P t = ""%string.
Proof.
  induction t as [|c t IH]; [reflexivity|]. cbn [all_chars rstrip_by].
  intros H. apply andb_true_iff in H. destruct H as [Hc Ht]. now rewrite (IH Ht), Hc.
Qed.

Lemma rstrip_app_stripped (P : ascii -> bool) (s t : string) :
  all_chars P t = true -> rstrip_by P (s ++ t) = rstrip_by P s.
Proof.
  intros Ht. induction s as [|c s IH]; cbn [append].
  - now apply rstrip_stripped.
  - cbn [rstrip_by]. now rewrite IH.
Qed.

Lemma len_rstrip (s : string) : len (rstrip s) <= len s.
Proof. unfold len, rstrip. pose proof (rstrip_length is_space s). lia. Qed.

Lemma len_nonneg (s : string) : 0 <= len s.
Proof. unfold len. lia. Qed.

(** ** The lines fit *)

Section Fit.

Variable max_width : Z.

Definition fits (line : string) : Prop := len line <= max_width.

Definition fit_state (st : list string * string) : Prop :=
  Forall fits (fst st) /\ fits (rstrip (snd st)).

Lemma wrap_step_fits (st : list string * string) (word : string) :
  fits word -> fit_state st -> fit_state (wrap_step max_width st word).
Proof.
  destruct st as [lines current_line]. unfold fit_state, fits, wrap_step.
  cbn [fst snd]. intros Hw [Hl Hc].
  destruct (len current_line + len word + 1 <=? max_width) eqn:E; cbn [fst snd].
  - apply Z.leb_le in E. split; [exact Hl|].
    eapply Z.le_trans; [apply len_rstrip|].
    destruct current_line as [|c cur].
    + exact Hw.
    + rewrite !VerdictFacts.len_app. change (len " ") with 1. lia.
  - split.
    + destruct current_line; [exact Hl|]. apply Forall_app. split; [exact Hl|].
      now constructor.
    + unfold rstrip. rewrite rstrip_app_stripped by reflexivity.
      eapply Z.le_trans; [apply len_rstrip | exact Hw].
Qed.

Lemma fold_fits (words : list string) (st : list string * string) :
  Forall fits words -> fit_state st ->
  fit_state (fold_left (wrap_step max_width) words st).
Proof.
  revert st. induction words as [|w ws IH]; intros st Hw Hst; [exact Hst|].
  inversion Hw; subst. cbn [fold_left]. apply IH; [assumption|].
  now apply wrap_step_fits.
Qed.

End Fit.

(** X10.  When [max_width] is not negative and no word of the text is
    longer than [max_width], no line that [_wrap_text] returns is longer
    than [max_width]. *)
Theorem wrapped_lines_fit (text : string) (max_width : Z) :
  0 <= max_width ->
  Forall (fun word => len word <= max_width) (split text) ->
  Forall (fun line => len line <= max_width) (_wrap_text text max_width).
Proof.
  intros Hpos Hwords. unfold _wrap_text.
  assert (H : fit_state max_width (fold_left (wrap_step max_width) (split text) ([], ""%string))).
  { apply fold_fits; [exact Hwords|]. split; [constructor | exact Hpos]. }
  destruct (fold_left (wrap_step max_width) (split text) ([], ""%string))
    as [lines current_line].
  destruct H as [Hl Hc]. cbn [fst snd] in *.
  assert (Hall : Forall (fits max_width)
                   match current_line with
                   | EmptyString => lines
                   | String _ _ => lines ++ [rstrip current_line]
                   end).
  { destruct current_line; [exact Hl|]. apply Forall_app. split; [exact Hl|].
    now constructor. }
  destruct (match current_line with
            | EmptyString => lines
            | String _ _ => lines ++ [rstrip current_line]
            end); [|exact Hall].
  constructor; [exact Hpos | constructor].
Qed.

Lemma wrapped_lines_fit_witness :
  Forall (fun line => len line <= 10)
         (_wrap_text "the quick brown fox jumps" 10).
Proof.
  apply wrapped_lines_fit; [lia|].
  vm_compute. repeat constructor; discriminate.
Defined.

(** ** The first two words *)

Section Glue.

Variables (max_width : Z) (w1 w2 : string).

(** The line that holds the first two words begins with them, joined. *)
Definition glued_state (st : list string * string) : Prop :=
  snd st <> ""%string
  /\ ((fst st = [] /\ exists t, snd st = ((w1 ++ w2) ++ t)%string)
      \/ exists line lines, fst st = line :: lines
                            /\ startswith (w1 ++ w2) line = true).

Hypothesis second_word : is_a_word w2 = true.

Lemma rstrip_keeps_words (t : string) :
  startswith (w1 ++ w2) (rstrip ((w1 ++ w2) ++ t)) = true.
Proof.
  assert (Hl : last_char nonspace (w1 ++ w2) = true).
  { apply last_char_app. destruct w2 as [|c w]; [discriminate|].
    cbn [is_a_word] in second_word. clear - second_word.
    revert c second_word. induction w as [|d w IH]; intros c H.
    - cbn [all_chars] in H. now rewrite andb_true_r in H.
    - cbn [all_chars] in H. apply andb_true_iff in H. destruct H as [_ H].
      cbn [last_char]. now apply IH. }
  apply last_char_split in Hl. destruct Hl as (u & z & E & Hz). rewrite E.
  unfold rstrip, nonspace in *. apply negb_true_iff in Hz.
  rewrite PyFacts.app_assoc. cbn [append]. rewrite (rstrip_kept_char _ _ _ _ Hz).
  change (u ++ String z (rstrip_by is_space t))%string
    with (u ++ String z "" ++ rstrip_by is_space t)%string.
  rewrite <- PyFacts.app_assoc. apply startswith_app.
Qed.

Lemma wrap_step_glued (st : list string * string) (word : string) :
  glued_state st -> glued_state (wrap_step max_width st word).
Proof.
  destruct st as [lines current_line]. unfold glued_state, wrap_step. cbn [fst snd].
  intros [Hne H]. destruct current_line as [|c cur]; [contradiction|].
  destruct (len (String c cur) + len word + 1 <=? max_width); cbn [fst snd].
  - split; [discriminate|]. destruct H as [[-> [t Ht]]|H]; [|now right].
    left. split; [reflexivity|]. exists (t ++ word ++ " ")%string.
    now rewrite Ht, !PyFacts.app_assoc.
  - split; [destruct word; discriminate|]. right.
    destruct H as [[-> [t Ht]]|(line & ls & -> & Hs)].
    + exists (rstrip (String c cur)), []. split; [reflexivity|].
      rewrite Ht. apply rstrip_keeps_words.
    + exists line, (ls ++ [rstrip (String c cur)]). now split.
Qed.

Lemma fold_glued (words : list string) (st : list string * string) :
  glued_state st -> glued_state (fold_left (wrap_step max_width) words st).
Proof.
  revert st. induction words as [|w ws IH]; intros st H; [exact H|].
  cbn [fold_left]. now apply IH, wrap_step_glued.
Qed.

End Glue.

Lemma first_two_steps (max_width : Z) (w1 w2 : string) :
  is_a_word w1 = true ->
  len w1 + len w2 + 1 <= max_width ->
  wrap_step max_width (wrap_step max_width ([], ""%string) w1) w2
  = ([], (w1 ++ w2 ++ " ")%string).
Proof.
  intros H1 Hfit. unfold wrap_step at 2.
  assert (E1 : (len "" + len w1 + 1 <=? max_width) = true)
    by (apply Z.leb_le; change (len "") with 0; pose proof (len_nonneg w2); lia).
  rewrite E1. cbn [append]. unfold wrap_step.
  assert (E2 : (len w1 + len w2 + 1 <=? max_width) = true) by now apply Z.leb_le.
  rewrite E2. destruct w1; [discriminate | reflexivity].
Qed.

(** X11.  [_wrap_text] puts no space after the first word of the text:
    when the first two words fit together on a line, the first line
    begins with the first word followed at once by the second. *)
Theorem first_two_words_are_glued (text : string) (max_width : Z)
        (w1 w2 : string) (others : list string) :
  split text = w1 :: w2 :: others ->
  len w1 + len w2 + 1 <= max_width ->
  exists line lines,
    _wrap_text text max_width = line :: lines
    /\ startswith (w1 ++ w2) line = true.
Proof.
  intros Hsplit Hfit. unfold _wrap_text. rewrite Hsplit.
  pose proof (split_are_words text) as Hwords. rewrite Hsplit in Hwords.
  cbn [forallb] in Hwords. apply andb_true_iff in Hwords. destruct Hwords as [H1 Hwords].
  apply andb_true_iff in Hwords. destruct Hwords as [H2 _].
  cbn [fold_left]. rewrite (first_two_steps max_width w1 w2 H1 Hfit).
  assert (H : glued_state w1 w2 ([], (w1 ++ w2 ++ " ")%string)).
  { split; [destruct w1; [discriminate H1 | discriminate]|].
    left. split; [reflexivity|]. exists " "%string.
    now rewrite PyFacts.app_assoc. }
  apply (fold_glued max_width w1 w2 H2 others) in H.
  destruct (fold_left (wrap_step max_width) others ([], (w1 ++ w2 ++ " ")%string))
    as [lines current_line].
  destruct H as [Hne H]. cbn [fst snd] in *.
  destruct current_line as [|c cur]; [contradiction|].
  destruct H as [[-> [t Ht]]|(line & ls & -> & Hs)].
  - cbn [List.app]. eexists _, []. split; [reflexivity|].
    rewrite Ht. now apply rstrip_keeps_words.
  - cbn [List.app]. eexists line, _. split; [reflexivity | exact Hs].
Qed.

Lemma first_two_words_are_glued_witness :
  exists line lines,
    _wrap_text "the quick brown fox jumps" 10 = line :: lines
    /\ startswith "thequick" line = true.
Proof.
  apply (first_two_words_are_glued "the quick brown fox jumps" 10 "the" "quick"
           ["brown"; "fox"; "jumps"]%string); [reflexivity | vm_compute; discriminate].
Defined.

(** ** Nothing but white space is lost *)

(** A text without its white space. *)
Fixpoint squeeze (s : string) : string :=
  match s with
  | EmptyString => EmptyString
  | String c s' => if is_space c then squeeze s' else String c (squeeze s')
  end.

Lemma squeeze_app (a b : string) : squeeze (a ++ b) = (squeeze a ++ squeeze b)%string.
Proof.
  induction a as [|c a IH]; [reflexivity|]. cbn [append squeeze].
  destruct (is_space c); [exact IH | cbn [append]; now rewrite IH].
Qed.

Lemma squeeze_word (w : string) : all_chars nonspace w = true -> squeeze w = w.
Proof.
  induction w as [|c w IH]; [reflexivity|]. cbn [all_chars squeeze]. intros H.
  apply andb_true_iff in H. destruct H as [Hc Hw]. unfold nonspace in Hc.
  apply negb_true_iff in Hc. now rewrite Hc, IH.
Qed.

Lemma squeeze_rstrip (s : string) : squeeze (rstrip s) = squeeze s.
Proof.
  unfold rstrip. induction s as [|c s IH]; [reflexivity|]. cbn [rstrip_by].
  destruct (rstrip_by is_space s) as [|d r] eqn:E.
  - cbn [squeeze] in *. rewrite <- IH.
    destruct (is_space c) eqn:Ec; cbn [squeeze]; now rewrite ?Ec.
  - cbn [squeeze] in *. now rewrite IH.
Qed.

Lemma concat_cons (x : string) (l : list string) :
  String.concat "" (x :: l) = (x ++ String.concat "" l)%string.
Proof. destruct l; cbn [String.concat]; [now rewrite PyFacts.app_nil_r | reflexivity]. Qed.

Lemma concat_app (l1 l2 : list string) :
  String.concat "" (l1 ++ l2) = (String.concat "" l1 ++ String.concat "" l2)%string.
Proof.
  induction l1 as [|x l1 IH]; [reflexivity|].
  change ((x :: l1) ++ l2) with (x :: (l1 ++ l2)).
  now rewrite !concat_cons, IH, PyFacts.app_assoc.
Qed.

Lemma rev_string_cons (c : ascii) (cur : list ascii) :
  rev_string (c :: cur) = (rev_string cur ++ String c "")%string.
Proof.
  unfold rev_string. cbn [rev]. induction (rev cur) as [|d l IH]; [reflexivity|].
  cbn. now rewrite IH.
Qed.

Lemma concat_split_go (cur : list ascii) (s : string) :
  String.concat "" (split_go cur s) = (rev_string cur ++ squeeze s)%string.
Proof.
  revert cur. induction s as [|c s IH]; intros cur; cbn [split_go squeeze].
  - destruct cur; [reflexivity|]. rewrite concat_cons. reflexivity.
  - destruct (is_space c).
    + destruct cur; [apply IH|]. now rewrite concat_cons, IH.
    + rewrite IH, rev_string_cons, PyFacts.app_assoc. reflexivity.
Qed.

Lemma concat_split (s : string) : String.concat "" (split s) = squeeze s.
Proof. apply concat_split_go. Qed.

(** What a state of the loop spells. *)
Definition spelled (st : list string * string) : string :=
  squeeze (String.concat "" (fst st) ++ snd st).

Lemma wrap_step_spelled (max_width : Z) (st : list string * string) (word : string) :
  all_chars nonspace word = true ->
  spelled (wrap_step max_width st word) = (spelled st ++ word)%string.
Proof.
  intros Hw. destruct st as [lines current_line]. unfold spelled, wrap_step.
  cbn [fst snd].
  destruct (len current_line + len word + 1 <=? max_width); cbn [fst snd].
  - destruct current_line; rewrite !squeeze_app, (squeeze_word word Hw);
      change (squeeze " ") with ""%string; change (squeeze "") with ""%string;
      now rewrite ?PyFacts.app_nil_r, ?PyFacts.app_assoc.
  - destruct current_line.
    + rewrite !squeeze_app, (squeeze_word word Hw).
      change (squeeze " ") with ""%string. change (squeeze "") with ""%string.
      now rewrite !PyFacts.app_nil_r.
    + rewrite concat_app, concat_cons. change (String.concat "" []) with ""%string.
      rewrite PyFacts.app_nil_r, !squeeze_app, squeeze_rstrip, (squeeze_word word Hw).
      change (squeeze " ") with ""%string.
      now rewrite PyFacts.app_nil_r, ?PyFacts.app_assoc.
Qed.

Lemma fold_spelled (max_width : Z) (words : list string) (st : list string * string) :
  forallb (all_chars nonspace) words = true ->
  spelled (fold_left (wrap_step max_width) words st)
  = (spelled st ++ String.concat "" words)%string.
Proof.
  revert st. induction words as [|w ws IH]; intros st H.
  - cbn. now rewrite PyFacts.app_nil_r.
  - cbn [forallb] in H. apply andb_true_iff in H. destruct H as [Hw Hws].
    cbn [fold_left]. rewrite (IH _ Hws), (wrap_step_spelled _ _ _ Hw), concat_cons.
    now rewrite PyFacts.app_assoc.
Qed.

(** X12.  [_wrap_text] returns at least one line, and loses nothing but
    white space: the lines put end to end hold the characters of the
    text that are not white space, in the same order. *)
Theorem wrapping_keeps_the_text (text : string) (max_width : Z) :
  _wrap_text text max_width <> []
  /\ squeeze (String.concat "" (_wrap_text text max_width)) = squeeze text.
Proof.
  unfold _wrap_text.
  pose proof (fold_spelled max_width (split text) ([], ""%string) (split_words text)) as H.
  rewrite concat_split in H. change (spelled ([], ""%string)) with ""%string in H.
  cbn [append] in H.
  destruct (fold_left (wrap_step max_width) (split text) ([], ""%string))
    as [lines current_line].
  unfold spelled in H. cbn [fst snd] in H.
  assert (E : squeeze (String.concat ""
                match current_line with
                | EmptyString => lines
                | String _ _ => lines ++ [rstrip current_line]
                end) = squeeze text).
  { rewrite <- H. destruct current_line; [now rewrite PyFacts.app_nil_r|].
    rewrite concat_app, concat_cons. change (String.concat "" []) with ""%string.
    now rewrite PyFacts.app_nil_r, !squeeze_app, squeeze_rstrip. }
  destruct (match current_line with
            | EmptyString => lines
            | String _ _ => lines ++ [rstrip current_line]
            end); [|split; [discriminate | exact E]].
  split; [discriminate | exact E].
Qed.

Example glued : _wrap_text "a b c" 10 = ["ab c"%string].
Proof. reflexivity. Qed.

Example wrapped : _wrap_text "the quick brown fox jumps" 10 = ["thequick"; "brown fox"; "jumps"]%string.
Proof. reflexivity. Qed.

End WrapFacts.

(* ===================================================================== *)
(** * Verdicts of the historical pre-check *)
(* ===================================================================== *)

Module PreCheckFacts.

Import Backend HistoricalCheck Agent.
Local Open Scope list_scope.

(** The dictionaries that the check can return. *)
Inductive verdict : dict -> Prop :=
| v_cannot : verdict cannot_answer
| v_none : verdict no_context
| v_answer answer :
    Py.startswith "FINAL_ANSWER:" answer = true ->
    verdict [("can_answer", VBool true); ("answer", VStr answer)]
| v_context context summary :
    Py.startswith "Previous Q: " context = true ->
    verdict [("can_answer", VBool false); ("has_context", VBool true);
             ("context", VStr context); ("context_summary", VStr summary)].

Lemma classify_verdict historical_context llm_response :
  Py.startswith "Previous Q: " historical_context = true ->
  verdict (classify historical_context llm_response).
Proof.
  intros Hc. unfold classify.
  destruct (Py.startswith "FINAL_ANSWER:" llm_response) eqn:E1; [now constructor|].
  destruct (Py.startswith "HAS_CONTEXT:" llm_response); [|constructor].
  match goal with |- context [if ?b then _ else _] => destruct b end;
    [constructor | now constructor].
Qed.

Lemma context_starts (items : list string) (c : conversation) (cs : list conversation) :
  items = map format_item (c :: cs) ->
  Py.startswith "Previous Q: " (Py.join (Py.nl ++ Py.nl) items) = true.
Proof.
  intros ->. cbn [map]. unfold Py.join, format_item.
  destruct (map _ cs) as [|i is_]; cbn [String.concat];
    rewrite ?PyFacts.app_assoc; apply PyFacts.startswith_app.
Qed.

Lemma check_verdict call_tool generate_text user_input :
  verdict (fst (check_historical_conversations call_tool generate_text user_input))
  /\ (List.length (snd (check_historical_conversations call_tool generate_text user_input))
      <= 1)%nat.
Proof.
  unfold check_historical_conversations.
  destruct (call_tool _ _) as [| | |[|c cs]]; cbn [fst snd List.length];
    try (split; [constructor | lia]).
  unfold context_items.
  destruct (filter _ (firstn 5 (c :: cs))) as [|k ks] eqn:E;
    cbn [map fst snd List.length]; [split; [constructor | lia]|].
  destruct (generate_text _) as [llm_response|]; cbn [fst snd List.length];
    [|split; [constructor | lia]].
  split; [|lia]. apply classify_verdict.
  now apply (context_starts _ k ks).
Qed.

Lemma verdict_answer historical_check :
  verdict historical_check ->
  get_bool "can_answer" historical_check = true ->
  get_bool "has_context" historical_check = false
  /\ exists answer,
       getitem_str "answer" historical_check = Some answer
       /\ Py.startswith "FINAL_ANSWER:" answer = true.
Proof.
  intros [| |answer Ha|context summary Hc]; cbn; try discriminate.
  intros _. split; [reflexivity|]. now exists answer.
Qed.

Lemma verdict_context historical_check :
  verdict historical_check ->
  get_bool "has_context" historical_check = true ->
  get_bool "can_answer" historical_check = false
  /\ exists context,
       getitem_str "context" historical_check = Some context
       /\ Py.startswith "Previous Q: " context = true.
Proof.
  intros [| |answer Ha|context summary Hc]; cbn; try discriminate.
  intros _. split; [reflexivity|]. now exists context.
Qed.

(** X13.  The dictionary that [check_historical_conversations] returns
    never says both [can_answer] and [has_context].  With [can_answer]
    it holds an ["answer"] that begins with [FINAL_ANSWER:]; with
    [has_context] it holds a ["context"] that begins with
    [Previous Q: ].  The check sends at most one prompt to the model. *)
Theorem precheck_verdict_is_well_formed call_tool generate_text user_input :
  let historical_check :=
    fst (check_historical_conversations call_tool generate_text user_input) in
  (get_bool "can_answer" historical_check = true ->
   get_bool "has_context" historical_check = false
   /\ exists answer,
        getitem_str "answer" historical_check = Some answer
        /\ Py.startswith "FINAL_ANSWER:" answer = true)
  /\ (get_bool "has_context" historical_check = true ->
      get_bool "can_answer" historical_check = false
      /\ exists context,
           getitem_str "context" historical_check = Some context
           /\ Py.startswith "Previous Q: " context = true)
  /\ (List.length (snd (check_historical_conversations call_tool generate_text user_input))
      <= 1)%nat.
Proof.
  destruct (check_verdict call_tool generate_text user_input) as [H Hlen].
  cbv zeta. split; [|split; [|exact Hlen]].
  - now apply verdict_answer.
  - now apply verdict_context.
Qed.

End PreCheckFacts.

(* ===================================================================== *)
(** * What the task loop returns *)
(* ===================================================================== *)

Module LoopInvariants.

Import Backend Loop.
Local Open Scope list_scope.
Local Open Scope Z_scope.

(** A returned dictionary is well formed in the state [st] that [run]
    leaves: its result begins with [FINAL_ANSWER:], it is the final answer
    stored in the context, and its status is ["done"] or ["error"]. *)
Definition well_formed (status result : string) (st : state) : Prop :=
  Py.startswith FINAL_ANSWER result = true
  /\ final_answer st = Some result
  /\ (status = "done"%string \/ status = "error"%string).

Definition flow_ok (f : flow) (st : state) : Prop :=
  match f with
  | Return_ status result => well_formed status result st
  | Break | Retry | Raise => True
  end.

Lemma final_prefixed (result : string) :
  Py.startswith FINAL_ANSWER ("FINAL_ANSWER: " ++ result) = true.
Proof. reflexivity. Qed.

Lemma no_tools_ok env perception st :
  flow_ok (fst (no_tools env perception st)) (snd (no_tools env perception st)).
Proof.
  unfold no_tools.
  match goal with |- context [generate_text env ?h] => destruct (generate_text env h) end;
    cbn [fst snd flow_ok]; unfold well_formed;
    cbn [final_answer set_final_answer emit].
  - split; [apply LoopFacts.ensure_final_starts|]. split; [reflexivity | now left].
  - split; [reflexivity|]. split; [reflexivity | now right].
Qed.

Lemma direct_analysis_ok env current_user_input st returned st1 :
  direct_analysis env current_user_input st = (Some returned, st1) ->
  flow_ok (fst returned) (snd returned).
Proof.
  unfold direct_analysis.
  match goal with |- context [generate_text env ?h] => destruct (generate_text env h) end;
    [|discriminate].
  intros [= <- _]. cbn [fst snd flow_ok]. unfold well_formed.
  cbn [final_answer set_final_answer emit].
  split; [apply LoopFacts.ensure_final_starts|]. split; [reflexivity | now left].
Qed.

Lemma llm_fallback_ok env content st returned st1 :
  llm_fallback env content st = (Some returned, st1) ->
  flow_ok (fst returned) (snd returned).
Proof.
  unfold llm_fallback.
  match goal with |- context [generate_text env ?h] => destruct (generate_text env h) end;
    [|discriminate].
  intros [= <- _]. cbn [fst snd flow_ok]. unfold well_formed.
  cbn [final_answer set_final_answer emit].
  split; [apply LoopFacts.ensure_final_starts|]. split; [reflexivity | now left].
Qed.

Lemma further_processing_ok env result st :
  flow_ok (fst (further_processing env result st)) (snd (further_processing env result st)).
Proof.
  unfold further_processing.
  match goal with |- context [if ?b then _ else _] => destruct b end; [|exact I].
  match goal with |- context [llm_fallback ?e ?c ?s] =>
    destruct (llm_fallback e c s) as [[returned|] st1] eqn:E end; [|exact I].
  exact (llm_fallback_ok _ _ _ _ _ E).
Qed.

Lemma record_and_decide_ok plan result success contains_marker st answer :
  final_answer st = Some answer ->
  Py.startswith FINAL_ANSWER answer = true ->
  flow_ok (fst (record_and_decide plan result success contains_marker st))
          (snd (record_and_decide plan result success contains_marker st)).
Proof.
  intros Hf Hs. unfold record_and_decide.
  destruct (success && negb contains_marker); [|exact I].
  cbn [fst snd flow_ok]. unfold well_formed. cbn [final_answer emit].
  rewrite Hf. cbn [get]. split; [exact Hs|]. split; [reflexivity | now left].
Qed.

Lemma on_result_ok env plan reply st :
  flow_ok (fst (on_result env plan reply st)) (snd (on_result env plan reply st)).
Proof.
  unfold on_result. destruct reply as [result|shown|]; [| |exact I].
  - destruct (Py.startswith FINAL_ANSWER (Py.strip result)) eqn:E1.
    + cbn [fst snd flow_ok]. unfold well_formed. cbn [final_answer set_final_answer emit].
      split; [exact E1|]. split; [reflexivity | now left].
    + destruct (Py.startswith FURTHER_PROCESSING_REQUIRED (Py.strip result));
        [apply further_processing_ok|].
      destruct (Py.startswith "[sandbox error:" (Py.strip result)).
      * now apply (record_and_decide_ok _ _ _ _ _ "FINAL_ANSWER: [Execution failed]").
      * apply (record_and_decide_ok _ _ _ _ _ ("FINAL_ANSWER: " ++ Py.strip result));
          [reflexivity | apply final_prefixed].
  - apply (record_and_decide_ok _ _ _ _ _ ("FINAL_ANSWER: " ++ shown));
      [reflexivity | apply final_prefixed].
Qed.

Lemma plan_and_run_ok env max_steps current_user_input st ended :
  plan_and_run env max_steps current_user_input st = inl ended ->
  flow_ok (fst ended) (snd ended).
Proof.
  unfold plan_and_run.
  match goal with |- context [generate_plan env ?h] => destruct (generate_plan env h) as [plan|] end.
  - destruct (has_solve plan); [discriminate|]. now intros [= <-].
  - now intros [= <-].
Qed.

Lemma to_execution_ok env max_steps st ended :
  to_execution env max_steps st = inl ended ->
  flow_ok (fst ended) (snd ended).
Proof.
  unfold to_execution.
  match goal with |- context [get_tools_from_servers env ?s] =>
    destruct (get_tools_from_servers env s) end.
  - intros [= <-]. apply no_tools_ok.
  - match goal with |- context [if ?b then _ else _] => destruct b end;
      [|apply plan_and_run_ok].
    match goal with |- context [direct_analysis ?e ?c ?s] =>
      destruct (direct_analysis e c s) as [[returned|] st1] eqn:E end.
    + intros [= <-]. exact (direct_analysis_ok _ _ _ _ _ E).
    + apply plan_and_run_ok.
Qed.

Lemma iteration_ok env max_steps st :
  flow_ok (fst (iteration env max_steps st)) (snd (iteration env max_steps st)).
Proof.
  unfold iteration.
  destruct (to_execution env max_steps st) as [ended|[[plan reply] st1]] eqn:E.
  - exact (to_execution_ok _ _ _ _ E).
  - apply on_result_ok.
Qed.

Definition outcome_ok (o : outcome) (st : state) : Prop :=
  match o with
  | Returned status result => well_formed status result st
  | Raised => True
  | OutOfFuel => True
  end.

Lemma while_loop_ok fuel env max_steps lifelines_left st :
  match fst (while_loop fuel env max_steps lifelines_left st) with
  | Ended o => outcome_ok o (snd (while_loop fuel env max_steps lifelines_left st))
  | Broke | Exhausted => True
  end.
Proof.
  revert lifelines_left st. induction fuel as [|fuel IH]; intros lifelines_left st;
    cbn [while_loop]; destruct (0 <=? lifelines_left); try exact I.
  pose proof (iteration_ok env max_steps st) as H.
  destruct (iteration env max_steps st) as [[status result| | |] st1];
    cbn [fst snd] in *; try exact I; [exact H | apply IH].
Qed.

Lemma for_loop_ok env max_steps max_lifelines_per_step steps st :
  outcome_ok (fst (for_loop env max_steps max_lifelines_per_step steps st))
             (snd (for_loop env max_steps max_lifelines_per_step steps st)).
Proof.
  revert st. induction steps as [|step steps IH]; intros st; cbn [for_loop].
  - cbn. unfold well_formed. cbn. auto.
  - unfold run_step.
    match goal with |- context [while_loop ?f ?e ?m ?l ?s] =>
      pose proof (while_loop_ok f e m l s) as H;
      destruct (while_loop f e m l s) as [[o| |] st1] end;
      cbn [fst snd] in *; [exact H | apply IH | apply IH].
Qed.

Lemma run_ok env max_steps max_lifelines_per_step st status result st' :
  run env max_steps max_lifelines_per_step st = (Returned status result, st') ->
  well_formed status result st'.
Proof.
  intros H.
  pose proof (for_loop_ok env max_steps max_lifelines_per_step (range max_steps)
                (set_further_processing_count 0 st)) as Hok.
  unfold run in H. now rewrite H in Hok.
Qed.


End LoopInvariants.

(* ===================================================================== *)
(** * Content forwarded to the next pass *)
(* ===================================================================== *)

Module ForwardFacts.

Import Backend Loop Py PyFacts FindFacts.

(** The text that [override_message] puts before the content, and the
    text that it puts after it. *)
Definition before_content (user_input : string) : string :=
  "Original user task: " ++ user_input ++ nl ++ nl ++ result_marker.

Definition after_content : string :=
  "❗CRITICAL: Analyze the content above and return FINAL_ANSWER. DO NOT call any tools - the content is already provided!" ++ nl ++ nl ++
  "Return: FINAL_ANSWER: [your analysis]".

Lemma override_message_parts (user_input content : string) :
  override_message user_input content
  = before_content user_input ++ nl ++ nl ++ content ++ nl ++ nl ++ after_content.
Proof.
  unfold override_message, before_content, after_content, result_marker.
  cbn [append]. do 20 f_equal. now rewrite !app_assoc.
Qed.

Lemma after_result_marker (user_input tail : string) :
  contains result_marker user_input = false ->
  after result_marker (before_content user_input ++ tail)
  = String.length (before_content user_input).
Proof.
  intros Hu. unfold after, before_content.
  replace (("Original user task: " ++ user_input ++ nl ++ nl ++ result_marker) ++ tail)
    with ("Original user task: " ++ user_input ++ nl ++ nl ++ result_marker ++ tail)
    by (cbn [append]; do 20 f_equal; now rewrite !app_assoc).
  unfold result_marker in *.
  rewrite find_marker by (auto; reflexivity).
  rewrite !length_append. simpl. lia.
Qed.

Lemma after_content_marked :
  after_content = critical_marker ++ drop (String.length critical_marker) after_content.
Proof. reflexivity. Qed.

Lemma strip_framed (content tail : string) :
  first_char nonspace content = true ->
  last_char nonspace tail = true ->
  strip (nl ++ nl ++ content ++ tail) = content ++ tail.
Proof.
  intros Hc Ht. unfold strip, strip_by.
  rewrite <- app_assoc. rewrite (lstrip_head is_space (nl ++ nl)) by reflexivity.
  rewrite lstrip_first by (now apply first_char_app).
  apply rstrip_last. now apply last_char_app.
Qed.

Lemma strip_followed (content : string) :
  first_char nonspace content = true ->
  last_char nonspace content = true ->
  strip (content ++ nl ++ nl) = content.
Proof.
  intros Hf Hl. unfold strip, strip_by.
  rewrite lstrip_first by (now apply first_char_app).
  now apply rstrip_tail.
Qed.

Lemma provided_content_override (user_input content : string) :
  trimmed content ->
  contains result_marker user_input = false ->
  contains critical_marker content = false ->
  provided_content (override_message user_input content) = content.
Proof.
  intros Ht Hu Hc. unfold provided_content.
  rewrite override_message_parts, (after_result_marker _ _ Hu), drop_app.
  destruct Ht as [->|[Hf Hl]].
  - reflexivity.
  - replace (nl ++ nl ++ content ++ nl ++ nl ++ after_content)
      with (nl ++ nl ++ content ++ (nl ++ nl ++ after_content)) by reflexivity.
    rewrite (strip_framed content _ Hf) by reflexivity.
    rewrite after_content_marked.
    unfold critical_marker in *.
    set (tail := drop (String.length "❗CRITICAL:") after_content).
    assert (E : find "❗CRITICAL:" (content ++ nl ++ nl ++ "❗CRITICAL:" ++ tail)
                = Some (String.length content + 2))
      by exact (find_marker _ _ "" content tail eq_refl Hc eq_refl).
    rewrite E.
    replace (content ++ nl ++ nl ++ "❗CRITICAL:" ++ tail)
      with ((content ++ nl ++ nl) ++ "❗CRITICAL:" ++ tail)
      by (now rewrite !app_assoc).
    replace (String.length content + 2) with (String.length (content ++ nl ++ nl))
      by (rewrite !length_append; simpl; lia).
    rewrite take_app. now apply strip_followed.
Qed.

Lemma original_task_override (st : state) (user_task content : string) :
  mem_char newline user_task = false ->
  original_task st (override_message user_task content) = strip user_task.
Proof.
  intros Hn. unfold original_task, override_message, task_marker.
  set (rest := "Your last tool produced this result:" ++ _).
  rewrite contains_here by reflexivity.
  unfold after. rewrite find_here by reflexivity.
  change (0 + String.length "Original user task:") with 19.
  unfold find_from. cbn [drop append].
  replace (String " " (user_task ++ nl ++ nl ++ rest))
    with ((" " ++ user_task) ++ nl ++ nl ++ rest)
    by reflexivity.
  rewrite find_blank_line by exact Hn.
  cbn [option_map].
  replace (19 + String.length (" " ++ user_task) - 19)
    with (String.length (" " ++ user_task)) by lia.
  rewrite take_app.
  replace (0 <? 19 + String.length (" " ++ user_task)) with true
    by (symmetry; apply Nat.ltb_lt; lia).
  reflexivity.
Qed.

(** X15.  What a pass forwards is what the next pass analyses.  Take a
    user input without line feed that does not hold the marker of a tool
    result, and a forwarded content that, once stripped, does not hold
    the marker [❗CRITICAL:].  The override message written for the next
    pass holds the marker of a tool result; from it the next pass reads
    back exactly the stripped content and the stripped user input, and
    asks the model with the analysis prompt made of the two. *)
Theorem forwarded_content_is_recovered env (st : state) (raw : string) :
  let content := strip raw in
  let message := override_message (user_input st) content in
  mem_char newline (user_input st) = false ->
  contains result_marker (user_input st) = false ->
  contains critical_marker content = false ->
  contains result_marker message = true
  /\ provided_content message = content
  /\ original_task st message = strip (user_input st)
  /\ exists rest,
       history (snd (direct_analysis env message st))
       = (history st
          ++ GenerateText (analysis_prompt (strip (user_input st))
                                           (content_to_analyze content)) :: rest)%list.
Proof.
  intros content message Hn Hu Hc.
  assert (Hp : provided_content message = content)
    by (apply provided_content_override; [apply strip_trimmed | assumption | assumption]).
  assert (Ho : original_task st message = strip (user_input st))
    by now apply original_task_override.
  split; [|split; [exact Hp | split; [exact Ho|]]].
  - unfold message. rewrite override_message_parts. unfold before_content.
    apply occurs_contains.
    exists ("Original user task: " ++ user_input st ++ nl ++ nl),
           (nl ++ nl ++ content ++ nl ++ nl ++ after_content).
    now rewrite !app_assoc.
  - unfold direct_analysis. rewrite Hp, Ho.
    match goal with |- context [generate_text env ?h] => destruct (generate_text env h) end;
      cbn [snd history emit set_final_answer]; eexists.
    + rewrite <- List.app_assoc. reflexivity.
    + reflexivity.
Qed.

Lemma forwarded_content_is_recovered_witness :
  provided_content (override_message "summarise the page" "The page is about Rocq.")
  = "The page is about Rocq."
  /\ original_task (fresh "summarise the page" None)
                   (override_message "summarise the page" "The page is about Rocq.")
     = "summarise the page".
Proof.
  destruct (forwarded_content_is_recovered LoopFacts.no_plan_env
              (fresh "summarise the page" None)
              ("  The page is about Rocq." ++ nl))
    as (_ & Hp & Ho & _); [reflexivity | reflexivity | reflexivity |].
  split; [exact Hp | exact Ho].
Defined.

End ForwardFacts.

(* ===================================================================== *)
(** * The work of a turn *)
(* ===================================================================== *)

Module LoopBounds.

Import Backend Loop.
Local Open Scope list_scope.

Definition is_perception (e : event) : bool :=
  match e with RunPerception _ _ => true | _ => false end.
Definition is_plan (e : event) : bool :=
  match e with GeneratePlan _ _ _ => true | _ => false end.
Definition is_sandbox (e : event) : bool :=
  match e with RunSandbox _ => true | _ => false end.
Definition is_model (e : event) : bool :=
  match e with GenerateText _ => true | _ => false end.
Definition is_tool (e : event) : bool :=
  match e with CallTool _ _ => true | _ => false end.

(** The number of calls of one kind in a history. *)
Definition calls (p : event -> bool) (h : list event) : nat :=
  List.length (filter p h).

Lemma calls_app p h1 h2 : calls p (h1 ++ h2) = calls p h1 + calls p h2.
Proof. unfold calls. now rewrite filter_app, length_app. Qed.

(** From [st] to [st'] at most [n] passes were made: at most [n] calls
    of perception, of the planner and of the sandbox, and at most [2 * n]
    calls of the model. *)
Definition within (n : nat) (st st' : state) : Prop :=
  calls is_perception (history st') <= calls is_perception (history st) + n
  /\ calls is_plan (history st') <= calls is_plan (history st) + n
  /\ calls is_sandbox (history st') <= calls is_sandbox (history st) + n
  /\ calls is_model (history st') <= calls is_model (history st) + 2 * n.

(** What the parts of a pass add to the history. *)
Record added (st st' : state) (perceptions plans sandboxes models : nat) : Prop := {
  add_perception : calls is_perception (history st') = calls is_perception (history st) + perceptions;
  add_plan : calls is_plan (history st') = calls is_plan (history st) + plans;
  add_sandbox : calls is_sandbox (history st') = calls is_sandbox (history st) + sandboxes;
  add_model : calls is_model (history st') = calls is_model (history st) + models
}.

(** The state in which [plan_and_run] leaves the pass, whichever way it
    ends. *)
Definition left_by {A : Type} (r : (flow * state) + (A * state)) : state :=
  match r with
  | inl (_, st) => st
  | inr (_, st) => st
  end.

Ltac tally :=
  unfold forward;
  cbn [fst snd left_by history emit set_final_answer set_user_input_override set_step
       set_further_processing_count];
  rewrite ?calls_app; cbn [calls filter is_perception is_plan is_sandbox is_model List.length];
  lia.

Ltac adds := constructor; tally.

Lemma no_tools_adds env perception st :
  added st (snd (no_tools env perception st)) 0 0 0 1.
Proof.
  unfold no_tools.
  match goal with |- context [generate_text env ?h] => destruct (generate_text env h) end;
    adds.
Qed.

Lemma direct_analysis_adds env current_user_input st :
  added st (snd (direct_analysis env current_user_input st)) 0 0 0 1
  /\ match fst (direct_analysis env current_user_input st) with
     | Some returned => added st (snd returned) 0 0 0 1
     | None => True
     end.
Proof.
  unfold direct_analysis.
  match goal with |- context [generate_text env ?h] => destruct (generate_text env h) end;
    cbn [fst snd]; split; try exact I; adds.
Qed.

Lemma llm_fallback_adds env content st :
  added st (snd (llm_fallback env content st)) 0 0 0 1
  /\ match fst (llm_fallback env content st) with
     | Some returned => added st (snd returned) 0 0 0 1
     | None => True
     end.
Proof.
  unfold llm_fallback.
  match goal with |- context [generate_text env ?h] => destruct (generate_text env h) end;
    cbn [fst snd]; split; try exact I; adds.
Qed.

Lemma further_processing_adds env result st :
  exists models, models <= 1
    /\ added st (snd (further_processing env result st)) 0 0 0 models.
Proof.
  unfold further_processing.
  match goal with |- context [if ?b then _ else _] => destruct b end;
    [|exists 0; split; [lia | adds]].
  match goal with |- context [llm_fallback ?e ?c ?s] =>
    destruct (llm_fallback_adds e c s) as [[H1 H2 H3 H4] H];
    destruct (llm_fallback e c s) as [[returned|] st1] end;
    cbn [fst snd] in *; exists 1; (split; [lia|]).
  - destruct H as [G1 G2 G3 G4]. constructor; revert G1 G2 G3 G4; tally.
  - constructor; revert H1 H2 H3 H4; tally.
Qed.

Lemma record_and_decide_adds plan result success contains_marker st :
  added st (snd (record_and_decide plan result success contains_marker st)) 0 0 0 0.
Proof.
  unfold record_and_decide. destruct (success && negb contains_marker); adds.
Qed.

Lemma on_result_adds env plan reply st :
  exists models, models <= 1
    /\ added st (snd (on_result env plan reply st)) 0 0 0 models.
Proof.
  unfold on_result. destruct reply as [result|shown|].
  - destruct (Py.startswith FINAL_ANSWER (Py.strip result));
      [exists 0; split; [lia | adds]|].
    destruct (Py.startswith FURTHER_PROCESSING_REQUIRED (Py.strip result));
      [apply further_processing_adds|].
    destruct (Py.startswith "[sandbox error:" (Py.strip result));
      exists 0; (split; [lia|]);
      match goal with |- context [record_and_decide ?p ?r ?s ?c ?t] =>
        destruct (record_and_decide_adds p r s c t) as [G1 G2 G3 G4] end;
      constructor; revert G1 G2 G3 G4; tally.
  - exists 0. split; [lia|].
    match goal with |- context [record_and_decide ?p ?r ?s ?c ?t] =>
      destruct (record_and_decide_adds p r s c t) as [G1 G2 G3 G4] end;
    constructor; revert G1 G2 G3 G4; tally.
  - exists 0. split; [lia | adds].
Qed.

Lemma plan_and_run_adds env max_steps current_user_input st :
  exists sandboxes, sandboxes <= 1
    /\ added st (left_by (plan_and_run env max_steps current_user_input st))
             0 1 sandboxes 0.
Proof.
  unfold plan_and_run.
  match goal with |- context [generate_plan env ?h] => destruct (generate_plan env h) as [plan|] end.
  - destruct (has_solve plan); cbn [left_by].
    + exists 1. split; [lia | adds].
    + exists 0. split; [lia | adds].
  - exists 0. split; [lia | adds].
Qed.

Lemma to_execution_adds env max_steps st :
  exists plans sandboxes models, plans <= 1 /\ sandboxes <= 1 /\ models <= 1
    /\ added st (left_by (to_execution env max_steps st)) 1 plans sandboxes models.
Proof.
  unfold to_execution.
  match goal with |- context [get_tools_from_servers env ?s] =>
    destruct (get_tools_from_servers env s) end.
  - exists 0, 0, 1. repeat (split; [lia|]).
    match goal with |- context [no_tools ?e ?p ?s] =>
      destruct (no_tools_adds e p s) as [G1 G2 G3 G4];
      destruct (no_tools e p s) as [f st1] end.
    cbn [left_by snd] in *. constructor; revert G1 G2 G3 G4; tally.
  - match goal with |- context [if ?b then _ else _] => destruct b end.
    + match goal with |- context [direct_analysis ?e ?c ?s] =>
        destruct (direct_analysis_adds e c s) as [[H1 H2 H3 H4] H];
        destruct (direct_analysis e c s) as [[[f st2]|] st1] end; cbn [fst snd] in *.
      * exists 0, 0, 1. repeat (split; [lia|]). cbn [left_by].
        destruct H as [G1 G2 G3 G4]. constructor; revert G1 G2 G3 G4; tally.
      * match goal with |- context [plan_and_run ?e ?m ?c ?s] =>
          destruct (plan_and_run_adds e m c s) as (sandboxes & Hs & [G1 G2 G3 G4]) end.
        exists 1, sandboxes, 1. repeat (split; [lia|]).
        constructor; revert H1 H2 H3 H4 G1 G2 G3 G4; tally.
    + match goal with |- context [plan_and_run ?e ?m ?c ?s] =>
        destruct (plan_and_run_adds e m c s) as (sandboxes & Hs & [G1 G2 G3 G4]) end.
      exists 1, sandboxes, 0. repeat (split; [lia|]).
      constructor; revert G1 G2 G3 G4; tally.
Qed.

Lemma iteration_within env max_steps st :
  within 1 st (snd (iteration env max_steps st)).
Proof.
  unfold iteration.
  destruct (to_execution_adds env max_steps st)
    as (plans & sandboxes & models & Hp & Hs & Hm & [G1 G2 G3 G4]).
  destruct (to_execution env max_steps st) as [[f st1]|[[plan reply] st1]];
    cbn [left_by snd] in *.
  - unfold within. lia.
  - destruct (on_result_adds env plan reply st1) as (models' & Hm' & [K1 K2 K3 K4]).
    unfold within. lia.
Qed.

Lemma within_refl st : within 0 st st.
Proof. unfold within. lia. Qed.

Lemma within_trans a b st1 st2 st3 :
  within a st1 st2 -> within b st2 st3 -> within (a + b) st1 st3.
Proof. unfold within. lia. Qed.

Lemma within_more a b st1 st2 : a <= b -> within a st1 st2 -> within b st1 st2.
Proof. unfold within. lia. Qed.

Lemma while_loop_within fuel env max_steps lifelines_left st :
  within fuel st (snd (while_loop fuel env max_steps lifelines_left st)).
Proof.
  revert lifelines_left st. induction fuel as [|fuel IH]; intros lifelines_left st;
    cbn [while_loop]; destruct (0 <=? lifelines_left)%Z; cbn [snd];
    try (apply (within_more 0); [lia | apply within_refl]).
  pose proof (iteration_within env max_steps st) as H.
  destruct (iteration env max_steps st) as [[status result| | |] st1]; cbn [snd] in *;
    try (apply (within_more 1); [lia | exact H]).
  apply (within_trans 1 fuel _ _ _ H), IH.
Qed.

Lemma for_loop_within env max_steps max_lifelines_per_step steps st :
  within (List.length steps * Z.to_nat (max_lifelines_per_step + 1)) st
         (snd (for_loop env max_steps max_lifelines_per_step steps st)).
Proof.
  revert st. induction steps as [|step steps IH]; intros st; cbn [for_loop List.length].
  - unfold max_steps_reached. cbn [snd]. unfold within.
    cbn [history set_final_answer]. lia.
  - unfold run_step.
    match goal with |- context [while_loop ?f ?e ?m ?l ?s] =>
      pose proof (while_loop_within f e m l s) as H;
      destruct (while_loop f e m l s) as [[o| |] st1] end;
      cbn [snd] in *.
    + apply (within_more (Z.to_nat (max_lifelines_per_step + 1))); [lia|].
      revert H. unfold within. cbn [history set_step]. auto.
    + apply (within_trans _ _ st st1); [|apply IH].
      revert H. unfold within. cbn [history set_step]. auto.
    + apply (within_trans _ _ st st1); [|apply IH].
      revert H. unfold within. cbn [history set_step]. auto.
Qed.

(** X16.  The work of a turn is bounded by the configuration.  With
    [passes] the product of [max_steps] and [max_lifelines_per_step + 1],
    a call of [run] makes at most [passes] calls of perception, of the
    planner and of the sandbox, and at most twice as many calls of the
    language model. *)
Theorem work_of_a_turn_is_bounded env max_steps max_lifelines_per_step st :
  let passes := Z.to_nat max_steps * Z.to_nat (max_lifelines_per_step + 1) in
  let st' := snd (run env max_steps max_lifelines_per_step st) in
  calls is_perception (history st') <= calls is_perception (history st) + passes
  /\ calls is_plan (history st') <= calls is_plan (history st) + passes
  /\ calls is_sandbox (history st') <= calls is_sandbox (history st) + passes
  /\ calls is_model (history st') <= calls is_model (history st) + 2 * passes.
Proof.
  intros passes st'. unfold st', run, passes.
  pose proof (for_loop_within env max_steps max_lifelines_per_step (range max_steps)
                (set_further_processing_count 0 st)) as H.
  unfold range in H. rewrite length_map, length_seq in H. exact H.
Qed.

(** ** No tool selected *)

Definition first_perception (st : state) : event :=
  RunPerception (or_else (user_input_override st) (user_input st)) (historical_context st).

Definition history_lookup (st : state) : event :=
  CallTool "search_historical_conversations" (user_input st).

Definition apology : string :=
  "FINAL_ANSWER: I apologize, but I encountered an error while processing your request.".

Definition is_record (e : event) : bool :=
  match e with AddToolOutput "direct_llm_response" _ _ true _ => true | _ => false end.

Lemma range_pos (n : Z) : (0 < n)%Z -> exists steps, range n = 0%Z :: steps.
Proof.
  intros H. unfold range. destruct (Z.to_nat n) as [|k] eqn:E; [lia|].
  cbn [seq map]. now eexists.
Qed.

(** X17.  When at least one step is allowed and perception selects
    servers that offer no tool, the turn ends in its first pass, after
    one perception, one look into the history and one prompt to the
    model.  If the model answers, [run] returns ["done"] with the
    stripped answer behind [FINAL_ANSWER:] and records it as a tool
    output; if the model raises, [run] returns ["error"] with the
    apology and records nothing. *)
Theorem no_tools_ends_the_turn env max_steps max_lifelines_per_step st :
  (0 < max_steps)%Z -> (0 <= max_lifelines_per_step)%Z ->
  get_tools_from_servers env
    (selected_servers (run_perception env (history st ++ [first_perception st]))) = [] ->
  exists prompt st',
    let asked := history st ++ [first_perception st] ++ [history_lookup st]
                 ++ [GenerateText prompt] in
    snd (run env max_steps max_lifelines_per_step st) = st'
    /\ match generate_text env asked with
       | Some answer =>
           fst (run env max_steps max_lifelines_per_step st)
           = Returned "done" (ensure_final (Py.strip answer))
           /\ exists record, is_record record = true /\ history st' = asked ++ [record]
       | None =>
           fst (run env max_steps max_lifelines_per_step st) = Returned "error" apology
           /\ history st' = asked
       end.
Proof.
  intros Hsteps Hlives Hnone. unfold run.
  destruct (range_pos max_steps Hsteps) as [steps ->]. cbn [for_loop]. unfold run_step.
  destruct (Z.to_nat (max_lifelines_per_step + 1)) as [|fuel] eqn:E; [lia|].
  cbn [while_loop]. apply Z.leb_le in Hlives. rewrite Hlives.
  unfold iteration, to_execution.
  cbn [emit history user_input user_input_override historical_context
       set_step set_further_processing_count].
  unfold first_perception in Hnone. rewrite Hnone.
  unfold no_tools.
  cbn [emit history user_input user_input_override historical_context
       set_step set_further_processing_count].
  match goal with |- context [GenerateText ?p] => exists p end.
  eexists. split; [reflexivity|].
  unfold first_perception, history_lookup. rewrite <- !List.app_assoc.
  cbn [List.app].
  match goal with |- context [generate_text env ?h] => destruct (generate_text env h) end.
  - split; [reflexivity|]. cbn [fst snd history emit set_final_answer].
    eexists. split; [|rewrite <- !List.app_assoc; reflexivity]. reflexivity.
  - split; [reflexivity|]. cbn [fst snd history emit set_final_answer].
    now rewrite <- !List.app_assoc.
Qed.

(** A greeting: perception selects no server and the model answers. *)
Definition chat_env : environment :=
  mkEnv (fun _ => mkPerception "greeting" []) (fun _ => [])
        (fun _ => NoContent) (fun _ => Some " Hello! "%string)
        (fun _ => None) (fun plan => plan) (fun _ => SandboxRaises).

Lemma no_tools_ends_the_turn_witness :
  fst (run chat_env 3 1 (fresh "hello" None)) = Returned "done" "FINAL_ANSWER: Hello!".
Proof.
  destruct (no_tools_ends_the_turn chat_env 3 1 (fresh "hello" None))
    as (prompt & st' & _ & H); [lia | lia | reflexivity |].
  cbn [chat_env generate_text] in H. destruct H as [H _]. exact H.
Defined.


End LoopBounds.

(* ===================================================================== *)
(** * Properties of the memory tools *)
(* ===================================================================== *)

Module MemoryServerFacts.

Import Backend ConversationIndexer MemoryServer.
Local Open Scope list_scope.

(** ** The filter of [search_historical_conversations] *)

Lemma error_loop_found final_answer lower patterns is_error pattern :
  In pattern patterns -> Py.contains pattern lower = true ->
  error_loop final_answer lower patterns is_error = true.
Proof.
  revert is_error. induction patterns as [|p ps IH]; intros is_error; [intros []|].
  cbn [error_loop]. intros [->|Hin] Hc.
  - now rewrite Hc.
  - destruct (Py.contains p lower); [reflexivity | now apply IH].
Qed.

Lemma error_loop_clear final_answer lower patterns is_error :
  error_loop final_answer lower patterns is_error = false ->
  forall pattern, In pattern patterns -> Py.contains pattern lower = false.
Proof.
  intros H pattern Hin. destruct (Py.contains pattern lower) eqn:E; [|reflexivity].
  now rewrite (error_loop_found _ _ _ _ _ Hin E) in H.
Qed.

Lemma is_error_clear final_answer :
  is_error final_answer = false ->
  forall pattern, In pattern error_patterns ->
                  Py.contains pattern (Py.lower final_answer) = false.
Proof.
  unfold is_error. destruct final_answer as [|c s].
  - intros _ pattern Hin. cbn in Hin.
    repeat (destruct Hin as [<-|Hin]; [reflexivity|]). destruct Hin.
  - apply error_loop_clear.
Qed.

Lemma search_length service self query top_k :
  (List.length (search service self query top_k) <= Z.to_nat top_k)%nat.
Proof.
  unfold search. destruct (index self) as [i|]; [|simpl; lia].
  destruct (ntotal i =? 0)%Z; [simpl; lia|].
  destruct (search_try service self i query top_k) as [results|] eqn:E; [|simpl; lia].
  apply IndexerFacts.search_try_length in E. lia.
Qed.

Lemma filter_length {A : Type} (p : A -> bool) (l : list A) :
  (List.length (filter p l) <= List.length l)%nat.
Proof.
  induction l as [|a l IH]; [apply Nat.le_refl|]. cbn [filter].
  destruct (p a); simpl; lia.
Qed.

Lemma results_count service lio dk global query :
  (List.length (fst (search_historical_conversations service lio dk global query)) <= 5)%nat.
Proof.
  unfold search_historical_conversations, Convenience.search_conversations.
  cbn [fst]. rewrite length_map.
  eapply Nat.le_trans; [apply filter_length|].
  exact (search_length service (get_indexer lio dk global) query 5).
Qed.

Lemma results_clear service lio dk global query r :
  In r (fst (search_historical_conversations service lio dk global query)) ->
  is_error (f_final_answer r) = false
  /\ exists entry,
       In entry (metadata (get_indexer lio dk global))
       /\ f_user_query r = user_query entry
       /\ f_final_answer r = final_answer entry.
Proof.
  unfold search_historical_conversations, Convenience.search_conversations.
  cbn [fst]. intros Hr. apply in_map_iff in Hr. destruct Hr as (found & <- & Hf).
  apply filter_In in Hf. destruct Hf as [Hin Hok]. apply negb_true_iff in Hok.
  cbn [format_result f_final_answer f_user_query].
  split; [exact Hok|].
  exists (conversation found). split; [|split; reflexivity].
  now apply (SearchFacts.search_stored service (get_indexer lio dk global) query 5).
Qed.

(** X18.  [search_historical_conversations] returns at most five
    results; none of them has a final answer that the filter takes for an
    error message, so none holds one of the error patterns in lower
    case; and each one carries the query and the answer of a conversation
    of the metadata of the global indexer. *)
Theorem tool_results_hold_no_error service lio dk global query :
  let results := fst (search_historical_conversations service lio dk global query) in
  (List.length results <= 5)%nat
  /\ forall r, In r results ->
       is_error (f_final_answer r) = false
       /\ (forall pattern, In pattern error_patterns ->
                           Py.contains pattern (Py.lower (f_final_answer r)) = false)
       /\ exists entry,
            In entry (metadata (get_indexer lio dk global))
            /\ f_user_query r = user_query entry
            /\ f_final_answer r = final_answer entry.
Proof.
  cbv zeta. split; [apply results_count|].
  intros r Hr. destruct (results_clear _ _ _ _ _ _ Hr) as [Hok Hentry].
  split; [exact Hok|]. split; [now apply is_error_clear | exact Hentry].
Qed.

(** ** The tool's filter and the filter of the pre-check *)

Lemma is_error_answer_is_error final_answer :
  HistoricalCheck.is_error_answer final_answer = true -> is_error final_answer = true.
Proof.
  unfold HistoricalCheck.is_error_answer. intros H. apply existsb_exists in H.
  destruct H as (err & Hin & Hc). unfold is_error.
  destruct final_answer as [|c s].
  - cbn in Hin. repeat (destruct Hin as [<-|Hin]; [discriminate Hc|]). destruct Hin.
  - apply (error_loop_found _ _ _ _ err); [|exact Hc].
    cbn in Hin. unfold error_patterns. cbn [In].
    repeat (destruct Hin as [<-|Hin]; [tauto|]). destruct Hin.
Qed.

(** What the pre-check reads in the reply of the tool. *)
Definition as_reply (results : list formatted_result) : list Backend.conversation :=
  map (fun r => mkConversation (Some (f_user_query r)) (Some (f_final_answer r))) results.

Lemma firstn_short {A : Type} (n : nat) (l : list A) :
  (List.length l <= n)%nat -> firstn n l = l.
Proof.
  revert n. induction l as [|a l IH]; intros [|n] H; try reflexivity; simpl in H;
    [lia|]. cbn [firstn]. rewrite IH; [reflexivity | lia].
Qed.

(** X19.  The filter of the pre-check is weaker than the filter of the
    tool: an answer that [check_historical_conversations] would leave
    out is an error for [search_historical_conversations].  Hence the
    pre-check drops nothing of what the tool returns: every result of
    the tool becomes an item of the context. *)
Theorem precheck_keeps_what_the_tool_returns service lio dk global query :
  (forall final_answer,
      HistoricalCheck.is_error_answer final_answer = true -> is_error final_answer = true)
  /\ HistoricalCheck.context_items
       (as_reply (fst (search_historical_conversations service lio dk global query)))
     = map HistoricalCheck.format_item
           (as_reply (fst (search_historical_conversations service lio dk global query))).
Proof.
  split; [exact is_error_answer_is_error|].
  pose proof (results_count service lio dk global query) as Hlen.
  pose proof (fun r H => proj1 (results_clear service lio dk global query r H)) as Hall.
  set (results := fst (search_historical_conversations service lio dk global query)) in *.
  unfold HistoricalCheck.context_items.
  rewrite firstn_short by (unfold as_reply; now rewrite length_map).
  f_equal. unfold as_reply. clear Hlen.
  induction results as [|r rs IH]; [reflexivity|].
  cbn [map filter Backend.final_answer Backend.get].
  pose proof (Hall r (or_introl eq_refl)) as Hr.
  destruct (HistoricalCheck.is_error_answer (f_final_answer r)) eqn:E.
  - apply is_error_answer_is_error in E. congruence.
  - cbn [negb]. f_equal. apply IH. intros r' Hr'. apply Hall. now right.
Qed.

(** ** [answer_from_history] *)

Lemma failure_starts message : Py.startswith "FINAL_ANSWER:" (failure message) = true.
Proof. reflexivity. Qed.

(** X20.  The result of [answer_from_history] always begins with
    [FINAL_ANSWER:], also when the import, the construction of the model
    or the model itself raises; and when a historical context is given,
    the conversations are not searched, so that the global indexer is
    left as it was. *)
Theorem answer_from_history_is_a_final_answer
        service lio dk global import_model query historical_context :
  Py.startswith "FINAL_ANSWER:"
    (fst (answer_from_history service lio dk global import_model query historical_context))
  = true
  /\ (truthy historical_context = true ->
      snd (answer_from_history service lio dk global import_model query historical_context)
      = global).
Proof.
  unfold answer_from_history.
  destruct import_model as [message|new_model]; [split; [reflexivity | reflexivity]|].
  destruct (history_context service lio dk global query historical_context)
    as [context global'] eqn:E.
  assert (Hg : truthy historical_context = true -> global' = global).
  { intros Ht. unfold history_context in E. rewrite Ht in E. now injection E. }
  destruct new_model as [message|generate_text]; [split; [reflexivity | exact Hg]|].
  destruct (generate_text _) as [message|llm_response]; cbn [fst snd];
    (split; [|exact Hg]); [reflexivity|].
  apply LoopFacts.ensure_final_starts.
Qed.

End MemoryServerFacts.

(* ===================================================================== *)
(** * Properties of a turn of the agent *)
(* ===================================================================== *)

Module AgentFacts.

Import Backend Agent.
Local Open Scope list_scope.

(** The verdict of the pre-check on an input, the context that it hands
    to the task loop, and the run of the task loop. *)
Definition precheck (c : collaborators) (user_input : string) : HistoricalCheck.dict :=
  fst (HistoricalCheck.check_historical_conversations
         (call_tool c) (generate_text c) user_input).

Definition handed_context (c : collaborators) (user_input : string) : option string :=
  if HistoricalCheck.get_bool "has_context" (precheck c user_input)
  then Some (get (getitem_str "context" (precheck c user_input)))
  else None.

Definition the_run (c : collaborators) (user_input : string)
  : Loop.outcome * Loop.state :=
  Loop.run (loop_environment c) (max_steps c) (max_lifelines_per_step c)
           (Loop.fresh user_input (handed_context c user_input)).

Lemma index_and_log_pair c session_id original_user_input original_answer tool_calls w :
  index_and_log c session_id original_user_input original_answer tool_calls w
  = (fst (index_and_log c session_id original_user_input original_answer tool_calls w),
     snd (index_and_log c session_id original_user_input original_answer tool_calls w)).
Proof. now destruct (index_and_log _ _ _ _ _ _). Qed.

(** One pass through the inner loop. *)
Lemma answer_loop_pass fuel c original_user_input user_input w :
  answer_loop (S fuel) c original_user_input user_input w
  = answer_loop 1 c original_user_input user_input w
  /\ (fst (fst (answer_loop 1 c original_user_input user_input w)) = Answered
      \/ (fst (fst (answer_loop 1 c original_user_input user_input w)) = Crashed
          /\ HistoricalCheck.get_bool "can_answer" (precheck c user_input) = false
          /\ fst (the_run c user_input) = Loop.Raised)).
Proof.
  cbn [answer_loop]. fold (precheck c user_input).
  pose proof (PreCheckFacts.verdict_answer _
                (proj1 (PreCheckFacts.check_verdict
                          (call_tool c) (generate_text c) user_input))) as Hanswer.
  fold (precheck c user_input) in Hanswer.
  destruct (HistoricalCheck.get_bool "can_answer" (precheck c user_input)) eqn:Ecan.
  - destruct (Hanswer eq_refl) as (_ & answer & -> & _).
    rewrite index_and_log_pair. split; [reflexivity | now left].
  - fold (handed_context c user_input). fold (the_run c user_input).
    pose proof (LoopFacts.run_total (loop_environment c) (max_steps c)
                  (max_lifelines_per_step c)
                  (Loop.fresh user_input (handed_context c user_input))) as Htotal.
    fold (the_run c user_input) in Htotal.
    destruct (the_run c user_input) as [[status answer| |] st] eqn:Erun.
    + destruct (LoopInvariants.run_ok _ _ _ _ _ _ _ Erun) as (Hs & _ & _).
      apply PyFacts.contains_here in Hs. unfold Loop.FINAL_ANSWER in Hs. rewrite Hs.
      rewrite index_and_log_pair. split; [reflexivity | now left].
    + split; [reflexivity|]. right. auto.
    + now contradiction Htotal.
Qed.

(** X21.  The inner loop of [main] makes one pass only: a second pass
    would need a result of [run] with [FURTHER_PROCESSING_REQUIRED:] and
    without [FINAL_ANSWER:], and [run] returns none.  The pass ends with
    an answer printed, or, when the pre-check gave no answer and [run]
    raised, with the exception leaving [main]. *)
Theorem a_turn_runs_the_task_loop_once fuel c original_user_input user_input w :
  answer_loop (S fuel) c original_user_input user_input w
  = answer_loop 1 c original_user_input user_input w
  /\ (fst (fst (answer_loop 1 c original_user_input user_input w)) = Answered
      \/ (fst (fst (answer_loop 1 c original_user_input user_input w)) = Crashed
          /\ HistoricalCheck.get_bool "can_answer" (precheck c user_input) = false
          /\ fst (the_run c user_input) = Loop.Raised)).
Proof. apply answer_loop_pass. Qed.

(** ** What is stored and what is shown *)

(** The call of [index_conversation] made for an answer. *)
Definition stored (c : collaborators) (original_user_input answer : string)
           (memory_items : list MemoryItem) (w : world)
  : option ConversationIndexer.ConversationIndexer * ConversationIndexer.disk :=
  ConversationIndexer.Convenience.index_conversation
    (embedding_service c) (clock c) (load_faults c) (save_faults c)
    (context_session_id c (current_session w)) original_user_input answer
    (match tool_calls_of memory_items with [] => None | tcs => Some tcs end)
    None (indexer w) (files w).

Definition shown (answer : string) : output :=
  Printed (Py.nl ++ "💡 Final Answer: "
         ++ Guardrail.sanitized_content (Guardrail.check_result answer)).

Lemma last_show (out : list output) (label text : string) :
  last (out ++ show label text) (Printed "")
  = Printed (Py.nl ++ label ++ Guardrail.sanitized_content (Guardrail.check_result text)).
Proof.
  unfold show. rewrite List.app_assoc. apply last_last.
Qed.

(** X22.  When the pre-check gives no answer, [run] returns and the
    session memory can be read, the turn ends with an answer.  What is
    printed last is the sanitized content that [check_result] makes of
    the text after [FINAL_ANSWER:]; what [index_conversation] receives,
    and writes to the files, is that text as it is, with the original
    user input and the tool calls of the memory. *)
Theorem stored_answer_is_raw_shown_answer_is_checked
        c original_user_input user_input w status answer st memory_items :
  HistoricalCheck.get_bool "can_answer" (precheck c user_input) = false ->
  the_run c user_input = (Loop.Returned status answer, st) ->
  get_session_items c (Loop.history st) = Backend.Gives memory_items ->
  let text := after_marker "FINAL_ANSWER:" answer in
  let turn := answer_loop 1 c original_user_input user_input w in
  fst (fst turn) = Answered
  /\ last (snd (fst turn)) (Printed "") = shown text
  /\ (indexer (snd turn), files (snd turn)) = stored c original_user_input text memory_items w.
Proof.
  intros Hcan Hrun Hitems text turn. unfold turn. cbn [answer_loop].
  fold (precheck c user_input). rewrite Hcan.
  fold (handed_context c user_input). fold (the_run c user_input). rewrite Hrun.
  destruct (LoopInvariants.run_ok _ _ _ _ _ _ _ Hrun) as (Hs & _ & _).
  apply PyFacts.contains_here in Hs. unfold Loop.FINAL_ANSWER in Hs. rewrite Hs.
  rewrite Hitems. unfold index_and_log, stored. cbn [current_session indexer files].
  fold text.
  destruct (ConversationIndexer.Convenience.index_conversation _ _ _ _ _ _ _ _ _ _ _) as [global dk].
  cbn [fst snd indexer files]. split; [reflexivity|]. split; [|reflexivity].
  rewrite List.app_assoc. apply last_show.
Qed.

(** A model that answers with a social security number, no history and
    no tool. *)
Definition leaky_environment : Loop.environment :=
  Loop.mkEnv (fun _ => Loop.mkPerception "question" []) (fun _ => [])
             (fun _ => NoContent) (fun _ => Some "Call 123-45-6789"%string)
             (fun _ => None) (fun plan => plan) (fun _ => Loop.SandboxRaises).

Definition sample : collaborators :=
  mkCollaborators (fun _ _ => NoContent) (fun _ => None) (fun _ => "session-1"%string)
                  leaky_environment 3 1 (fun _ => Backend.Gives [])
                  (fun _ => ConversationIndexer.Embedding [1%Q; 2%Q]) 0%Q
                  (ConversationIndexer.mkLoadIo true true)
                  (ConversationIndexer.mkSaveIo ConversationIndexer.Written
                                                ConversationIndexer.Written).

Definition first_start : world :=
  mkWorld None None (ConversationIndexer.mkDisk ConversationIndexer.Absent
                                                ConversationIndexer.Absent).

Lemma stored_answer_is_raw_shown_answer_is_checked_witness :
  last (snd (fst (answer_loop 1 sample "whom to call?" "whom to call?" first_start)))
       (Printed "")
  = Printed (Py.nl ++ "💡 Final Answer: Call [SSN REDACTED]")
  /\ option_map (fun self => map ConversationIndexer.final_answer
                                 (ConversationIndexer.metadata self))
                (indexer (snd (answer_loop 1 sample "whom to call?" "whom to call?"
                                           first_start)))
     = Some ["Call 123-45-6789"%string].
Proof.
  destruct (stored_answer_is_raw_shown_answer_is_checked sample
              "whom to call?" "whom to call?" first_start
              "done" "FINAL_ANSWER: Call 123-45-6789"
              (snd (the_run sample "whom to call?")) [])
    as (_ & Hshown & Hstored);
    [vm_compute; reflexivity | vm_compute; reflexivity | reflexivity |].
  split.
  - rewrite Hshown. vm_compute. reflexivity.
  - apply (f_equal fst) in Hstored. cbn [fst] in Hstored. rewrite Hstored.
    vm_compute. reflexivity.
Defined.

(** ** A blocked query *)

(** X23.  A blocked query goes no further.  [main] logs and prints the
    reason, which is one of the four messages of the blocking
    heuristics, then the warnings if there are any; nothing else is
    called, so the session, the indexer and the files are left as they
    were, whatever the collaborators would have done. *)
Theorem blocked_query_goes_no_further fuel c user_input w :
  Guardrail.blocked (Guardrail.check_query user_input) = true ->
  exists reason,
    Guardrail.reason (Guardrail.check_query user_input) = Some reason
    /\ In reason VerdictFacts.reasons
    /\ fst (handle fuel c user_input w)
       = (Rejected,
          [Logged "guardrail" ("🚫 Query blocked: " ++ reason);
           Printed (Py.nl ++ "⚠️  Your query was blocked for security reasons: " ++ reason)]
          ++ match Guardrail.warnings (Guardrail.check_query user_input) with
             | [] => []
             | ws => [Printed ("   Warnings: " ++ Py.join ", " ws)]
             end)
    /\ snd (handle fuel c user_input w) = w
    /\ forall fuel' c', handle fuel' c' user_input w = handle fuel c user_input w.
Proof.
  intros Hb. pose proof (VerdictFacts.query_verdict user_input) as H.
  unfold handle. rewrite Hb.
  destruct (Guardrail.reason (Guardrail.check_query user_input)) as [reason|].
  - destruct H as (_ & _ & Hin). exists reason. cbn [fst snd]. auto.
  - destruct H as [H _]. congruence.
Qed.

Lemma blocked_query_goes_no_further_witness :
  fst (fst (handle 1 sample "SELECT * FROM users WHERE id=1 OR 1=1" first_start)) = Rejected
  /\ snd (handle 1 sample "SELECT * FROM users WHERE id=1 OR 1=1" first_start) = first_start.
Proof.
  destruct (blocked_query_goes_no_further 1 sample
              "SELECT * FROM users WHERE id=1 OR 1=1" first_start)
    as (reason & _ & _ & Hout & Hworld & _); [vm_compute; reflexivity|].
  split; [now rewrite Hout | exact Hworld].
Defined.

End AgentFacts.

(* ===================================================================== *)
(** * Properties of the model manager *)
(* ===================================================================== *)

Module ModelManagerFacts.

Import ModelManager.

(** What the three [except] clauses of [_openai_generate] make of an
    exception. *)
Lemma handlers_raise (e0 e : exception) :
  (if isinstance e0 AuthenticationError
   then if Py.contains "api key" (Py.lower (message e0))
           || Py.contains "401" (message e0)
        then Raise (mkException ValueError key_error)
        else Raise e0
   else if isinstance e0 APIError
        then Raise (mkException ValueError
                      ("❌ OpenAI API Error: " ++ message e0
                       ++ ". Please check your API key and account status."))
        else Raise (mkException ValueError
                      ("❌ OpenAI Request Error: " ++ message e0)))
  = @Raise string e ->
  class e = ValueError
  \/ (class e = AuthenticationError
      /\ Py.contains "api key" (Py.lower (message e)) = false
      /\ Py.contains "401" (message e) = false).
Proof.
  destruct (isinstance e0 AuthenticationError) eqn:Ea.
  - destruct (Py.contains "api key" (Py.lower (message e0))
              || Py.contains "401" (message e0)) eqn:Ek.
    + intros [= <-]. now left.
    + intros [= <-]. right. apply orb_false_iff in Ek.
      unfold isinstance in Ea. destruct (class e0); try discriminate. tauto.
  - destruct (isinstance e0 APIError); intros [= <-]; now left.
Qed.

Lemma _openai_generate_raises create prompt e :
  _openai_generate create prompt = Raise e ->
  class e = ValueError
  \/ (class e = AuthenticationError
      /\ Py.contains "api key" (Py.lower (message e)) = false
      /\ Py.contains "401" (message e) = false).
Proof.
  unfold _openai_generate.
  destruct (create prompt) as [response|e0]; [|apply handlers_raise].
  destruct (content response) as [t|e0]; [discriminate|].
  destruct (isinstance e0 AttributeError || isinstance e0 IndexError
            || isinstance e0 KeyError); [|apply handlers_raise].
  destruct (shown response); discriminate.
Qed.

(** X24.  With the model type ["openai"], an exception that leaves
    [generate_text] is a [ValueError], or an [AuthenticationError] whose
    message holds neither [api key] nor [401]; a reply whose content
    cannot be read, because of an [AttributeError], an [IndexError] or a
    [KeyError], raises nothing and some text is returned.  With a model
    type that is none of ["gemini"], ["ollama"] and ["openai"],
    [generate_text] raises [NotImplementedError] with the type in its
    message. *)
Theorem openai_failures_are_value_errors (self : ModelManager) (prompt : string) :
  (model_type self = "openai" ->
   forall e, generate_text self prompt = Raise e ->
     class e = ValueError
     \/ (class e = AuthenticationError
         /\ Py.contains "api key" (Py.lower (message e)) = false
         /\ Py.contains "401" (message e) = false))
  /\ (model_type self = "openai" ->
      forall response e0,
        openai self prompt = Return response ->
        content response = Raise e0 ->
        isinstance e0 AttributeError || isinstance e0 IndexError
        || isinstance e0 KeyError = true ->
        exists text, generate_text self prompt = Return text)
  /\ (model_type self <> "gemini" -> model_type self <> "ollama" ->
      model_type self <> "openai" ->
      generate_text self prompt
      = Raise (mkException NotImplementedError
                 ("Unsupported model type: " ++ model_type self))).
Proof.
  unfold generate_text. split; [|split].
  - intros ->. cbn. apply _openai_generate_raises.
  - intros -> response e0 Hr Hc He. cbn. unfold _openai_generate.
    rewrite Hr, Hc, He. destruct (shown response); eexists; reflexivity.
  - intros Hg Ho Ha.
    apply String.eqb_neq in Hg, Ho, Ha. now rewrite Hg, Ho, Ha.
Qed.

(** A rate limit, an unknown key, and a reply without content. *)
Example openai_failures :
  let model := fun create => mkModelManager "openai" (fun _ => Raise (mkException OtherException ""))
                               (fun _ => Raise (mkException OtherException "")) create in
  generate_text (model (fun _ => Raise (mkException APIError "Rate limit reached"))) "hi"
  = Raise (mkException ValueError
             "❌ OpenAI API Error: Rate limit reached. Please check your API key and account status.")
  /\ generate_text
       (model (fun _ => Raise (mkException AuthenticationError "Incorrect API key provided"))) "hi"
     = Raise (mkException ValueError key_error)
  /\ generate_text
       (model (fun _ => Raise (mkException AuthenticationError "Organisation not found"))) "hi"
     = Raise (mkException AuthenticationError "Organisation not found")
  /\ generate_text
       (model (fun _ => Return (mkChatResponse
                                  (Raise (mkException AttributeError
                                            "'NoneType' object has no attribute 'strip'"))
                                  (Return "Choice(message=None)")))) "hi"
     = Return "Choice(message=None)".
Proof. vm_compute. repeat split. Qed.

End ModelManagerFacts.
